(** * The depth-of-field renderer: summed-area tables, resize and frame pipeline

    A shallow embedding of [src/viewer/renderer.cpp] (class [Renderer]):
    - [Resize]: the buffer allocation, with the padding of the summed-area
      table and its two assertions;
    - [UpdateGUI] and [Paint]: the frame, as the sequence of OpenGL and
      timer calls it issues;
    - the CPU summed-area table of [Paint], on the flat host arrays;
    - the GPU summed-area table: the dispatches are those of [Paint], the
      compute kernels (which live in shader files) follow the design
      document;
    - [GetRenderWidth] and [GetRenderHeight]; the arithmetic of the elapsed
      times [UpdateGUI] prints; the framebuffer bindings and the table
      writes of a frame; the CPU loops with checked indices; [Resize] as
      the sequence of calls on the objects it replaces.

    Conventions.  A C++ [int] is a [Z] and the 32-bit wrap-around is written
    out ([wrap_int]); an [unsigned] channel of a [glm::uvec4] is a [Z] reduced
    modulo [2^32] ([wrap_uint]).  Host arrays are lists, read and written by
    index.  Textures are opaque GL objects and are modelled by their texel
    function.  Floating-point values that no property depends on (camera,
    focus depth, clear colour) are left out of the call sequence. *)

From Stdlib Require Import ZArith Lia List Bool.
From Stdlib Require Import Reals Lra.
From Stdlib Require Import Sorted Permutation.
From stdpp Require Import base tactics option list.

Local Open Scope Z_scope.

(** ** Machine integers *)

Definition INT_MIN : Z := - 2 ^ 31.
Definition INT_MAX : Z := 2 ^ 31 - 1.

(** Two's complement reduction of a mathematical integer to [int]. *)
Definition wrap_int (z : Z) : Z := (z + 2 ^ 31) mod 2 ^ 32 - 2 ^ 31.

(** Reduction to [unsigned int] / [GLuint]. *)
Definition wrap_uint (z : Z) : Z := z mod 2 ^ 32.

Definition int_range (z : Z) : Prop := INT_MIN <= z <= INT_MAX.

(** The spec's [ceil(a / b)] on integers, for a positive [b]. *)
Definition ceil_div (a b : Z) : Z := - ((- a) / b).

(** ** OpenGL objects and constants *)

(** The texture names held by the renderer. *)
Inductive TexObj : Type :=
| BackbufferColorTOMS | BackbufferDepthTOMS
| BackbufferColorTOSS | BackbufferDepthTOSS
| SummedRowsTO | SummedRowsWGSumsTO
| SummedColsTO | SummedColsWGSumsTO.

Inductive TexFormat : Type := GL_SRGB8_ALPHA8 | GL_DEPTH_COMPONENT32F | GL_RGBA32UI.

(** What [glTexStorage2D] / [glTexStorage2DMultisample] allocated for a name;
    [ts_samples = 0] for a single-sampled texture. *)
Record TexStorage : Type := mkTexStorage {
  ts_samples : Z;
  ts_format : TexFormat;
  ts_width : Z;
  ts_height : Z
}.

(** ** The renderer's state

    The fields keep the names of the class members.  A texture member holds
    the storage its GL name refers to ([None] for the zero name the object
    starts with); the two host arrays are represented by their element
    counts here, their contents appear in the summed-area-table sections. *)
Record Renderer : Type := mkRenderer {
  mFirstFrame : bool;
  mBackbufferWidth : Z;
  mBackbufferHeight : Z;
  mBackbufferColorTOMS : option TexStorage;
  mBackbufferDepthTOMS : option TexStorage;
  mBackbufferColorTOSS : option TexStorage;
  mBackbufferDepthTOSS : option TexStorage;
  mWindowWidth : Z;
  mWindowHeight : Z;
  mSummedAreaTableWidth : Z;
  mSummedAreaTableHeight : Z;
  mUseCPUForSAT : bool;
  mCPUBackbufferReadback : Z;
  mCPUSummedAreaTable : Z;
  mSummedRowsTO : option TexStorage;
  mSummedAreaTableTO : option TexObj;
  mSummedRowsWGSumsTO : option TexStorage;
  mSummedColsTO : option TexStorage;
  mSummedColsWGSumsTO : option TexStorage;
  mEnableDoF : bool
}.

(** [operator new] clears the object: every member starts at zero. *)
Definition NewRenderer : Renderer :=
  {| mFirstFrame := false;
     mBackbufferWidth := 0; mBackbufferHeight := 0;
     mBackbufferColorTOMS := None; mBackbufferDepthTOMS := None;
     mBackbufferColorTOSS := None; mBackbufferDepthTOSS := None;
     mWindowWidth := 0; mWindowHeight := 0;
     mSummedAreaTableWidth := 0; mSummedAreaTableHeight := 0;
     mUseCPUForSAT := false;
     mCPUBackbufferReadback := 0; mCPUSummedAreaTable := 0;
     mSummedRowsTO := None; mSummedAreaTableTO := None;
     mSummedRowsWGSumsTO := None; mSummedColsTO := None;
     mSummedColsWGSumsTO := None;
     mEnableDoF := false |}.

(** Assignment of the three boolean members, every other member kept. *)
Definition set_flags (first cpu dof : bool) (r : Renderer) : Renderer :=
  {| mFirstFrame := first;
     mBackbufferWidth := mBackbufferWidth r; mBackbufferHeight := mBackbufferHeight r;
     mBackbufferColorTOMS := mBackbufferColorTOMS r;
     mBackbufferDepthTOMS := mBackbufferDepthTOMS r;
     mBackbufferColorTOSS := mBackbufferColorTOSS r;
     mBackbufferDepthTOSS := mBackbufferDepthTOSS r;
     mWindowWidth := mWindowWidth r; mWindowHeight := mWindowHeight r;
     mSummedAreaTableWidth := mSummedAreaTableWidth r;
     mSummedAreaTableHeight := mSummedAreaTableHeight r;
     mUseCPUForSAT := cpu;
     mCPUBackbufferReadback := mCPUBackbufferReadback r;
     mCPUSummedAreaTable := mCPUSummedAreaTable r;
     mSummedRowsTO := mSummedRowsTO r;
     mSummedAreaTableTO := mSummedAreaTableTO r;
     mSummedRowsWGSumsTO := mSummedRowsWGSumsTO r;
     mSummedColsTO := mSummedColsTO r;
     mSummedColsWGSumsTO := mSummedColsWGSumsTO r;
     mEnableDoF := dof |}.

(** [Init]: [mFirstFrame = true] and [mEnableDoF = true]; the scene, the
    programs and the queries it also sets up are collaborators and appear as
    parameters of [Paint]. *)
Definition Init (r : Renderer) : Renderer :=
  set_flags true (mUseCPUForSAT r) true r.

(** The dimensions of everything [Resize] allocates. *)
Record BufferDims : Type := mkBufferDims {
  bd_backbuffer : Z * Z;
  bd_color_ms : option TexStorage;
  bd_depth_ms : option TexStorage;
  bd_color_ss : option TexStorage;
  bd_depth_ss : option TexStorage;
  bd_table : Z * Z;
  bd_readback_len : Z;
  bd_table_len : Z;
  bd_rows : option TexStorage;
  bd_rows_wgsums : option TexStorage;
  bd_cols : option TexStorage;
  bd_cols_wgsums : option TexStorage
}.

Definition buffer_dims (r : Renderer) : BufferDims :=
  {| bd_backbuffer := (mBackbufferWidth r, mBackbufferHeight r);
     bd_color_ms := mBackbufferColorTOMS r;
     bd_depth_ms := mBackbufferDepthTOMS r;
     bd_color_ss := mBackbufferColorTOSS r;
     bd_depth_ss := mBackbufferDepthTOSS r;
     bd_table := (mSummedAreaTableWidth r, mSummedAreaTableHeight r);
     bd_readback_len := mCPUBackbufferReadback r;
     bd_table_len := mCPUSummedAreaTable r;
     bd_rows := mSummedRowsTO r;
     bd_rows_wgsums := mSummedRowsWGSumsTO r;
     bd_cols := mSummedColsTO r;
     bd_cols_wgsums := mSummedColsWGSumsTO r |}.

Section Resize.

(** [SAT_WORKGROUP_SIZE_X] is defined in [preamble.glsl], shared with the
    shaders; it is a parameter here. *)
Variable SAT_WORKGROUP_SIZE_X : Z.

Definition kSampleCount : Z := 4.

(** [(dim + SAT_WORKGROUP_SIZE_X - 1) & -SAT_WORKGROUP_SIZE_X] on [int]. *)
Definition padded_dim (dim : Z) : Z :=
  Z.land (wrap_int (dim + SAT_WORKGROUP_SIZE_X - 1))
         (wrap_int (- SAT_WORKGROUP_SIZE_X)).

(** The two assertions of [Resize]; [/] on [int] truncates ([Z.quot]). *)
Definition single_tier_ok (table_dim : Z) : bool :=
  Z.quot table_dim SAT_WORKGROUP_SIZE_X <=? SAT_WORKGROUP_SIZE_X.

(** [Resize]: [None] when an assertion fails (the process is aborted
    before the table buffers are allocated). *)
Definition Resize (width height : Z) (r : Renderer) : option Renderer :=
  let window_w := width in
  let window_h := height in
  let bw := window_w in
  let bh := window_h in
  let satw := padded_dim bw in
  let sath := padded_dim bh in
  if single_tier_ok satw then
    if single_tier_ok sath then
      Some {| mFirstFrame := mFirstFrame r;
              mBackbufferWidth := bw; mBackbufferHeight := bh;
              mBackbufferColorTOMS :=
                Some (mkTexStorage kSampleCount GL_SRGB8_ALPHA8 bw bh);
              mBackbufferDepthTOMS :=
                Some (mkTexStorage kSampleCount GL_DEPTH_COMPONENT32F bw bh);
              mBackbufferColorTOSS := Some (mkTexStorage 0 GL_SRGB8_ALPHA8 bw bh);
              mBackbufferDepthTOSS :=
                Some (mkTexStorage 0 GL_DEPTH_COMPONENT32F bw bh);
              mWindowWidth := window_w; mWindowHeight := window_h;
              mSummedAreaTableWidth := satw; mSummedAreaTableHeight := sath;
              mUseCPUForSAT := mUseCPUForSAT r;
              mCPUBackbufferReadback := wrap_int (bw * bh);
              mCPUSummedAreaTable := wrap_int (satw * sath);
              mSummedRowsTO := Some (mkTexStorage 0 GL_RGBA32UI satw sath);
              mSummedAreaTableTO := Some SummedRowsTO;
              mSummedRowsWGSumsTO :=
                Some (mkTexStorage 0 GL_RGBA32UI
                        (Z.quot satw SAT_WORKGROUP_SIZE_X) sath);
              mSummedColsTO := Some (mkTexStorage 0 GL_RGBA32UI sath satw);
              mSummedColsWGSumsTO :=
                Some (mkTexStorage 0 GL_RGBA32UI
                        (Z.quot sath SAT_WORKGROUP_SIZE_X) satw);
              mEnableDoF := mEnableDoF r |}
    else None
  else None.

End Resize.

(** ** The frame: [UpdateGUI] and [Paint] as call sequences *)

(** Indices into [mGPUTimestampQueries] (enum [GPUTimestamps::Enum]). *)
Module GPUTimestamps.
Definition RenderSceneStart : Z := 0.
Definition RenderSceneEnd : Z := 1.
Definition MultisampleResolveStart : Z := 2.
Definition MultisampleResolveEnd : Z := 3.
Definition ReadbackBackbufferStart : Z := 4.
Definition ReadbackBackbufferEnd : Z := 5.
Definition ComputeSATStart : Z := 6.
Definition ComputeSATEnd : Z := 7.
Definition SATUploadStart : Z := 8.
Definition SATUploadEnd : Z := 9.
Definition DOFBlurStart : Z := 10.
Definition DOFBlurEnd : Z := 11.
Definition RenderGUIStart : Z := 12.
Definition RenderGUIEnd : Z := 13.
Definition BlitToWindowStart : Z := 14.
Definition BlitToWindowEnd : Z := 15.
Definition Count : Z := 16.
End GPUTimestamps.

(** Indices into [mCPUTimestampQueryResults] (enum [CPUTimestamps::Enum]). *)
Module CPUTimestamps.
Definition ReadbackBackbufferStart : Z := 0.
Definition ReadbackBackbufferEnd : Z := 1.
Definition ComputeSATStart : Z := 2.
Definition ComputeSATEnd : Z := 3.
Definition SATUploadStart : Z := 4.
Definition SATUploadEnd : Z := 5.
Definition Count : Z := 6.
End CPUTimestamps.

(** The programs of the shader set.  [*mSceneSP] and the like are GL program
    names: zero until the program is compiled and linked. *)
Inductive Program : Type :=
| SceneSP
| SummedAreaTableUpsweepSP
| SummedAreaTableDownsweepSP
| TransposeSummedAreaTableSP
| DepthOfFieldSP.

(** Binding points and uniform locations: macros of [preamble.glsl], kept
    symbolic. *)
Inductive TexBinding : Type :=
| SAT_INPUT_TEXTURE_BINDING
| SAT_UINT_INPUT_TEXTURE_BINDING
| DOF_SAT_TEXTURE_BINDING
| DOF_DEPTH_TEXTURE_BINDING.

Inductive ImageBinding : Type :=
| SAT_OUTPUT_IMAGE_BINDING
| SAT_WGSUMS_IMAGE_BINDING
| TRANSPOSE_SAT_INPUT_IMAGE_BINDING
| TRANSPOSE_SAT_OUTPUT_IMAGE_BINDING.

Inductive UniformLoc : Type :=
| SAT_READ_UINT_INPUT_UNIFORM_LOCATION
| SAT_READ_WGSUM_UNIFORM_LOCATION
| SAT_ADD_WGSUM_UNIFORM_LOCATION.

Inductive ImageAccess : Type := GL_READ_ONLY | GL_WRITE_ONLY | GL_READ_WRITE.

Inductive BlitFilter : Type := GL_NEAREST | GL_LINEAR.

Inductive Framebuffer : Type := DefaultFBO | BackbufferFBOMS | BackbufferFBOSS.

Inductive FramebufferTarget : Type :=
  GL_FRAMEBUFFER | GL_READ_FRAMEBUFFER | GL_DRAW_FRAMEBUFFER.

(** Barrier and buffer bits, with the values of the OpenGL headers. *)
Definition GL_TEXTURE_FETCH_BARRIER_BIT : Z := 0x8.
Definition GL_SHADER_IMAGE_ACCESS_BARRIER_BIT : Z := 0x20.
Definition GL_COLOR_BUFFER_BIT : Z := 0x4000.
Definition GL_DEPTH_BUFFER_BIT : Z := 0x100.

(** The calls a frame issues.  [glGetQueryObjectui64v] and [ReadCPUTimestamp]
    are the reads of a timestamp by [UpdateGUI]; [glQueryCounter] and
    [QueryPerformanceCounter] populate one.  [HostSumRows] and [HostSumCols]
    stand for the two loop nests of the CPU table (see [cpu_sum_rows] and
    [cpu_sum_cols]); [SceneDraw] for the instance loop of the scene pass,
    with the uniforms and material textures it sets and the unbinding of
    all texture units that follows it.  A texture argument is [None] for the
    GL name 0 ([NULL] in the plural calls), which unbinds.  Left out:
    [glBindVertexArray], [glEnable]/[glDisable], [glDepthFunc],
    [glClearColor]/[glClearDepth] and the [float] uniforms, which neither
    bind a table texture nor order work. *)
Inductive GLcall : Type :=
| glQueryCounter (query : Z)
| glGetQueryObjectui64v (query : Z)
| QueryPerformanceCounter (slot : Z)
| ReadCPUTimestamp (slot : Z)
| UpdatePrograms
| glBindFramebuffer (target : FramebufferTarget) (fbo : Framebuffer)
| glViewport (w h : Z)
| glClear (mask : Z)
| glUseProgram (p : option Program)
| SceneDraw
| glBlitFramebuffer (src_w src_h dst_w dst_h : Z) (mask : Z) (filter : BlitFilter)
| glReadPixels (w h : Z)
| HostSumRows
| HostSumCols
| glBindTexture (t : option TexObj)
| glTexSubImage2D (row : Z) (w : Z)
| glMemoryBarrier (bits : Z)
| glBindTextures (first : TexBinding) (t : option TexObj)
| glBindImageTexture (unit : ImageBinding) (t : option TexObj) (access : ImageAccess)
| glBindImageTextures (first : ImageBinding)
| glUniform1i (loc : UniformLoc) (v : Z)
| glDispatchCompute (x y z : Z)
| glDrawArrays (count : Z)
| ImGuiRender.

(** The two axis passes of the GPU table ([enum SATPass]). *)
Inductive SATPass : Type := SATPass_Rows | SATPass_Cols.

(** What a frame receives from its collaborators: the result of the two
    [ImGui::Begin] calls, whether each checkbox was clicked, and the program
    names after [mShaders.UpdatePrograms()]. *)
Record FrameInput : Type := mkFrameInput {
  profiling_window_open : bool;
  renderer_window_open : bool;
  click_enable_dof : bool;
  click_cpu_sat : bool;
  program_name : Program -> Z
}.

(** [for (int i = lo; i < hi; i++)] as the list of the values of [i]. *)
Definition int_range_list (lo hi : Z) : list Z :=
  map (fun k => lo + Z.of_nat k) (seq 0 (Z.to_nat (hi - lo))).

Section Frame.

Variable SAT_WORKGROUP_SIZE_X : Z.
Variable TRANSPOSE_SAT_WORKGROUP_SIZE_X : Z.

(** The GPU-time loop of [UpdateGUI]: pair [i] is skipped or read. *)
Definition gpu_pair_read (use_cpu : bool) (i : Z) : list GLcall :=
  if (if negb use_cpu
      then (i * 2 =? GPUTimestamps.ReadbackBackbufferStart)
           || (i * 2 =? GPUTimestamps.SATUploadStart)
      else (i * 2 =? GPUTimestamps.ComputeSATStart))
  then []
  else [glGetQueryObjectui64v (i * 2 + 0); glGetQueryObjectui64v (i * 2 + 1)].

(** The CPU-time loop of [UpdateGUI]. *)
Definition cpu_pair_read (use_cpu : bool) (i : Z) : list GLcall :=
  if negb use_cpu
     && ((i * 2 =? CPUTimestamps.ReadbackBackbufferStart)
         || (i * 2 =? CPUTimestamps.ComputeSATStart)
         || (i * 2 =? CPUTimestamps.SATUploadStart))
  then []
  else [ReadCPUTimestamp (i * 2 + 1); ReadCPUTimestamp (i * 2 + 0)].

Definition UpdateGUI (inp : FrameInput) (r : Renderer) : list GLcall * Renderer :=
  let reads :=
    if profiling_window_open inp && negb (mFirstFrame r) then
      flat_map (gpu_pair_read (mUseCPUForSAT r))
               (int_range_list 0 (Z.quot GPUTimestamps.Count 2))
      ++ flat_map (cpu_pair_read (mUseCPUForSAT r))
                  (int_range_list 0 (Z.quot CPUTimestamps.Count 2))
    else [] in
  let r' :=
    if renderer_window_open inp then
      set_flags (mFirstFrame r)
                (xorb (mUseCPUForSAT r) (click_cpu_sat inp))
                (xorb (mEnableDoF r) (click_enable_dof inp)) r
    else r in
  (reads, r').

(** "Render scene". *)
Definition render_scene (inp : FrameInput) (r : Renderer) : list GLcall :=
  [glQueryCounter GPUTimestamps.RenderSceneStart]
  ++ (if program_name inp SceneSP =? 0 then []
      else [glBindFramebuffer GL_FRAMEBUFFER BackbufferFBOMS;
            glViewport (mBackbufferWidth r) (mBackbufferHeight r);
            glClear (Z.lor GL_COLOR_BUFFER_BIT GL_DEPTH_BUFFER_BIT);
            glUseProgram (Some SceneSP);
            SceneDraw;
            glUseProgram None;
            glBindFramebuffer GL_FRAMEBUFFER DefaultFBO])
  ++ [glQueryCounter GPUTimestamps.RenderSceneEnd].

(** "resolve multisampled backbuffer to singlesampled backbuffer". *)
Definition multisample_resolve (r : Renderer) : list GLcall :=
  [glQueryCounter GPUTimestamps.MultisampleResolveStart;
   glBindFramebuffer GL_READ_FRAMEBUFFER BackbufferFBOMS;
   glBindFramebuffer GL_DRAW_FRAMEBUFFER BackbufferFBOSS;
   glBlitFramebuffer (mBackbufferWidth r) (mBackbufferHeight r)
                     (mBackbufferWidth r) (mBackbufferHeight r)
                     (Z.lor GL_COLOR_BUFFER_BIT GL_DEPTH_BUFFER_BIT) GL_NEAREST;
   glBindFramebuffer GL_FRAMEBUFFER DefaultFBO;
   glQueryCounter GPUTimestamps.MultisampleResolveEnd].

(** "Dumb CPU SAT": readback, the two loop nests, upload. *)
Definition cpu_sat_calls (r : Renderer) : list GLcall :=
  [QueryPerformanceCounter CPUTimestamps.ReadbackBackbufferStart;
   glQueryCounter GPUTimestamps.ReadbackBackbufferStart;
   glBindFramebuffer GL_READ_FRAMEBUFFER BackbufferFBOSS;
   glReadPixels (mBackbufferWidth r) (mBackbufferHeight r);
   glBindFramebuffer GL_READ_FRAMEBUFFER DefaultFBO;
   glQueryCounter GPUTimestamps.ReadbackBackbufferEnd;
   QueryPerformanceCounter CPUTimestamps.ReadbackBackbufferEnd;
   QueryPerformanceCounter CPUTimestamps.ComputeSATStart;
   HostSumRows;
   HostSumCols;
   QueryPerformanceCounter CPUTimestamps.ComputeSATEnd;
   QueryPerformanceCounter CPUTimestamps.SATUploadStart;
   glQueryCounter GPUTimestamps.SATUploadStart;
   glBindTexture (mSummedAreaTableTO r)]
  ++ map (fun row => glTexSubImage2D row (mBackbufferWidth r))
         (int_range_list 0 (mBackbufferHeight r))
  ++ [glBindTexture None;
      glQueryCounter GPUTimestamps.SATUploadEnd;
      QueryPerformanceCounter CPUTimestamps.SATUploadEnd].

(** The table and the partial-sum texture an axis pass works on. *)
Definition pass_table (pass : SATPass) : TexObj :=
  match pass with SATPass_Rows => SummedRowsTO | SATPass_Cols => SummedColsTO end.

Definition pass_wgsums (pass : SATPass) : TexObj :=
  match pass with
  | SATPass_Rows => SummedRowsWGSumsTO
  | SATPass_Cols => SummedColsWGSumsTO
  end.

(** "Up-sweep". *)
Definition upsweep_calls (r : Renderer) (pass : SATPass) : list GLcall :=
  [glUseProgram (Some SummedAreaTableUpsweepSP);
   glMemoryBarrier (Z.lor GL_SHADER_IMAGE_ACCESS_BARRIER_BIT GL_TEXTURE_FETCH_BARRIER_BIT)]
  ++ match pass with
     | SATPass_Rows =>
         [glBindTextures SAT_INPUT_TEXTURE_BINDING (Some BackbufferColorTOSS);
          glBindImageTexture SAT_OUTPUT_IMAGE_BINDING (Some SummedRowsTO) GL_WRITE_ONLY;
          glUniform1i SAT_READ_UINT_INPUT_UNIFORM_LOCATION 0]
     | SATPass_Cols =>
         [glBindTextures SAT_UINT_INPUT_TEXTURE_BINDING (Some SummedColsTO);
          glBindImageTexture SAT_OUTPUT_IMAGE_BINDING (Some SummedColsTO) GL_WRITE_ONLY;
          glUniform1i SAT_READ_UINT_INPUT_UNIFORM_LOCATION 1]
     end
  ++ [glUniform1i SAT_READ_WGSUM_UNIFORM_LOCATION 0;
      match pass with
      | SATPass_Rows =>
          glDispatchCompute (Z.quot (mSummedAreaTableWidth r) SAT_WORKGROUP_SIZE_X)
                            (mBackbufferHeight r) 1
      | SATPass_Cols =>
          glDispatchCompute (Z.quot (mSummedAreaTableHeight r) SAT_WORKGROUP_SIZE_X)
                            (mBackbufferWidth r) 1
      end;
      glBindTextures SAT_INPUT_TEXTURE_BINDING None;
      glBindImageTextures SAT_OUTPUT_IMAGE_BINDING;
      glUseProgram None].

(** "Up-sweep WG sums". *)
Definition upsweep_wgsums_calls (r : Renderer) (pass : SATPass) : list GLcall :=
  [glUseProgram (Some SummedAreaTableUpsweepSP);
   glMemoryBarrier (Z.lor GL_SHADER_IMAGE_ACCESS_BARRIER_BIT GL_TEXTURE_FETCH_BARRIER_BIT);
   glBindTextures SAT_UINT_INPUT_TEXTURE_BINDING (Some (pass_table pass));
   glBindImageTexture SAT_OUTPUT_IMAGE_BINDING (Some (pass_wgsums pass)) GL_WRITE_ONLY;
   glUniform1i SAT_READ_UINT_INPUT_UNIFORM_LOCATION 0;
   glUniform1i SAT_READ_WGSUM_UNIFORM_LOCATION 1;
   match pass with
   | SATPass_Rows => glDispatchCompute 1 (mBackbufferHeight r) 1
   | SATPass_Cols => glDispatchCompute 1 (mBackbufferWidth r) 1
   end;
   glBindTextures SAT_UINT_INPUT_TEXTURE_BINDING None;
   glBindImageTextures SAT_OUTPUT_IMAGE_BINDING;
   glUseProgram None].

(** "Down-sweep WG sums". *)
Definition downsweep_wgsums_calls (r : Renderer) (pass : SATPass) : list GLcall :=
  [glUseProgram (Some SummedAreaTableDownsweepSP);
   glMemoryBarrier GL_SHADER_IMAGE_ACCESS_BARRIER_BIT;
   glBindImageTexture SAT_OUTPUT_IMAGE_BINDING (Some (pass_wgsums pass)) GL_READ_WRITE;
   glUniform1i SAT_ADD_WGSUM_UNIFORM_LOCATION 0;
   match pass with
   | SATPass_Rows => glDispatchCompute 1 (mBackbufferHeight r) 1
   | SATPass_Cols => glDispatchCompute 1 (mBackbufferWidth r) 1
   end;
   glBindImageTextures SAT_OUTPUT_IMAGE_BINDING;
   glUseProgram None].

(** "Down-sweep". *)
Definition downsweep_calls (r : Renderer) (pass : SATPass) : list GLcall :=
  [glUseProgram (Some SummedAreaTableDownsweepSP);
   glMemoryBarrier GL_SHADER_IMAGE_ACCESS_BARRIER_BIT;
   glBindImageTexture SAT_OUTPUT_IMAGE_BINDING (Some (pass_table pass)) GL_READ_WRITE;
   glBindImageTexture SAT_WGSUMS_IMAGE_BINDING (Some (pass_wgsums pass)) GL_READ_ONLY;
   glUniform1i SAT_ADD_WGSUM_UNIFORM_LOCATION 1;
   match pass with
   | SATPass_Rows =>
       glDispatchCompute (Z.quot (mSummedAreaTableWidth r) SAT_WORKGROUP_SIZE_X)
                         (mBackbufferHeight r) 1
   | SATPass_Cols =>
       glDispatchCompute (Z.quot (mSummedAreaTableHeight r) SAT_WORKGROUP_SIZE_X)
                         (mBackbufferWidth r) 1
   end;
   glBindImageTextures SAT_OUTPUT_IMAGE_BINDING;
   glBindImageTextures SAT_WGSUMS_IMAGE_BINDING;
   glUseProgram None].

(** "Transpose". *)
Definition transpose_calls (r : Renderer) (pass : SATPass) : list GLcall :=
  [glUseProgram (Some TransposeSummedAreaTableSP);
   glMemoryBarrier GL_SHADER_IMAGE_ACCESS_BARRIER_BIT]
  ++ match pass with
     | SATPass_Rows =>
         [glBindImageTexture TRANSPOSE_SAT_INPUT_IMAGE_BINDING (Some SummedRowsTO) GL_READ_ONLY;
          glBindImageTexture TRANSPOSE_SAT_OUTPUT_IMAGE_BINDING (Some SummedColsTO) GL_WRITE_ONLY;
          glDispatchCompute
            (Z.quot (mSummedAreaTableWidth r) TRANSPOSE_SAT_WORKGROUP_SIZE_X)
            (Z.quot (mSummedAreaTableHeight r) TRANSPOSE_SAT_WORKGROUP_SIZE_X) 1]
     | SATPass_Cols =>
         [glBindImageTexture TRANSPOSE_SAT_INPUT_IMAGE_BINDING (Some SummedColsTO) GL_READ_ONLY;
          glBindImageTexture TRANSPOSE_SAT_OUTPUT_IMAGE_BINDING (mSummedAreaTableTO r)
                             GL_WRITE_ONLY;
          glDispatchCompute
            (Z.quot (mSummedAreaTableHeight r) TRANSPOSE_SAT_WORKGROUP_SIZE_X)
            (Z.quot (mSummedAreaTableWidth r) TRANSPOSE_SAT_WORKGROUP_SIZE_X) 1]
     end
  ++ [glBindImageTextures TRANSPOSE_SAT_INPUT_IMAGE_BINDING;
      glBindImageTextures TRANSPOSE_SAT_OUTPUT_IMAGE_BINDING;
      glUseProgram None].

(** One iteration of [for (int pass = 0; pass < SATPass_Count; pass++)]. *)
Definition sat_pass_calls (r : Renderer) (pass : SATPass) : list GLcall :=
  upsweep_calls r pass ++ upsweep_wgsums_calls r pass
  ++ downsweep_wgsums_calls r pass ++ downsweep_calls r pass
  ++ transpose_calls r pass.

(** "GPU SAT". *)
Definition gpu_sat_calls (inp : FrameInput) (r : Renderer) : list GLcall :=
  [glQueryCounter GPUTimestamps.ComputeSATStart]
  ++ (if negb (program_name inp SummedAreaTableUpsweepSP =? 0)
         && negb (program_name inp SummedAreaTableDownsweepSP =? 0)
         && negb (program_name inp TransposeSummedAreaTableSP =? 0)
      then flat_map (sat_pass_calls r) [SATPass_Rows; SATPass_Cols]
      else [])
  ++ [glQueryCounter GPUTimestamps.ComputeSATEnd].

(** "Apply DoF-blur to scene". *)
Definition dof_blur_calls (inp : FrameInput) (r : Renderer) : list GLcall :=
  [glQueryCounter GPUTimestamps.DOFBlurStart]
  ++ (if program_name inp DepthOfFieldSP =? 0 then []
      else [glMemoryBarrier GL_TEXTURE_FETCH_BARRIER_BIT;
            glBindFramebuffer GL_FRAMEBUFFER BackbufferFBOSS;
            glUseProgram (Some DepthOfFieldSP);
            glBindTextures DOF_SAT_TEXTURE_BINDING (mSummedAreaTableTO r);
            glBindTextures DOF_DEPTH_TEXTURE_BINDING (Some BackbufferDepthTOSS);
            glDrawArrays 3;
            glBindTextures DOF_SAT_TEXTURE_BINDING None;
            glBindTextures DOF_DEPTH_TEXTURE_BINDING None;
            glUseProgram None;
            glBindFramebuffer GL_FRAMEBUFFER DefaultFBO])
  ++ [glQueryCounter GPUTimestamps.DOFBlurEnd].

(** The body of [if (mEnableDoF)]. *)
Definition dof_calls (inp : FrameInput) (r : Renderer) : list GLcall :=
  (if mUseCPUForSAT r then cpu_sat_calls r else gpu_sat_calls inp r)
  ++ dof_blur_calls inp r.

(** "Render GUI". *)
Definition render_gui_calls : list GLcall :=
  [glQueryCounter GPUTimestamps.RenderGUIStart;
   glBindFramebuffer GL_FRAMEBUFFER BackbufferFBOSS;
   ImGuiRender;
   glBindFramebuffer GL_FRAMEBUFFER DefaultFBO;
   glQueryCounter GPUTimestamps.RenderGUIEnd].

(** [bool scaled] of the final blit. *)
Definition scaled (r : Renderer) : bool :=
  negb (mWindowWidth r =? mBackbufferWidth r)
  || negb (mWindowHeight r =? mBackbufferHeight r).

(** "Blit to window's framebuffer". *)
Definition blit_to_window_calls (r : Renderer) : list GLcall :=
  [glQueryCounter GPUTimestamps.BlitToWindowStart;
   glBindFramebuffer GL_READ_FRAMEBUFFER BackbufferFBOSS;
   glBindFramebuffer GL_DRAW_FRAMEBUFFER DefaultFBO;
   glBlitFramebuffer (mBackbufferWidth r) (mBackbufferHeight r)
                     (mWindowWidth r) (mWindowHeight r)
                     GL_COLOR_BUFFER_BIT
                     (if scaled r then GL_LINEAR else GL_NEAREST);
   glBindFramebuffer GL_FRAMEBUFFER DefaultFBO;
   glQueryCounter GPUTimestamps.BlitToWindowEnd].

(** What [Paint] issues after [UpdateGUI] and the program reload. *)
Definition frame_calls (inp : FrameInput) (r : Renderer) : list GLcall :=
  render_scene inp r
  ++ multisample_resolve r
  ++ (if mEnableDoF r then dof_calls inp r else [])
  ++ render_gui_calls
  ++ blit_to_window_calls r.

(** [Paint]: the calls of the frame and the renderer after it. *)
Definition Paint (inp : FrameInput) (r : Renderer) : list GLcall * Renderer :=
  let '(gui, r1) := UpdateGUI inp r in
  (gui ++ [UpdatePrograms] ++ frame_calls inp r1,
   set_flags false (mUseCPUForSAT r1) (mEnableDoF r1) r1).

End Frame.

(** ** Barriers and visibility of shader writes

    A shader write through an image unit becomes visible to a later image
    load once a [glMemoryBarrier] with [GL_SHADER_IMAGE_ACCESS_BARRIER_BIT]
    was issued in between, and to a later texture fetch once one with
    [GL_TEXTURE_FETCH_BARRIER_BIT] was.  [Visibility] follows the bindings
    of a call sequence and, per texture, whether it holds writes that image
    loads ([stale_image]) or texture fetches ([stale_fetch]) may not see
    yet. *)

#[global] Instance TexObj_eq_dec : EqDecision TexObj.
Proof. solve_decision. Defined.
#[global] Instance TexBinding_eq_dec : EqDecision TexBinding.
Proof. solve_decision. Defined.
#[global] Instance ImageBinding_eq_dec : EqDecision ImageBinding.
Proof. solve_decision. Defined.
#[global] Instance UniformLoc_eq_dec : EqDecision UniformLoc.
Proof. solve_decision. Defined.

Definition all_tex_bindings : list TexBinding :=
  [SAT_INPUT_TEXTURE_BINDING; SAT_UINT_INPUT_TEXTURE_BINDING;
   DOF_SAT_TEXTURE_BINDING; DOF_DEPTH_TEXTURE_BINDING].

Definition all_image_bindings : list ImageBinding :=
  [SAT_OUTPUT_IMAGE_BINDING; SAT_WGSUMS_IMAGE_BINDING;
   TRANSPOSE_SAT_INPUT_IMAGE_BINDING; TRANSPOSE_SAT_OUTPUT_IMAGE_BINDING].

Record Visibility : Type := mkVisibility {
  tex_bound : TexBinding -> option TexObj;
  img_bound : ImageBinding -> option (TexObj * ImageAccess);
  stale_image : TexObj -> bool;
  stale_fetch : TexObj -> bool
}.

Definition has_bit (bits bit : Z) : bool := negb (Z.land bits bit =? 0).

(** A barrier "for both image and sampled-texture access". *)
Definition full_barrier (bits : Z) : bool :=
  has_bit bits GL_SHADER_IMAGE_ACCESS_BARRIER_BIT
  && has_bit bits GL_TEXTURE_FETCH_BARRIER_BIT.

Definition reads_image (a : ImageAccess) : bool :=
  match a with GL_WRITE_ONLY => false | _ => true end.

Definition writes_image (a : ImageAccess) : bool :=
  match a with GL_READ_ONLY => false | _ => true end.

(** The textures a dispatch or draw may fetch from, load from and store to,
    given the bindings. *)
Definition fetched (v : Visibility) : list TexObj :=
  omap (tex_bound v) all_tex_bindings.

Definition loaded (v : Visibility) : list TexObj :=
  omap (fun u => match img_bound v u with
                 | Some (t, a) => if reads_image a then Some t else None
                 | None => None
                 end) all_image_bindings.

Definition stored (v : Visibility) : list TexObj :=
  omap (fun u => match img_bound v u with
                 | Some (t, a) => if writes_image a then Some t else None
                 | None => None
                 end) all_image_bindings.

Definition mem_tex (t : TexObj) (l : list TexObj) : bool :=
  existsb (fun t' => bool_decide (t = t')) l.

(** A dispatch or draw under [v]: [None] when it reads a texture whose
    earlier shader writes are not visible to that kind of read. *)
Definition shader_work (v : Visibility) : option Visibility :=
  if forallb (fun t => negb (stale_fetch v t)) (fetched v)
     && forallb (fun t => negb (stale_image v t)) (loaded v)
  then Some {| tex_bound := tex_bound v; img_bound := img_bound v;
               stale_image := fun t => mem_tex t (stored v) || stale_image v t;
               stale_fetch := fun t => mem_tex t (stored v) || stale_fetch v t |}
  else None.

(** One call.  With [strict], only a barrier with both bits counts (the
    reading "a full barrier for both image and sampled-texture access");
    without, a barrier makes earlier writes visible to the kinds of access
    whose bit it carries. *)
Definition visibility_step (strict : bool) (v : Visibility) (c : GLcall)
  : option Visibility :=
  match c with
  | glMemoryBarrier bits =>
      let img := if strict then full_barrier bits
                 else has_bit bits GL_SHADER_IMAGE_ACCESS_BARRIER_BIT in
      let tex := if strict then full_barrier bits
                 else has_bit bits GL_TEXTURE_FETCH_BARRIER_BIT in
      Some {| tex_bound := tex_bound v; img_bound := img_bound v;
              stale_image := fun t => if img then false else stale_image v t;
              stale_fetch := fun t => if tex then false else stale_fetch v t |}
  | glBindTextures u t =>
      Some {| tex_bound := fun u' => if bool_decide (u' = u) then t else tex_bound v u';
              img_bound := img_bound v;
              stale_image := stale_image v; stale_fetch := stale_fetch v |}
  | glBindImageTexture u t a =>
      Some {| tex_bound := tex_bound v;
              img_bound := fun u' => if bool_decide (u' = u)
                                     then option_map (fun t => (t, a)) t
                                     else img_bound v u';
              stale_image := stale_image v; stale_fetch := stale_fetch v |}
  | glBindImageTextures u =>
      Some {| tex_bound := tex_bound v;
              img_bound := fun u' => if bool_decide (u' = u) then None
                                     else img_bound v u';
              stale_image := stale_image v; stale_fetch := stale_fetch v |}
  | glDispatchCompute _ _ _ => shader_work v
  | glDrawArrays _ => shader_work v
  | _ => Some v
  end.

Fixpoint visibility_run (strict : bool) (v : Visibility) (calls : list GLcall)
  : option Visibility :=
  match calls with
  | [] => Some v
  | c :: rest =>
      match visibility_step strict v c with
      | Some v' => visibility_run strict v' rest
      | None => None
      end
  end.

(** Nothing bound; [stale] says which textures hold writes not yet made
    visible (by an earlier frame). *)
Definition unbound (stale_i stale_f : TexObj -> bool) : Visibility :=
  {| tex_bound := fun _ => None; img_bound := fun _ => None;
     stale_image := stale_i; stale_fetch := stale_f |}.

Definition no_bindings (v : Visibility) : bool :=
  forallb (fun u => match tex_bound v u with None => true | _ => false end)
          all_tex_bindings
  && forallb (fun u => match img_bound v u with None => true | _ => false end)
             all_image_bindings.

(** The bits of the barriers of a call sequence, in order. *)
Definition barriers (calls : list GLcall) : list Z :=
  omap (fun c => match c with glMemoryBarrier bits => Some bits | _ => None end) calls.

Definition is_barrier (c : GLcall) : bool :=
  match c with glMemoryBarrier _ => true | _ => false end.

(** ** Timestamps written and read by a call sequence *)

Definition gpu_stamps_written (calls : list GLcall) : list Z :=
  omap (fun c => match c with glQueryCounter q => Some q | _ => None end) calls.

Definition gpu_stamps_read (calls : list GLcall) : list Z :=
  omap (fun c => match c with glGetQueryObjectui64v q => Some q | _ => None end) calls.

Definition cpu_stamps_written (calls : list GLcall) : list Z :=
  omap (fun c => match c with QueryPerformanceCounter q => Some q | _ => None end) calls.

Definition cpu_stamps_read (calls : list GLcall) : list Z :=
  omap (fun c => match c with ReadCPUTimestamp q => Some q | _ => None end) calls.

(** A call of the summed-area-table engine, on either path. *)
Definition is_sat_work (c : GLcall) : bool :=
  match c with
  | glReadPixels _ _ | HostSumRows | HostSumCols | glTexSubImage2D _ _
  | glDispatchCompute _ _ _ => true
  | glUseProgram (Some SummedAreaTableUpsweepSP)
  | glUseProgram (Some SummedAreaTableDownsweepSP)
  | glUseProgram (Some TransposeSummedAreaTableSP) => true
  | _ => false
  end.

(** The program a piece of shader work runs under: [glUseProgram] calls
    paired with the dispatches and draws that follow them. *)
Fixpoint work_programs (cur : option Program) (calls : list GLcall)
  : list (option Program) :=
  match calls with
  | [] => []
  | glUseProgram p :: rest => work_programs p rest
  | (glDispatchCompute _ _ _ | glDrawArrays _ | SceneDraw) :: rest =>
      cur :: work_programs cur rest
  | _ :: rest => work_programs cur rest
  end.

(** A piece of shader work runs under a program whose name is not zero. *)
Definition under_valid_program (inp : FrameInput) (p : option Program) : Prop :=
  match p with
  | Some q => program_name inp q <> 0
  | None => False
  end.

(** The filter of the blit to the window (the blit to the default
    framebuffer is the only one with [GL_COLOR_BUFFER_BIT] alone). *)
Definition window_blit_filters (calls : list GLcall) : list BlitFilter :=
  omap (fun c => match c with
                 | glBlitFramebuffer _ _ _ _ mask f =>
                     if mask =? GL_COLOR_BUFFER_BIT then Some f else None
                 | _ => None
                 end) calls.

(** The backbuffer has the size of the window. *)
Definition unscaled (r : Renderer) : Prop :=
  mWindowWidth r = mBackbufferWidth r /\ mWindowHeight r = mBackbufferHeight r.

(** Sequences of [Resize] and [Paint] on a renderer. *)
Inductive RendererOp : Type :=
| OpResize (width height : Z)
| OpPaint (inp : FrameInput).

Definition apply_op (tile transpose_tile : Z) (op : RendererOp) (r : Renderer)
  : option Renderer :=
  match op with
  | OpResize w h => Resize tile w h r
  | OpPaint inp => Some (snd (Paint tile transpose_tile inp r))
  end.

Fixpoint apply_ops (tile transpose_tile : Z) (ops : list RendererOp) (r : Renderer)
  : option Renderer :=
  match ops with
  | [] => Some r
  | op :: rest =>
      match apply_op tile transpose_tile op r with
      | Some r' => apply_ops tile transpose_tile rest r'
      | None => None
      end
  end.

(** ** Pixels, accumulators and the gamma decode *)

(** [glm::u8vec4]: a pixel of the resolved colour target. *)
Record u8vec4 : Type := mk_u8vec4 { r8 : Z; g8 : Z; b8 : Z; a8 : Z }.

(** [glm::uvec4]: four [unsigned] accumulators. *)
Record uvec4 : Type := mk_uvec4 { ux : Z; uy : Z; uz : Z; uw : Z }.

Definition uvec4_zero : uvec4 := mk_uvec4 0 0 0 0.

#[global] Instance u8vec4_inhabited : Inhabited u8vec4 := populate (mk_u8vec4 0 0 0 0).
#[global] Instance uvec4_inhabited : Inhabited uvec4 := populate uvec4_zero.

(** [glm::uvec4(p)] of a [u8vec4]. *)
Definition uvec4_of_u8vec4 (p : u8vec4) : uvec4 :=
  mk_uvec4 (r8 p) (g8 p) (b8 p) (a8 p).

(** [a + b] on [glm::uvec4]: component-wise, modulo [2^32]. *)
Definition uvec4_add (a b : uvec4) : uvec4 :=
  mk_uvec4 (wrap_uint (ux a + ux b)) (wrap_uint (uy a + uy b))
           (wrap_uint (uz a + uz b)) (wrap_uint (uw a + uw b)).

(** Component-wise sum without reduction, and the reduction: the
    mathematical sums the table is compared with. *)
Definition vadd (a b : uvec4) : uvec4 :=
  mk_uvec4 (ux a + ux b) (uy a + uy b) (uz a + uz b) (uw a + uw b).

Definition wrapv (a : uvec4) : uvec4 :=
  mk_uvec4 (wrap_uint (ux a)) (wrap_uint (uy a)) (wrap_uint (uz a)) (wrap_uint (uw a)).

Definition uint_range (z : Z) : Prop := 0 <= z < 2 ^ 32.

Definition uvec4_range (a : uvec4) : Prop :=
  uint_range (ux a) /\ uint_range (uy a) /\ uint_range (uz a) /\ uint_range (uw a).

(** The decode of the CPU path for one channel,
    [unsigned(pow(float(c) / 255.0f, 2.2f) * 255.0f)], with the [float]
    expression taken in exact arithmetic, at [255 * (c/255)^(11/5)]
    ([gamma_real] below), and [pow(0, 2.2) = 0].  The conversion to
    [unsigned] truncates, so the result is the largest [k] with
    [k <= 255 * (c/255)^(11/5)], that is with [k^5 * 255^6 <= c^11].
    [gamma_trunc_is_floor] relates it to the real number and
    [gamma_real_margin] bounds the distance of the real number from the
    integers, which the error of an evaluation in [float] does not reach. *)
Definition gamma_trunc (c : Z) : Z :=
  let c11 := c ^ 11 in
  let scale := 255 ^ 6 in
  Z.of_nat (length (List.filter (fun k => k ^ 5 * scale <=? c11)
                                (map Z.of_nat (seq 1 255)))).

(** The spec's [round(255 * (c/255)^2.2)]: the largest [k] with
    [k - 1/2 <= 255 * (c/255)^(11/5)], that is with
    [(2k-1)^5 * 255^6 <= 32 * c^11]. *)
Definition gamma_round (c : Z) : Z :=
  let c11 := 32 * c ^ 11 in
  let scale := 255 ^ 6 in
  Z.of_nat (length (List.filter (fun k => (2 * k - 1) ^ 5 * scale <=? c11)
                                (map Z.of_nat (seq 1 255)))).

(** The real number the decode converts, [255 * (c/255)^2.2], for a channel
    value [c] that is not zero. *)
Definition gamma_real (c : Z) : R := (255 * Rpower (IZR c / 255) (22 / 10))%R.

(** Sum of [f lo, ..., f (lo + n - 1)], without reduction. *)
Fixpoint vsum (f : nat -> uvec4) (lo n : nat) : uvec4 :=
  match n with
  | O => uvec4_zero
  | S n' => vadd (vsum f lo n') (f (lo + n')%nat)
  end.

(** The table the engine is to produce from the decoded pixels [d x y]:
    [row_prefix d y x] is the sum of row [y] up to column [x], and
    [sat_value d y x] the sum over [x' <= x], [y' <= y]. *)
Definition row_prefix (d : nat -> nat -> uvec4) (row col : nat) : uvec4 :=
  vsum (fun x => d x row) 0 (S col).

Definition sat_value (d : nat -> nat -> uvec4) (row col : nat) : uvec4 :=
  vsum (fun y => row_prefix d y col) 0 (S row).

(** ** Textures *)

(** A two-dimensional texture of [uvec4] texels; the colour target is held
    in the same form, its channels being the stored bytes. *)
Record Texture : Type := mkTexture {
  tex_width : nat;
  tex_height : nat;
  texel : nat -> nat -> uvec4
}.

Definition in_bounds (t : Texture) (x y : nat) : bool :=
  (x <? tex_width t)%nat && (y <? tex_height t)%nat.

(** [imageLoad] / [texelFetch]: zero outside the texture. *)
Definition imageLoad (t : Texture) (x y : nat) : uvec4 :=
  if in_bounds t x y then texel t x y else uvec4_zero.

(** The texture after a dispatch that stores [value x y] at every texel
    [(x, y)] of the region [covered]; stores outside the texture are
    discarded. *)
Definition store_region (covered : nat -> nat -> bool) (value : nat -> nat -> uvec4)
    (t : Texture) : Texture :=
  {| tex_width := tex_width t; tex_height := tex_height t;
     texel := fun x y => if covered x y && in_bounds t x y then value x y
                         else texel t x y |}.

Section SummedAreaTable.

(** The gamma decode of one channel,
    [unsigned(pow(float(c) / 255.0f, 2.2f) * 255.0f)]. *)
Variable gamma : Z -> Z.

(** [glm::uvec4(pow(glm::vec4(v) / 255.0f, glm::vec4(2.2f)) * 255.0f)]. *)
Definition decode (v : uvec4) : uvec4 :=
  mk_uvec4 (gamma (ux v)) (gamma (uy v)) (gamma (uz v)) (gamma (uw v)).

Local Open Scope nat_scope.

(** *** The CPU path

    [W], [H] are [mBackbufferWidth], [mBackbufferHeight] and [Wp] is
    [mSummedAreaTableWidth]; [readback] is [mCPUBackbufferReadback] and
    [table] is [mCPUSummedAreaTable].  Indices are taken to fit an [int].
    An index outside an array, where the source is undefined, reads the
    default value and writes nothing. *)

(** "sum the rows" *)
Definition cpu_sum_rows (W H Wp : nat) (readback : list u8vec4)
    (table : list uvec4) : list uvec4 :=
  fold_left
    (fun table row =>
       let first := uvec4_of_u8vec4 (readback !!! (row * W + 0)) in
       let first := decode first in
       let table := <[row * Wp + 0 := first]> table in
       fold_left
         (fun table col =>
            let readback := uvec4_of_u8vec4 (readback !!! (row * W + col)) in
            let readback := decode readback in
            <[row * Wp + col :=
                uvec4_add readback (table !!! (row * Wp + (col - 1)))]> table)
         (seq 1 (W - 1)) table)
    (seq 0 H) table.

(** "sum the columns" *)
Definition cpu_sum_cols (W H Wp : nat) (table : list uvec4) : list uvec4 :=
  fold_left
    (fun table col =>
       fold_left
         (fun table row =>
            <[row * Wp + col :=
                uvec4_add (table !!! (row * Wp + col))
                          (table !!! ((row - 1) * Wp + col))]> table)
         (seq 1 (H - 1)) table)
    (seq 0 W) table.

Definition cpu_sat (W H Wp : nat) (readback : list u8vec4) (table : list uvec4)
  : list uvec4 :=
  cpu_sum_cols W H Wp (cpu_sum_rows W H Wp readback table).

(** [table[row * Wp + col]], and the decoded pixel the row loop reads for
    column [col] of row [row]. *)
Definition cell (Wp : nat) (table : list uvec4) (row col : nat) : uvec4 :=
  table !!! (row * Wp + col).

Definition decoded_pixel (W : nat) (readback : list u8vec4) (col row : nat) : uvec4 :=
  decode (uvec4_of_u8vec4 (readback !!! (row * W + col))).

(** The row loop: when it is done with the rows before [n], these hold
    their prefix sums. *)
Definition rows_done (W Wp : nat) (readback : list u8vec4) (table0 : list uvec4)
    (n : nat) (table : list uvec4) : Prop :=
  length table = length table0
  /\ forall r c, r < n -> c < W ->
       cell Wp table r c = wrapv (row_prefix (decoded_pixel W readback) r c).

(** The column loop: when it is done with the columns before [n], these
    hold the table and the others still hold the row sums. *)
Definition cols_done (W H Wp : nat) (readback : list u8vec4) (table0 : list uvec4)
    (n : nat) (table : list uvec4) : Prop :=
  length table = length table0
  /\ (forall r c, r < H -> c < W -> c < n ->
        cell Wp table r c = wrapv (sat_value (decoded_pixel W readback) r c))
  /\ (forall r c, r < H -> c < W -> n <= c ->
        cell Wp table r c = wrapv (row_prefix (decoded_pixel W readback) r c)).

(** [glReadPixels(0, 0, W, H, GL_RGBA, GL_UNSIGNED_BYTE, ...)] of the
    colour target [t]: row after row, the stored bytes. *)
Definition read_pixels (W H : nat) (t : Texture) : list u8vec4 :=
  flat_map (fun row =>
              map (fun col => let p := imageLoad t col row in
                              mk_u8vec4 (ux p) (uy p) (uz p) (uw p))
                  (seq 0 W))
           (seq 0 H).

(** [glTexSubImage2D(GL_TEXTURE_2D, 0, 0, row, W, 1, ..., &table[row * Wp])]. *)
Definition tex_sub_image_row (W Wp : nat) (table : list uvec4) (t : Texture)
    (row : nat) : Texture :=
  store_region (fun x y => (x <? W) && (y =? row))
               (fun x _ => table !!! (row * Wp + x)) t.

(** "Upload SAT back to GPU". *)
Definition cpu_upload (W H Wp : nat) (table : list uvec4) (t : Texture) : Texture :=
  fold_left (tex_sub_image_row W Wp table) (seq 0 H) t.

(** *** The compute kernels *)

Variable TILE : nat.
Variable TTILE : nat.

(** Inclusive prefix sum inside a tile: element [i] of the tile starting
    at [base]. *)
Fixpoint tile_prefix (f : nat -> uvec4) (base i : nat) : uvec4 :=
  match i with
  | O => f base
  | S j => uvec4_add (tile_prefix f base j) (f (base + S j))
  end.

(** Modelled from the spec: [sat_up.comp], which is not among the sources.
    Step 1 and 2 of the scan: "each tile of TILE contiguous elements
    computes its own inclusive prefix sum independently".  A dispatch of
    [nx * ny] workgroups covers the elements [x < nx * TILE] of the rows
    [y < ny]; [input] is what the kernel reads for an element. *)
Definition upsweep_kernel (input : nat -> nat -> uvec4) (nx ny : nat)
    (out : Texture) : Texture :=
  store_region (fun x y => (x <? nx * TILE) && (y <? ny))
               (fun x y => tile_prefix (fun p => input p y)
                                       (x / TILE * TILE) (x mod TILE))
               out.

(** Modelled from the spec: [sat_down.comp] without carry-in, step 3:
    "converts the inclusive scan of partials into an exclusive scan",
    in place. *)
Definition downsweep_exclusive_kernel (nx ny : nat) (out : Texture) : Texture :=
  store_region (fun x y => (x <? nx * TILE) && (y <? ny))
               (fun x y => if x mod TILE =? 0 then uvec4_zero
                           else imageLoad out (x - 1) y)
               out.

(** Modelled from the spec: [sat_down.comp] with carry-in, step 4: "each
    tile adds its corresponding exclusive carry-in (from step 3) to every
    element it produced in step 1". *)
Definition downsweep_add_kernel (wgsums : Texture) (nx ny : nat)
    (out : Texture) : Texture :=
  store_region (fun x y => (x <? nx * TILE) && (y <? ny))
               (fun x y => uvec4_add (imageLoad out x y)
                                     (imageLoad wgsums (x / TILE) y))
               out.

(** Modelled from the spec: [sat_transpose.comp], step 5: "swap row/column
    orientation".  A workgroup covers a square tile of side
    [TRANSPOSE_SAT_WORKGROUP_SIZE_X] of the input. *)
Definition transpose_kernel (input : Texture) (nx ny : nat) (out : Texture)
  : Texture :=
  store_region (fun x y => (y <? nx * TTILE) && (x <? ny * TTILE))
               (fun x y => imageLoad input y x)
               out.

(** The four scan steps of one axis, as [Paint] dispatches them: the
    up-sweep of the table over [nx] tiles, the up-sweep of the tile totals
    and their down-sweep in a single workgroup, and the down-sweep of the
    table.  The result is the table and the partial sums. *)
Definition axis_pass (input : nat -> nat -> uvec4) (nx ny : nat)
    (table wgsums : Texture) : Texture * Texture :=
  let t1 := upsweep_kernel input nx ny table in
  let w1 := upsweep_kernel (fun p y => imageLoad t1 ((p + 1) * TILE - 1) y) 1 ny wgsums in
  let w2 := downsweep_exclusive_kernel 1 ny w1 in
  (downsweep_add_kernel w2 nx ny t1, w2).

(** *** The GL state the compute calls act on *)

Record GLState : Type := mkGLState {
  current_program : option Program;
  uniform : UniformLoc -> Z;
  texture_unit : TexBinding -> option TexObj;
  image_unit : ImageBinding -> option TexObj;
  textures : TexObj -> Texture
}.

Definition fetch (st : GLState) (u : TexBinding) (x y : nat) : uvec4 :=
  match texture_unit st u with
  | Some t => imageLoad (textures st t) x y
  | None => uvec4_zero
  end.

Definition set_texture (st : GLState) (t : TexObj) (new : Texture)
  : TexObj -> Texture :=
  fun t' => if bool_decide (t' = t) then new else textures st t'.

(** Modelled from the spec: what the up-sweep kernel reads for element
    [x] of row [y], by the mode flags "{read-raw-input,
    read-accumulated-input}": the total of tile [x] of the accumulated
    input (its last element) when [SAT_READ_WGSUM] is set, the accumulated
    input when [SAT_READ_UINT_INPUT] is set, and the gamma-decoded colour
    otherwise. *)
Definition upsweep_input (st : GLState) (x y : nat) : uvec4 :=
  if negb (uniform st SAT_READ_WGSUM_UNIFORM_LOCATION =? 0)%Z
  then fetch st SAT_UINT_INPUT_TEXTURE_BINDING ((x + 1) * TILE - 1) y
  else if negb (uniform st SAT_READ_UINT_INPUT_UNIFORM_LOCATION =? 0)%Z
  then fetch st SAT_UINT_INPUT_TEXTURE_BINDING x y
  else decode (fetch st SAT_INPUT_TEXTURE_BINDING x y).

(** [glDispatchCompute(nx, ny, 1)] under the current program. *)
Definition dispatch (st : GLState) (nx ny : nat) : TexObj -> Texture :=
  match current_program st with
  | Some SummedAreaTableUpsweepSP =>
      match image_unit st SAT_OUTPUT_IMAGE_BINDING with
      | Some o => set_texture st o
                    (upsweep_kernel (upsweep_input st) nx ny (textures st o))
      | None => textures st
      end
  | Some SummedAreaTableDownsweepSP =>
      match image_unit st SAT_OUTPUT_IMAGE_BINDING with
      | Some o =>
          if (uniform st SAT_ADD_WGSUM_UNIFORM_LOCATION =? 0)%Z
          then set_texture st o (downsweep_exclusive_kernel nx ny (textures st o))
          else match image_unit st SAT_WGSUMS_IMAGE_BINDING with
               | Some w => set_texture st o
                             (downsweep_add_kernel (textures st w) nx ny
                                                   (textures st o))
               | None => textures st
               end
      | None => textures st
      end
  | Some TransposeSummedAreaTableSP =>
      match image_unit st TRANSPOSE_SAT_INPUT_IMAGE_BINDING,
            image_unit st TRANSPOSE_SAT_OUTPUT_IMAGE_BINDING with
      | Some i, Some o => set_texture st o
                            (transpose_kernel (textures st i) nx ny (textures st o))
      | _, _ => textures st
      end
  | _ => textures st
  end.

(** The effect of one call on the compute state. *)
Definition gl_exec (st : GLState) (c : GLcall) : GLState :=
  match c with
  | glUseProgram p =>
      mkGLState p (uniform st) (texture_unit st) (image_unit st) (textures st)
  | glUniform1i loc v =>
      mkGLState (current_program st)
                (fun l => if bool_decide (l = loc) then v else uniform st l)
                (texture_unit st) (image_unit st) (textures st)
  | glBindTextures u t =>
      mkGLState (current_program st) (uniform st)
                (fun u' => if bool_decide (u' = u) then t else texture_unit st u')
                (image_unit st) (textures st)
  | glBindImageTexture u t _ =>
      mkGLState (current_program st) (uniform st) (texture_unit st)
                (fun u' => if bool_decide (u' = u) then t else image_unit st u')
                (textures st)
  | glBindImageTextures u =>
      mkGLState (current_program st) (uniform st) (texture_unit st)
                (fun u' => if bool_decide (u' = u) then None else image_unit st u')
                (textures st)
  | glDispatchCompute nx ny _ =>
      mkGLState (current_program st) (uniform st) (texture_unit st) (image_unit st)
                (dispatch st (Z.to_nat nx) (Z.to_nat ny))
  | _ => st
  end.

Definition gl_run (calls : list GLcall) (st : GLState) : GLState :=
  fold_left gl_exec calls st.

End SummedAreaTable.

(** *** The two paths of [Paint] on data *)

Section PaintTables.

Variable gamma : Z -> Z.
Variable SAT_WORKGROUP_SIZE_X : Z.
Variable TRANSPOSE_SAT_WORKGROUP_SIZE_X : Z.

(** The calls of the row pass up to its down-sweep: the row sums are in
    [SummedRowsTO] when they are done. *)
Definition row_pass_calls (r : Renderer) : list GLcall :=
  upsweep_calls SAT_WORKGROUP_SIZE_X r SATPass_Rows
  ++ upsweep_wgsums_calls r SATPass_Rows
  ++ downsweep_wgsums_calls r SATPass_Rows
  ++ downsweep_calls SAT_WORKGROUP_SIZE_X r SATPass_Rows.

(** The GPU path run on a compute state: after the row pass, and whole. *)
Definition Paint_gpu_rows (r : Renderer) (st : GLState) : GLState :=
  gl_run gamma (Z.to_nat SAT_WORKGROUP_SIZE_X)
         (Z.to_nat TRANSPOSE_SAT_WORKGROUP_SIZE_X) (row_pass_calls r) st.

Definition Paint_gpu_sat (inp : FrameInput) (r : Renderer) (st : GLState) : GLState :=
  gl_run gamma (Z.to_nat SAT_WORKGROUP_SIZE_X)
         (Z.to_nat TRANSPOSE_SAT_WORKGROUP_SIZE_X)
         (gpu_sat_calls SAT_WORKGROUP_SIZE_X TRANSPOSE_SAT_WORKGROUP_SIZE_X inp r) st.

(** The CPU path: the host table after the row loop and after both loops,
    from the readback of the colour target [color], and the table texture
    after the upload. *)
Definition Paint_cpu_rows (r : Renderer) (color : Texture) (table : list uvec4)
  : list uvec4 :=
  cpu_sum_rows gamma (Z.to_nat (mBackbufferWidth r)) (Z.to_nat (mBackbufferHeight r))
    (Z.to_nat (mSummedAreaTableWidth r))
    (read_pixels (Z.to_nat (mBackbufferWidth r)) (Z.to_nat (mBackbufferHeight r)) color)
    table.

Definition Paint_cpu_table (r : Renderer) (color : Texture) (table : list uvec4)
  : list uvec4 :=
  cpu_sat gamma (Z.to_nat (mBackbufferWidth r)) (Z.to_nat (mBackbufferHeight r))
    (Z.to_nat (mSummedAreaTableWidth r))
    (read_pixels (Z.to_nat (mBackbufferWidth r)) (Z.to_nat (mBackbufferHeight r)) color)
    table.

Definition Paint_cpu_sat (r : Renderer) (color : Texture) (table : list uvec4)
    (target : Texture) : Texture :=
  cpu_upload (Z.to_nat (mBackbufferWidth r)) (Z.to_nat (mBackbufferHeight r))
    (Z.to_nat (mSummedAreaTableWidth r)) (Paint_cpu_table r color table) target.

(** The textures of a compute state have the sizes [Resize] gave them. *)
Definition sized_as (r : Renderer) (st : GLState) : Prop :=
  forall t storage,
    match t with
    | SummedRowsTO => mSummedRowsTO r
    | SummedRowsWGSumsTO => mSummedRowsWGSumsTO r
    | SummedColsTO => mSummedColsTO r
    | SummedColsWGSumsTO => mSummedColsWGSumsTO r
    | BackbufferColorTOSS => mBackbufferColorTOSS r
    | BackbufferDepthTOSS => mBackbufferDepthTOSS r
    | BackbufferColorTOMS => mBackbufferColorTOMS r
    | BackbufferDepthTOMS => mBackbufferDepthTOMS r
    end = Some storage ->
    tex_width (textures st t) = Z.to_nat (ts_width storage)
    /\ tex_height (textures st t) = Z.to_nat (ts_height storage).

End PaintTables.

(** *** A small frame: an 8x8 white colour target, tile size 4 *)

Definition white : uvec4 := mk_uvec4 255 255 255 255.

Definition constant_texture (w h : nat) (v : uvec4) : Texture :=
  mkTexture w h (fun _ _ => v).

(** A compute state for an 8x8 frame with tile size 4: the colour target is
    white, the tables are 8x8 and the partial sums 2x8, all cleared. *)
Definition white_8x8_state : GLState :=
  mkGLState None (fun _ => 0) (fun _ => None) (fun _ => None)
    (fun t => match t with
              | BackbufferColorTOSS => constant_texture 8 8 white
              | SummedRowsWGSumsTO | SummedColsWGSumsTO =>
                  constant_texture 2 8 uvec4_zero
              | _ => constant_texture 8 8 uvec4_zero
              end).

Definition all_programs_ready : FrameInput :=
  mkFrameInput true true false false (fun _ => 1).

(** * More of the renderer *)

(** ** The render size *)

(** [GetRenderWidth] and [GetRenderHeight]. *)
Definition GetRenderWidth (r : Renderer) : Z := mBackbufferWidth r.

Definition GetRenderHeight (r : Renderer) : Z := mBackbufferHeight r.

(** ** The elapsed times of the profiling window *)

(** Reduction to [uint64_t]. *)
Definition wrap_uint64 (z : Z) : Z := z mod 2 ^ 64.

(** The two arguments [UpdateGUI] passes to [ImGui::Text] for a GPU pair,
    from the two query results [start] and [stop] (in nanoseconds):
    [ns = stop - start; ms = ns / 1000000] and [ns / 1000 - ms * 1000],
    all on [uint64_t]. *)
Definition gpu_pair_time (start stop : Z) : Z * Z :=
  let ns := wrap_uint64 (stop - start) in
  let ms := ns / 1000000 in
  (ms, wrap_uint64 (ns / 1000 - wrap_uint64 (ms * 1000))).

(** The two arguments it passes for a CPU pair, from the two counter values
    and the counter frequency [freq] (the [QuadPart] members, which are
    signed 64-bit): [ticks = stop - start; us = ticks * 1000000 / freq;
    ms = us / 1000] and [us - ms * 1000], on [uint64_t].  The division is
    undefined in the source for a zero [freq]. *)
Definition cpu_pair_time (freq start stop : Z) : Z * Z :=
  let ticks := wrap_uint64 (stop - start) in
  let us := wrap_uint64 (ticks * 1000000) / wrap_uint64 freq in
  let ms := us / 1000 in
  (ms, wrap_uint64 (us - wrap_uint64 (ms * 1000))).

(** The conversion ["%d"] of the format ["%s: %d.%d milliseconds"] applied
    to such an argument.  The argument is a [uint64_t] where the conversion
    takes an [int]: the variadic call passes it in a 64-bit slot, and the
    conversion reads the low 32 bits of the slot as an [int] (so the x86-64
    calling conventions have it; the C standard leaves it undefined). *)
Definition printf_d (arg : Z) : Z := wrap_int arg.

(** The two numbers [UpdateGUI] prints for a GPU pair and for a CPU pair. *)
Definition gpu_pair_printed (start stop : Z) : Z * Z :=
  (printf_d (fst (gpu_pair_time start stop)), printf_d (snd (gpu_pair_time start stop))).

Definition cpu_pair_printed (freq start stop : Z) : Z * Z :=
  (printf_d (fst (cpu_pair_time freq start stop)),
   printf_d (snd (cpu_pair_time freq start stop))).

(** The size of the last [Resize] of a sequence of operations, [size] when
    there is none. *)
Fixpoint last_resize (size : Z * Z) (ops : list RendererOp) : Z * Z :=
  match ops with
  | [] => size
  | OpResize w h :: rest => last_resize (w, h) rest
  | OpPaint _ :: rest => last_resize size rest
  end.

(** ** Operations and timestamps of a sequence of calls *)

Definition is_resize (op : RendererOp) : bool :=
  match op with OpResize _ _ => true | OpPaint _ => false end.

(** The two query indices of pair [i]. *)
Definition stamp_pair (i : Z) : list Z := [i * 2 + 0; i * 2 + 1].

(** ** Framebuffer bindings

    [glBindFramebuffer] sets the read binding, the draw binding or both;
    clears and draws go to the draw binding, [glReadPixels] reads the read
    binding and [glBlitFramebuffer] copies from the one to the other. *)
Record FramebufferBinding : Type := mkFramebufferBinding {
  read_framebuffer : Framebuffer;
  draw_framebuffer : Framebuffer
}.

Definition framebuffer_step (b : FramebufferBinding) (c : GLcall) : FramebufferBinding :=
  match c with
  | glBindFramebuffer GL_FRAMEBUFFER fbo => mkFramebufferBinding fbo fbo
  | glBindFramebuffer GL_READ_FRAMEBUFFER fbo =>
      mkFramebufferBinding fbo (draw_framebuffer b)
  | glBindFramebuffer GL_DRAW_FRAMEBUFFER fbo =>
      mkFramebufferBinding (read_framebuffer b) fbo
  | _ => b
  end.

(** What a call does with the framebuffers bound when it is issued. *)
Inductive FramebufferUse : Type :=
| DrawsTo (c : GLcall) (target : Framebuffer)
| ReadsFrom (source : Framebuffer)
| Copies (mask : Z) (source target : Framebuffer).

Definition framebuffer_use (b : FramebufferBinding) (c : GLcall) : list FramebufferUse :=
  match c with
  | glClear _ | SceneDraw | glDrawArrays _ | ImGuiRender =>
      [DrawsTo c (draw_framebuffer b)]
  | glReadPixels _ _ => [ReadsFrom (read_framebuffer b)]
  | glBlitFramebuffer _ _ _ _ mask _ =>
      [Copies mask (read_framebuffer b) (draw_framebuffer b)]
  | _ => []
  end.

(** The uses of a call sequence, in order, and the bindings it leaves. *)
Fixpoint framebuffer_trace (b : FramebufferBinding) (calls : list GLcall)
  : list FramebufferUse * FramebufferBinding :=
  match calls with
  | [] => ([], b)
  | c :: rest =>
      let '(uses, b') := framebuffer_trace (framebuffer_step b c) rest in
      (framebuffer_use b c ++ uses, b')
  end.

(** ** The textures written by a call sequence

    A texture is written by [glTexSubImage2D] when it is bound to
    [GL_TEXTURE_2D], and by a dispatch when it is bound to an image unit
    with write access. *)
Record TableWrites : Type := mkTableWrites {
  tw_units : TexBinding -> option TexObj;
  tw_images : ImageBinding -> option (TexObj * ImageAccess);
  tw_texture_2d : option TexObj;
  tw_written : list TexObj
}.

Definition add_written (t : TexObj) (l : list TexObj) : list TexObj :=
  if mem_tex t l then l else t :: l.

Definition writes_step (s : TableWrites) (c : GLcall) : TableWrites :=
  match c with
  | glBindTextures u t =>
      mkTableWrites (fun u' => if bool_decide (u' = u) then t else tw_units s u')
                    (tw_images s) (tw_texture_2d s) (tw_written s)
  | glBindImageTexture u t a =>
      mkTableWrites (tw_units s)
                    (fun u' => if bool_decide (u' = u)
                               then option_map (fun t => (t, a)) t
                               else tw_images s u')
                    (tw_texture_2d s) (tw_written s)
  | glBindImageTextures u =>
      mkTableWrites (tw_units s)
                    (fun u' => if bool_decide (u' = u) then None else tw_images s u')
                    (tw_texture_2d s) (tw_written s)
  | glBindTexture t =>
      mkTableWrites (tw_units s) (tw_images s) t (tw_written s)
  | glTexSubImage2D _ _ =>
      mkTableWrites (tw_units s) (tw_images s) (tw_texture_2d s)
                    (match tw_texture_2d s with
                     | Some t => add_written t (tw_written s)
                     | None => tw_written s
                     end)
  | glDispatchCompute _ _ _ =>
      mkTableWrites (tw_units s) (tw_images s) (tw_texture_2d s)
                    (fold_right add_written (tw_written s)
                       (omap (fun u => match tw_images s u with
                                       | Some (t, a) =>
                                           if writes_image a then Some t else None
                                       | None => None
                                       end) all_image_bindings))
  | _ => s
  end.

(** For every draw of the sequence: the texture bound to
    [DOF_SAT_TEXTURE_BINDING] when it is issued, and whether an earlier
    call of the sequence wrote that texture. *)
Fixpoint sampled_tables (s : TableWrites) (calls : list GLcall)
  : list (option TexObj * bool) :=
  match calls with
  | [] => []
  | c :: rest =>
      match c with
      | glDrawArrays _ =>
          [(tw_units s DOF_SAT_TEXTURE_BINDING,
            match tw_units s DOF_SAT_TEXTURE_BINDING with
            | Some t => mem_tex t (tw_written s)
            | None => false
            end)]
      | _ => []
      end ++ sampled_tables (writes_step s c) rest
  end.

Definition nothing_written : TableWrites :=
  mkTableWrites (fun _ => None) (fun _ => None) None [].

(** ** The CPU loops with checked indices

    The two loop nests of the CPU path once more, with every array access
    checked against the length of the array: the result is [None] where the
    source reads or writes outside an allocation (where [cpu_sum_rows] and
    [cpu_sum_cols] read the default value and write nothing). *)

(** [l[i] = v] inside the array. *)
Definition write_at {A} (l : list A) (i : nat) (v : A) : option (list A) :=
  if decide (i < length l)%nat then Some (<[i := v]> l) else None.

Section CheckedLoops.

Variable gamma : Z -> Z.

Local Open Scope nat_scope.

(** "sum the rows" *)
Definition cpu_sum_rows_checked (W H Wp : nat) (readback : list u8vec4)
    (table : list uvec4) : option (list uvec4) :=
  fold_left
    (fun acc row =>
       table ← acc;
       p ← readback !! (row * W + 0);
       table ← write_at table (row * Wp + 0) (decode gamma (uvec4_of_u8vec4 p));
       fold_left
         (fun acc col =>
            table ← acc;
            p ← readback !! (row * W + col);
            prev ← table !! (row * Wp + (col - 1));
            write_at table (row * Wp + col)
                     (uvec4_add (decode gamma (uvec4_of_u8vec4 p)) prev))
         (seq 1 (W - 1)) (Some table))
    (seq 0 H) (Some table).

(** "sum the columns" *)
Definition cpu_sum_cols_checked (W H Wp : nat) (table : list uvec4)
  : option (list uvec4) :=
  fold_left
    (fun acc col =>
       table ← acc;
       fold_left
         (fun acc row =>
            table ← acc;
            cur ← table !! (row * Wp + col);
            above ← table !! ((row - 1) * Wp + col);
            write_at table (row * Wp + col) (uvec4_add cur above))
         (seq 1 (H - 1)) (Some table))
    (seq 0 W) (Some table).

Definition cpu_sat_checked (W H Wp : nat) (readback : list u8vec4)
    (table : list uvec4) : option (list uvec4) :=
  table ← cpu_sum_rows_checked W H Wp readback table;
  cpu_sum_cols_checked W H Wp table.

End CheckedLoops.

(** The CPU table of [Paint] on the two host arrays as allocated. *)
Definition Paint_cpu_table_checked (gamma : Z -> Z) (r : Renderer)
    (readback : list u8vec4) (table : list uvec4) : option (list uvec4) :=
  cpu_sat_checked gamma (Z.to_nat (mBackbufferWidth r)) (Z.to_nat (mBackbufferHeight r))
    (Z.to_nat (mSummedAreaTableWidth r)) readback table.

(** ** Sums over a box *)

(** [a - b] on [glm::uvec4]: component-wise, modulo [2^32]. *)
Definition uvec4_sub (a b : uvec4) : uvec4 :=
  mk_uvec4 (wrap_uint (ux a - ux b)) (wrap_uint (uy a - uy b))
           (wrap_uint (uz a - uz b)) (wrap_uint (uw a - uw b)).

(** Component-wise difference without reduction. *)
Definition vsub (a b : uvec4) : uvec4 :=
  mk_uvec4 (ux a - ux b) (uy a - uy b) (uz a - uz b) (uw a - uw b).

(** The sum of [d x y] over the columns [x0 .. x1] of the rows [y0 .. y1]. *)
Definition box_sum (d : nat -> nat -> uvec4) (x0 y0 x1 y1 : nat) : uvec4 :=
  vsum (fun y => vsum (fun x => d x y) x0 (x1 + 1 - x0)) y0 (y1 + 1 - y0).

(** Every channel lies in [0 .. bound]. *)
Definition channels_le (bound : Z) (v : uvec4) : Prop :=
  0 <= ux v <= bound /\ 0 <= uy v <= bound /\ 0 <= uz v <= bound /\ 0 <= uw v <= bound.

(** ** [Resize] as a sequence of calls

    The calls of [Resize] on the GL objects and host arrays it replaces, in
    the order of the source.  A texture, framebuffer or array argument is
    the member that holds the name (or pointer).  [GL c] is a call that
    [Paint] issues too. *)

Inductive HostArray : Type := CPUBackbufferReadback | CPUSummedAreaTable.

Inductive FramebufferMember : Type := mBackbufferFBOMS | mBackbufferFBOSS.

Inductive Attachment : Type := GL_COLOR_ATTACHMENT0 | GL_DEPTH_ATTACHMENT.

Definition GL_FRAMEBUFFER_COMPLETE : Z := 0x8CD5.

Inductive ResizeCall : Type :=
| GL (c : GLcall)
| glFinish
| glDeleteTextures (member : TexObj)
| glGenTextures (member : TexObj)
| glTexStorage2DMultisample (storage : TexStorage)
| glTexStorage2D (storage : TexStorage)
| glDeleteFramebuffers (member : FramebufferMember)
| glGenFramebuffers (member : FramebufferMember)
| glFramebufferTexture2D (attachment : Attachment) (texture : TexObj)
| glCheckFramebufferStatus
| fprintf_stderr (status : Z)
| assert_fails
| delete_array (member : HostArray)
| new_array (member : HostArray) (count : Z).

Section ResizeCalls.

Variable SAT_WORKGROUP_SIZE_X : Z.

(** "Init multisampled FBO"; [status] is what [glCheckFramebufferStatus]
    returns. *)
Definition init_multisampled_fbo (bw bh status : Z) : list ResizeCall :=
  [glDeleteTextures BackbufferColorTOMS;
   glGenTextures BackbufferColorTOMS;
   GL (glBindTexture (Some BackbufferColorTOMS));
   glTexStorage2DMultisample (mkTexStorage kSampleCount GL_SRGB8_ALPHA8 bw bh);
   GL (glBindTexture None);
   glDeleteTextures BackbufferDepthTOMS;
   glGenTextures BackbufferDepthTOMS;
   GL (glBindTexture (Some BackbufferDepthTOMS));
   glTexStorage2DMultisample (mkTexStorage kSampleCount GL_DEPTH_COMPONENT32F bw bh);
   GL (glBindTexture None);
   glDeleteFramebuffers mBackbufferFBOMS;
   glGenFramebuffers mBackbufferFBOMS;
   GL (glBindFramebuffer GL_FRAMEBUFFER BackbufferFBOMS);
   glFramebufferTexture2D GL_COLOR_ATTACHMENT0 BackbufferColorTOMS;
   glFramebufferTexture2D GL_DEPTH_ATTACHMENT BackbufferDepthTOMS;
   glCheckFramebufferStatus]
  ++ (if status =? GL_FRAMEBUFFER_COMPLETE then [] else [fprintf_stderr status])
  ++ [GL (glBindFramebuffer GL_FRAMEBUFFER DefaultFBO)].

(** "Init singlesampled FBO". *)
Definition init_singlesampled_fbo (bw bh status : Z) : list ResizeCall :=
  [glDeleteTextures BackbufferColorTOSS;
   glGenTextures BackbufferColorTOSS;
   GL (glBindTexture (Some BackbufferColorTOSS));
   glTexStorage2D (mkTexStorage 0 GL_SRGB8_ALPHA8 bw bh);
   GL (glBindTexture None);
   glDeleteTextures BackbufferDepthTOSS;
   glGenTextures BackbufferDepthTOSS;
   GL (glBindTexture (Some BackbufferDepthTOSS));
   glTexStorage2D (mkTexStorage 0 GL_DEPTH_COMPONENT32F bw bh);
   GL (glBindTexture None);
   glDeleteFramebuffers mBackbufferFBOSS;
   glGenFramebuffers mBackbufferFBOSS;
   GL (glBindFramebuffer GL_FRAMEBUFFER BackbufferFBOSS);
   glFramebufferTexture2D GL_COLOR_ATTACHMENT0 BackbufferColorTOSS;
   glFramebufferTexture2D GL_DEPTH_ATTACHMENT BackbufferDepthTOSS;
   glCheckFramebufferStatus]
  ++ (if status =? GL_FRAMEBUFFER_COMPLETE then [] else [fprintf_stderr status])
  ++ [GL (glBindFramebuffer GL_FRAMEBUFFER DefaultFBO)].

(** "Init summed area table", after the two assertions. *)
Definition init_summed_area_table (bw bh satw sath : Z) : list ResizeCall :=
  [delete_array CPUBackbufferReadback;
   new_array CPUBackbufferReadback (wrap_int (bw * bh));
   delete_array CPUSummedAreaTable;
   new_array CPUSummedAreaTable (wrap_int (satw * sath));
   glDeleteTextures SummedRowsTO;
   glGenTextures SummedRowsTO;
   GL (glBindTexture (Some SummedRowsTO));
   glTexStorage2D (mkTexStorage 0 GL_RGBA32UI satw sath);
   GL (glBindTexture None);
   glDeleteTextures SummedRowsWGSumsTO;
   glGenTextures SummedRowsWGSumsTO;
   GL (glBindTexture (Some SummedRowsWGSumsTO));
   glTexStorage2D (mkTexStorage 0 GL_RGBA32UI (Z.quot satw SAT_WORKGROUP_SIZE_X) sath);
   GL (glBindTexture None);
   glDeleteTextures SummedColsTO;
   glGenTextures SummedColsTO;
   GL (glBindTexture (Some SummedColsTO));
   glTexStorage2D (mkTexStorage 0 GL_RGBA32UI sath satw);
   GL (glBindTexture None);
   glDeleteTextures SummedColsWGSumsTO;
   glGenTextures SummedColsWGSumsTO;
   GL (glBindTexture (Some SummedColsWGSumsTO));
   glTexStorage2D (mkTexStorage 0 GL_RGBA32UI (Z.quot sath SAT_WORKGROUP_SIZE_X) satw);
   GL (glBindTexture None)].

(** The calls of [Resize]; the last one is [assert_fails] when an assertion
    aborts the process. *)
Definition Resize_calls (width height status_ms status_ss : Z) : list ResizeCall :=
  let bw := width in
  let bh := height in
  let satw := padded_dim SAT_WORKGROUP_SIZE_X bw in
  let sath := padded_dim SAT_WORKGROUP_SIZE_X bh in
  [glFinish]
  ++ init_multisampled_fbo bw bh status_ms
  ++ init_singlesampled_fbo bw bh status_ss
  ++ (if single_tier_ok SAT_WORKGROUP_SIZE_X satw
         && single_tier_ok SAT_WORKGROUP_SIZE_X sath
      then init_summed_area_table bw bh satw sath
      else [assert_fails]).

End ResizeCalls.

(** ** The objects a renderer holds

    The members that hold a texture name, a framebuffer name or an array
    pointer, and the objects that exist: [handle] is the value of a member
    (zero for no object) and [live] lists the names in use, by kind.
    Deleting a name that is zero or not in use does nothing; generating
    gives a name of the kind that is not in use and not zero. *)

Inductive Member : Type :=
| TextureMember (t : TexObj)
| FramebufferObject (f : FramebufferMember)
| ArrayMember (a : HostArray).

Inductive ObjectKind : Type := TextureKind | FramebufferKind | ArrayKind.

#[global] Instance HostArray_eq_dec : EqDecision HostArray.
Proof. solve_decision. Defined.
#[global] Instance FramebufferMember_eq_dec : EqDecision FramebufferMember.
Proof. solve_decision. Defined.
#[global] Instance Member_eq_dec : EqDecision Member.
Proof. solve_decision. Defined.
#[global] Instance ObjectKind_eq_dec : EqDecision ObjectKind.
Proof. solve_decision. Defined.

Definition kind (m : Member) : ObjectKind :=
  match m with
  | TextureMember _ => TextureKind
  | FramebufferObject _ => FramebufferKind
  | ArrayMember _ => ArrayKind
  end.

Definition all_members : list Member :=
  [TextureMember BackbufferColorTOMS; TextureMember BackbufferDepthTOMS;
   TextureMember BackbufferColorTOSS; TextureMember BackbufferDepthTOSS;
   TextureMember SummedRowsTO; TextureMember SummedRowsWGSumsTO;
   TextureMember SummedColsTO; TextureMember SummedColsWGSumsTO;
   FramebufferObject mBackbufferFBOMS; FramebufferObject mBackbufferFBOSS;
   ArrayMember CPUBackbufferReadback; ArrayMember CPUSummedAreaTable].

Record Objects : Type := mkObjects {
  handle : Member -> Z;
  live : list (ObjectKind * Z)
}.

(** After [operator new]: every member is zero and nothing exists. *)
Definition no_objects : Objects := mkObjects (fun _ => 0) [].

Definition names_of (k : ObjectKind) (l : list (ObjectKind * Z)) : list Z :=
  omap (fun e => if bool_decide (fst e = k) then Some (snd e) else None) l.

(** A name of kind [k] that is not in use. *)
Definition unused_name (k : ObjectKind) (l : list (ObjectKind * Z)) : Z :=
  1 + fold_right Z.max 0 (names_of k l).

(** [glDelete*(1, &member)] and [delete[] member]: the member keeps its
    value. *)
Definition release (m : Member) (s : Objects) : Objects :=
  mkObjects (handle s)
            (List.filter (fun e => negb (bool_decide (e = (kind m, handle s m))))
                         (live s)).

(** [glGen*(1, &member)] and [member = new ...]. *)
Definition acquire (m : Member) (s : Objects) : Objects :=
  let n := unused_name (kind m) (live s) in
  mkObjects (fun m' => if bool_decide (m' = m) then n else handle s m')
            ((kind m, n) :: live s).

Definition released (c : ResizeCall) : option Member :=
  match c with
  | glDeleteTextures t => Some (TextureMember t)
  | glDeleteFramebuffers f => Some (FramebufferObject f)
  | delete_array a => Some (ArrayMember a)
  | _ => None
  end.

Definition generated (c : ResizeCall) : option Member :=
  match c with
  | glGenTextures t => Some (TextureMember t)
  | glGenFramebuffers f => Some (FramebufferObject f)
  | new_array a _ => Some (ArrayMember a)
  | _ => None
  end.

Definition objects_step (s : Objects) (c : ResizeCall) : Objects :=
  match released c, generated c with
  | Some m, _ => release m s
  | None, Some m => acquire m s
  | None, None => s
  end.

Definition objects_run (calls : list ResizeCall) (s : Objects) : Objects :=
  fold_left objects_step calls s.

(** The objects in use are those the members hold, each held by one member;
    [pending] is a member whose object was deleted and not replaced yet, and
    the members in [acquired] hold an object. *)
Definition owns (pending : option Member) (acquired : list Member) (s : Objects) : Prop :=
  List.NoDup (live s)
  /\ (forall k n, In (k, n) (live s)
        <-> n <> 0 /\ exists m, Some m <> pending /\ kind m = k /\ handle s m = n)
  /\ (forall m1 m2, Some m1 <> pending -> Some m2 <> pending ->
        kind m1 = kind m2 -> handle s m1 = handle s m2 -> handle s m1 <> 0 -> m1 = m2)
  /\ (forall m, In m acquired -> Some m <> pending /\ handle s m <> 0).

(** No object is leaked and no member dangles. *)
Definition no_leak (s : Objects) : Prop := owns None [] s.

(** The discipline of a call sequence: a member is deleted only while no
    other is pending, and what is generated next goes to that member. *)
Fixpoint lifetime_check (pending : option Member) (acquired : list Member)
    (calls : list ResizeCall) : option (list Member) :=
  match calls with
  | [] => match pending with None => Some acquired | Some _ => None end
  | c :: rest =>
      match released c, generated c with
      | Some m, _ =>
          match pending with
          | None =>
              lifetime_check (Some m)
                (List.filter (fun m' => negb (bool_decide (m' = m))) acquired) rest
          | Some _ => None
          end
      | None, Some m =>
          match pending with
          | Some m' =>
              if bool_decide (m = m') then lifetime_check None (m :: acquired) rest
              else None
          | None => None
          end
      | None, None => lifetime_check pending acquired rest
      end
  end.

(** The diagnostics a call sequence prints. *)
Definition diagnostics (calls : list ResizeCall) : list Z :=
  omap (fun c => match c with fprintf_stderr status => Some status | _ => None end) calls.

(** ** What the calls of [Resize] allocate *)

(** The storage a member of the renderer records for a texture. *)
Definition texture_storage (r : Renderer) (t : TexObj) : option TexStorage :=
  match t with
  | BackbufferColorTOMS => mBackbufferColorTOMS r
  | BackbufferDepthTOMS => mBackbufferDepthTOMS r
  | BackbufferColorTOSS => mBackbufferColorTOSS r
  | BackbufferDepthTOSS => mBackbufferDepthTOSS r
  | SummedRowsTO => mSummedRowsTO r
  | SummedRowsWGSumsTO => mSummedRowsWGSumsTO r
  | SummedColsTO => mSummedColsTO r
  | SummedColsWGSumsTO => mSummedColsWGSumsTO r
  end.

(** The texture bound and the storage of each texture: a generated name has
    no storage, and [glTexStorage2D] and [glTexStorage2DMultisample] give
    one to the texture that is bound. *)
Definition storage_step (st : option TexObj * (TexObj -> option TexStorage))
    (c : ResizeCall) : option TexObj * (TexObj -> option TexStorage) :=
  match c with
  | GL (glBindTexture t) => (t, snd st)
  | glGenTextures t =>
      (fst st, fun t' => if bool_decide (t' = t) then None else snd st t')
  | glTexStorage2D storage | glTexStorage2DMultisample storage =>
      match fst st with
      | Some t =>
          (fst st, fun t' => if bool_decide (t' = t) then Some storage else snd st t')
      | None => st
      end
  | _ => st
  end.

Definition storages (calls : list ResizeCall)
  : option TexObj * (TexObj -> option TexStorage) :=
  fold_left storage_step calls (None, fun _ => None).

(** The element counts of the arrays a call sequence allocates. *)
Definition array_counts (calls : list ResizeCall) : list (HostArray * Z) :=
  omap (fun c => match c with new_array a n => Some (a, n) | _ => None end) calls.

(** * Properties *)

(** ** Integer facts *)

Lemma wrap_int_id z : int_range z -> wrap_int z = z.
Proof.
  unfold int_range, INT_MIN, INT_MAX, wrap_int. intros Hz.
  rewrite Z.mod_small by lia. lia.
Qed.

Lemma land_neg_pow2 a k : 0 <= k -> Z.land a (- 2 ^ k) = 2 ^ k * (a / 2 ^ k).
Proof.
  intros Hk.
  replace (- 2 ^ k) with (Z.lnot (Z.ones k)).
  - rewrite <- Z.ldiff_land, Z.ldiff_ones_r by lia.
    rewrite Z.shiftl_mul_pow2, Z.shiftr_div_pow2 by lia. lia.
  - rewrite Z.ones_equiv. unfold Z.lnot. lia.
Qed.

Lemma ceil_div_spec a b :
  0 < b -> b * (ceil_div a b - 1) < a <= b * ceil_div a b.
Proof.
  intros Hb. unfold ceil_div.
  pose proof (Z.div_mod (- a) b ltac:(lia)) as Hdm.
  pose proof (Z.mod_pos_bound (- a) b Hb) as Hm.
  nia.
Qed.

Lemma ceil_div_add a b : 0 < b -> (a + b - 1) / b = ceil_div a b.
Proof.
  intros Hb. unfold ceil_div.
  pose proof (Z.div_mod (- a) b ltac:(lia)) as Hdm.
  pose proof (Z.mod_pos_bound (- a) b Hb) as Hm.
  symmetry. apply (Z.div_unique _ _ _ (b - 1 - (- a) mod b)); nia.
Qed.

Lemma pow2_bounds k : 0 <= k <= 30 -> 1 <= 2 ^ k <= 2 ^ 30.
Proof.
  intros Hk. split.
  - pose proof (Z.pow_pos_nonneg 2 k ltac:(lia) ltac:(lia)). lia.
  - apply Z.pow_le_mono_r; lia.
Qed.

Section ResizeProperties.

Variable TILE : Z.

(** The padding expression of [Resize] on a dimension whose sum with
    [TILE - 1] fits an [int], for a power-of-two [TILE]. *)
Lemma padded_dim_ceil k dim :
  0 <= k <= 30 -> TILE = 2 ^ k ->
  INT_MIN <= dim -> dim + TILE - 1 <= INT_MAX ->
  padded_dim TILE dim = ceil_div dim TILE * TILE.
Proof.
  intros Hk HT Hlo Hhi. pose proof (pow2_bounds k Hk) as Hp.
  unfold padded_dim. unfold INT_MIN, INT_MAX in *.
  rewrite !wrap_int_id by (unfold int_range, INT_MIN, INT_MAX; lia).
  subst TILE. rewrite land_neg_pow2 by lia.
  rewrite ceil_div_add by lia. lia.
Qed.

Lemma Resize_Some w h r r' :
  Resize TILE w h r = Some r' ->
  single_tier_ok TILE (padded_dim TILE w) = true
  /\ single_tier_ok TILE (padded_dim TILE h) = true
  /\ mBackbufferWidth r' = w /\ mBackbufferHeight r' = h
  /\ mWindowWidth r' = w /\ mWindowHeight r' = h
  /\ mSummedAreaTableWidth r' = padded_dim TILE w
  /\ mSummedAreaTableHeight r' = padded_dim TILE h
  /\ mSummedAreaTableTO r' = Some SummedRowsTO.
Proof.
  unfold Resize. intros H.
  destruct (single_tier_ok TILE (padded_dim TILE w)); [|discriminate].
  destruct (single_tier_ok TILE (padded_dim TILE h)); [|discriminate].
  injection H as <-. cbn. auto 10.
Qed.

Lemma Resize_buffer_dims w h r1 r2 r1' r2' :
  Resize TILE w h r1 = Some r1' -> Resize TILE w h r2 = Some r2' ->
  buffer_dims r1' = buffer_dims r2'.
Proof.
  unfold Resize. intros H1 H2.
  destruct (single_tier_ok TILE (padded_dim TILE w)); [|discriminate].
  destruct (single_tier_ok TILE (padded_dim TILE h)); [|discriminate].
  injection H1 as <-. injection H2 as <-. reflexivity.
Qed.

Lemma Resize_succeeds_again w h r1 r1' r2 :
  Resize TILE w h r1 = Some r1' -> exists r2', Resize TILE w h r2 = Some r2'.
Proof.
  unfold Resize. intros H1.
  destruct (single_tier_ok TILE (padded_dim TILE w)); [|discriminate].
  destruct (single_tier_ok TILE (padded_dim TILE h)); [|discriminate].
  eauto.
Qed.

(** C4.  For a power-of-two tile size and dimensions whose padding fits an
    [int], the table dimensions [Resize] allocates are
    [ceil(W/TILE)*TILE] and [ceil(H/TILE)*TILE]. *)
Theorem Resize_table_dims_padded k w h r r' :
  0 <= k <= 30 -> TILE = 2 ^ k ->
  INT_MIN <= w -> w + TILE - 1 <= INT_MAX ->
  INT_MIN <= h -> h + TILE - 1 <= INT_MAX ->
  Resize TILE w h r = Some r' ->
  mSummedAreaTableWidth r' = ceil_div w TILE * TILE
  /\ mSummedAreaTableHeight r' = ceil_div h TILE * TILE.
Proof.
  intros Hk HT Hw1 Hw2 Hh1 Hh2 HR.
  apply Resize_Some in HR as (_ & _ & _ & _ & _ & _ & -> & -> & _).
  split; eapply padded_dim_ceil; eauto.
Qed.

(** C8.  The dimensions of the buffers [Resize] allocates are a function of
    the requested size alone: they are the values written out below, in
    which the renderer before the call does not occur, so from any two
    renderers a [Resize] with the same size leaves the same dimensions.
    Hence a second [Resize] with the same size succeeds and leaves them as
    they are, and so does a [Resize] back to that size after a [Resize] to
    any other size. *)
Theorem Resize_dims_function_of_size w h r r1 :
  Resize TILE w h r = Some r1 ->
  buffer_dims r1
  = {| bd_backbuffer := (w, h);
       bd_color_ms := Some (mkTexStorage 4 GL_SRGB8_ALPHA8 w h);
       bd_depth_ms := Some (mkTexStorage 4 GL_DEPTH_COMPONENT32F w h);
       bd_color_ss := Some (mkTexStorage 0 GL_SRGB8_ALPHA8 w h);
       bd_depth_ss := Some (mkTexStorage 0 GL_DEPTH_COMPONENT32F w h);
       bd_table := (padded_dim TILE w, padded_dim TILE h);
       bd_readback_len := wrap_int (w * h);
       bd_table_len := wrap_int (padded_dim TILE w * padded_dim TILE h);
       bd_rows :=
         Some (mkTexStorage 0 GL_RGBA32UI (padded_dim TILE w) (padded_dim TILE h));
       bd_rows_wgsums :=
         Some (mkTexStorage 0 GL_RGBA32UI (Z.quot (padded_dim TILE w) TILE)
                            (padded_dim TILE h));
       bd_cols :=
         Some (mkTexStorage 0 GL_RGBA32UI (padded_dim TILE h) (padded_dim TILE w));
       bd_cols_wgsums :=
         Some (mkTexStorage 0 GL_RGBA32UI (Z.quot (padded_dim TILE h) TILE)
                            (padded_dim TILE w)) |}
  /\ (forall r' r1', Resize TILE w h r' = Some r1' -> buffer_dims r1' = buffer_dims r1)
  /\ (exists r2, Resize TILE w h r1 = Some r2 /\ buffer_dims r2 = buffer_dims r1)
  /\ (forall w' h' r', Resize TILE w' h' r1 = Some r' ->
        exists r3, Resize TILE w h r' = Some r3 /\ buffer_dims r3 = buffer_dims r1).
Proof.
  intros H1. split; [|split; [|split]].
  - unfold Resize in H1.
    destruct (single_tier_ok TILE (padded_dim TILE w)); [|discriminate].
    destruct (single_tier_ok TILE (padded_dim TILE h)); [|discriminate].
    injection H1 as <-. reflexivity.
  - intros r' r1' H'. eapply Resize_buffer_dims; eauto.
  - destruct (Resize_succeeds_again w h r r1 r1 H1) as [r2 H2].
    exists r2. split; [exact H2|]. eapply Resize_buffer_dims; eauto.
  - intros w' h' r' H'.
    destruct (Resize_succeeds_again w h r r1 r' H1) as [r3 H3].
    exists r3. split; [exact H3|]. eapply Resize_buffer_dims; eauto.
Qed.

(** C9.  [Resize] goes on to allocate the table exactly when the padded
    width and the padded height, divided by the tile size, are at most the
    tile size; the table it then allocates has these bounded dimensions. *)
Theorem Resize_asserts_single_tier w h r :
  match Resize TILE w h r with
  | Some r' =>
      mSummedAreaTableWidth r' = padded_dim TILE w
      /\ mSummedAreaTableHeight r' = padded_dim TILE h
      /\ Z.quot (mSummedAreaTableWidth r') TILE <= TILE
      /\ Z.quot (mSummedAreaTableHeight r') TILE <= TILE
  | None =>
      ~ (Z.quot (padded_dim TILE w) TILE <= TILE
         /\ Z.quot (padded_dim TILE h) TILE <= TILE)
  end.
Proof.
  unfold Resize, single_tier_ok.
  destruct (Z.leb_spec (Z.quot (padded_dim TILE w) TILE) TILE);
    [destruct (Z.leb_spec (Z.quot (padded_dim TILE h) TILE) TILE)|]; cbn; lia.
Qed.

End ResizeProperties.

Lemma Resize_table_dims_padded_witness :
  exists r',
    Resize 256 800 600 NewRenderer = Some r'
    /\ mSummedAreaTableWidth r' = ceil_div 800 256 * 256
    /\ mSummedAreaTableHeight r' = ceil_div 600 256 * 256.
Proof.
  eexists. split; [reflexivity|].
  apply (Resize_table_dims_padded 256 8 800 600 NewRenderer);
    [lia | reflexivity | unfold INT_MIN; lia | unfold INT_MAX; lia
     | unfold INT_MIN; lia | unfold INT_MAX; lia | reflexivity].
Defined.

Lemma Resize_dims_function_of_size_witness :
  let toggled := mkFrameInput true true true true (fun _ => 1) in
  exists r1 r2 r3 r4,
    Resize 256 800 600 NewRenderer = Some r1
    /\ Resize 256 1920 1080 r1 = Some r2
    /\ Resize 256 800 600 r2 = Some r3
    /\ buffer_dims r3 = buffer_dims r1
    /\ Resize 256 800 600 (snd (Paint 256 16 toggled (Init r2))) = Some r4
    /\ buffer_dims r4 = buffer_dims r1
    /\ bd_backbuffer (buffer_dims r1) = (800, 600)
    /\ bd_table (buffer_dims r1) = (1024, 768).
Proof.
  intros toggled.
  destruct (Resize 256 800 600 NewRenderer) as [r1|] eqn:H1; [|discriminate].
  destruct (Resize 256 1920 1080 r1) as [r2|] eqn:H2;
    [|apply Resize_Some in H1; discriminate].
  destruct (Resize 256 800 600 (snd (Paint 256 16 toggled (Init r2)))) as [r4|] eqn:H4;
    [|discriminate].
  destruct (Resize_dims_function_of_size 256 800 600 NewRenderer r1 H1)
    as (Hexplicit & Hany & _ & Hback).
  destruct (Hback 1920 1080 r2 H2) as (r3 & H3 & Hd).
  exists r1, r2, r3, r4.
  split; [reflexivity|]. split; [exact H2|]. split; [exact H3|]. split; [exact Hd|].
  split; [exact H4|]. split; [exact (Hany _ r4 H4)|].
  rewrite Hexplicit. split; reflexivity.
Defined.

(** ** The frame *)

Lemma omap_nil_Forall {A B} (f : A -> option B) (l : list A) :
  Forall (fun a => f a = None) l -> omap f l = [].
Proof.
  induction 1 as [|a l Ha _ IH]; [reflexivity|].
  cbn. rewrite Ha. exact IH.
Qed.

Lemma Paint_calls tile ttile inp r :
  fst (Paint tile ttile inp r)
  = fst (UpdateGUI inp r) ++ [UpdatePrograms]
    ++ frame_calls tile ttile inp (snd (UpdateGUI inp r)).
Proof. unfold Paint. destruct (UpdateGUI inp r). reflexivity. Qed.

Lemma Paint_state tile ttile inp r :
  snd (Paint tile ttile inp r)
  = set_flags false (mUseCPUForSAT (snd (UpdateGUI inp r)))
              (mEnableDoF (snd (UpdateGUI inp r))) (snd (UpdateGUI inp r)).
Proof. unfold Paint. destruct (UpdateGUI inp r). reflexivity. Qed.

Lemma UpdateGUI_dims inp r :
  let r' := snd (UpdateGUI inp r) in
  mBackbufferWidth r' = mBackbufferWidth r
  /\ mBackbufferHeight r' = mBackbufferHeight r
  /\ mWindowWidth r' = mWindowWidth r
  /\ mWindowHeight r' = mWindowHeight r.
Proof. unfold UpdateGUI. cbn. destruct (renderer_window_open inp); cbn; auto. Qed.

Lemma Paint_dims tile ttile inp r :
  let r' := snd (Paint tile ttile inp r) in
  mBackbufferWidth r' = mBackbufferWidth r
  /\ mBackbufferHeight r' = mBackbufferHeight r
  /\ mWindowWidth r' = mWindowWidth r
  /\ mWindowHeight r' = mWindowHeight r.
Proof.
  unfold Paint. pose proof (UpdateGUI_dims inp r) as H.
  destruct (UpdateGUI inp r) as [gui r1]. cbn in *. exact H.
Qed.

Lemma apply_ops_unscaled tile ttile ops :
  forall r r', unscaled r -> apply_ops tile ttile ops r = Some r' -> unscaled r'.
Proof.
  induction ops as [|op ops IH]; intros r r' Hr Hrun.
  - injection Hrun as <-. exact Hr.
  - change (match apply_op tile ttile op r with
            | Some r1 => apply_ops tile ttile ops r1
            | None => None
            end = Some r') in Hrun.
    destruct (apply_op tile ttile op r) as [r1|] eqn:Hop; [|discriminate].
    apply (IH r1 r'); [|exact Hrun].
    destruct op as [w h|inp]; unfold apply_op in Hop.
    + apply Resize_Some in Hop as (_ & _ & ? & ? & ? & ? & _).
      unfold unscaled. split; congruence.
    + assert (Hr1 : snd (Paint tile ttile inp r) = r1) by congruence.
      rewrite <- Hr1.
      destruct (Paint_dims tile ttile inp r) as (? & ? & ? & ?).
      unfold unscaled in *. cbv zeta in *. destruct Hr. split; congruence.
Qed.

Lemma unscaled_not_scaled r : unscaled r -> scaled r = false.
Proof.
  intros [Hw Hh]. unfold scaled. rewrite Hw, Hh, !Z.eqb_refl. reflexivity.
Qed.

Lemma window_blit_filters_app l1 l2 :
  window_blit_filters (l1 ++ l2) = window_blit_filters l1 ++ window_blit_filters l2.
Proof. apply omap_app. Qed.

Lemma tex_sub_image_rows_no_blit w rows :
  window_blit_filters (map (fun row => glTexSubImage2D row w) rows) = [].
Proof. induction rows; [reflexivity|]. cbn. assumption. Qed.

Lemma sat_and_dof_no_window_blit tile ttile inp r :
  window_blit_filters (dof_calls tile ttile inp r) = [].
Proof.
  unfold dof_calls, cpu_sat_calls, gpu_sat_calls, dof_blur_calls.
  rewrite window_blit_filters_app.
  destruct (mUseCPUForSAT r).
  - rewrite !window_blit_filters_app, tex_sub_image_rows_no_blit.
    destruct (program_name inp DepthOfFieldSP =? 0); reflexivity.
  - destruct (program_name inp SummedAreaTableUpsweepSP =? 0),
      (program_name inp SummedAreaTableDownsweepSP =? 0),
      (program_name inp TransposeSummedAreaTableSP =? 0),
      (program_name inp DepthOfFieldSP =? 0); reflexivity.
Qed.

Lemma UpdateGUI_no_window_blit inp r :
  window_blit_filters (fst (UpdateGUI inp r)) = [].
Proof.
  unfold UpdateGUI. cbn [fst].
  destruct (profiling_window_open inp && negb (mFirstFrame r)); [|reflexivity].
  destruct (mUseCPUForSAT r); reflexivity.
Qed.

(** C10.  After a [Resize], and after any further sequence of [Resize] and
    [Paint], the backbuffer has the size of the window: [scaled] is false
    and the blit to the window is issued once, with [GL_NEAREST]. *)
Theorem presentation_blit_is_nearest tile ttile w h r0 r1 ops r inp :
  Resize tile w h r0 = Some r1 ->
  apply_ops tile ttile ops r1 = Some r ->
  mBackbufferWidth r = mWindowWidth r
  /\ mBackbufferHeight r = mWindowHeight r
  /\ scaled (snd (UpdateGUI inp r)) = false
  /\ window_blit_filters (fst (Paint tile ttile inp r)) = [GL_NEAREST].
Proof.
  intros HR Hops.
  assert (Hun : unscaled r).
  { apply (apply_ops_unscaled tile ttile ops r1 r); [|exact Hops].
    apply Resize_Some in HR as (_ & _ & ? & ? & ? & ? & _).
    unfold unscaled. split; congruence. }
  assert (Hun' : unscaled (snd (UpdateGUI inp r))).
  { destruct (UpdateGUI_dims inp r) as (? & ? & ? & ?).
    destruct Hun. unfold unscaled. split; congruence. }
  pose proof (unscaled_not_scaled _ Hun') as Hs.
  destruct Hun as [Hw Hh]. repeat split; try congruence.
  rewrite Paint_calls. unfold frame_calls.
  rewrite !window_blit_filters_app, UpdateGUI_no_window_blit.
  assert (Hdof : window_blit_filters
                   (if mEnableDoF (snd (UpdateGUI inp r))
                    then dof_calls tile ttile inp (snd (UpdateGUI inp r)) else []) = []).
  { destruct (mEnableDoF _); [apply sat_and_dof_no_window_blit|reflexivity]. }
  rewrite Hdof. unfold blit_to_window_calls. rewrite Hs.
  unfold render_scene.
  destruct (program_name inp SceneSP =? 0); reflexivity.
Qed.

Lemma presentation_blit_is_nearest_witness :
  let inp := mkFrameInput true true false false (fun _ => 1) in
  exists r1 r,
    Resize 256 800 600 (Init NewRenderer) = Some r1
    /\ apply_ops 256 16 [OpPaint inp; OpResize 1920 1080; OpPaint inp] r1 = Some r
    /\ scaled (snd (UpdateGUI inp r)) = false
    /\ window_blit_filters (fst (Paint 256 16 inp r)) = [GL_NEAREST].
Proof.
  intros inp.
  destruct (Resize 256 800 600 (Init NewRenderer)) as [r1|] eqn:H1; [|discriminate].
  destruct (apply_ops 256 16 [OpPaint inp; OpResize 1920 1080; OpPaint inp] r1)
    as [r|] eqn:H2.
  - exists r1, r.
    destruct (presentation_blit_is_nearest 256 16 800 600 (Init NewRenderer) r1 _ r inp
                H1 H2) as (_ & _ & Hs & Hb).
    auto.
  - exfalso. injection H1 as <-. discriminate H2.
Defined.

(** *** Program validity *)

Lemma work_programs_tex_rows cur w rows rest :
  work_programs cur (map (fun row => glTexSubImage2D row w) rows ++ rest)
  = work_programs cur rest.
Proof. induction rows; [reflexivity|]. cbn. assumption. Qed.

Lemma work_programs_UpdateGUI cur inp r rest :
  work_programs cur (fst (UpdateGUI inp r) ++ rest) = work_programs cur rest.
Proof.
  unfold UpdateGUI. cbn [fst].
  destruct (profiling_window_open inp && negb (mFirstFrame r)); [|reflexivity].
  destruct (mUseCPUForSAT r); reflexivity.
Qed.

Lemma frame_work_under_valid_program tile ttile inp r :
  Forall (under_valid_program inp) (work_programs None (frame_calls tile ttile inp r)).
Proof.
  unfold frame_calls, dof_calls, render_scene, multisample_resolve, gpu_sat_calls,
    dof_blur_calls, render_gui_calls, blit_to_window_calls.
  destruct (Z.eqb_spec (program_name inp SceneSP) 0) as [Hs|Hs];
  (destruct (mEnableDoF r);
   [ destruct (mUseCPUForSAT r);
     [ unfold cpu_sat_calls;
       generalize (int_range_list 0 (mBackbufferHeight r)); intros rows;
       cbn [app work_programs];
       rewrite <- !app_assoc, work_programs_tex_rows
     | destruct (Z.eqb_spec (program_name inp SummedAreaTableUpsweepSP) 0);
       destruct (Z.eqb_spec (program_name inp SummedAreaTableDownsweepSP) 0);
       destruct (Z.eqb_spec (program_name inp TransposeSummedAreaTableSP) 0) ];
     destruct (Z.eqb_spec (program_name inp DepthOfFieldSP) 0)
   | ]);
  cbn; repeat constructor; assumption.
Qed.

(** C7.  Every dispatch and draw of a frame runs under a program whose name
    is not zero; a stage whose program name is zero issues its two timestamp
    queries and nothing else; and whatever the program names are, the frame
    still resolves the backbuffer, renders the GUI and blits to the window,
    and clears [mFirstFrame]. *)
Theorem stages_check_program_validity tile ttile inp r :
  let r1 := snd (UpdateGUI inp r) in
  Forall (under_valid_program inp) (work_programs None (fst (Paint tile ttile inp r)))
  /\ (program_name inp SceneSP = 0 ->
      render_scene inp r1
      = [glQueryCounter GPUTimestamps.RenderSceneStart;
         glQueryCounter GPUTimestamps.RenderSceneEnd])
  /\ (program_name inp SummedAreaTableUpsweepSP = 0
      \/ program_name inp SummedAreaTableDownsweepSP = 0
      \/ program_name inp TransposeSummedAreaTableSP = 0 ->
      gpu_sat_calls tile ttile inp r1
      = [glQueryCounter GPUTimestamps.ComputeSATStart;
         glQueryCounter GPUTimestamps.ComputeSATEnd])
  /\ (program_name inp DepthOfFieldSP = 0 ->
      dof_blur_calls inp r1
      = [glQueryCounter GPUTimestamps.DOFBlurStart;
         glQueryCounter GPUTimestamps.DOFBlurEnd])
  /\ (exists gui sat_and_dof,
        fst (Paint tile ttile inp r)
        = gui ++ [UpdatePrograms] ++ render_scene inp r1 ++ multisample_resolve r1
          ++ sat_and_dof ++ render_gui_calls ++ blit_to_window_calls r1)
  /\ mFirstFrame (snd (Paint tile ttile inp r)) = false.
Proof.
  intros r1. split; [|split; [|split; [|split; [|split]]]].
  - rewrite Paint_calls, work_programs_UpdateGUI. cbn [app work_programs].
    apply frame_work_under_valid_program.
  - intros H. unfold render_scene. rewrite H. reflexivity.
  - intros H. unfold gpu_sat_calls.
    destruct H as [H|[H|H]]; rewrite H; cbn [Z.eqb negb andb];
      rewrite ?andb_false_r; reflexivity.
  - intros H. unfold dof_blur_calls. rewrite H. reflexivity.
  - rewrite Paint_calls. unfold frame_calls. eauto.
  - unfold Paint. destruct (UpdateGUI inp r). reflexivity.
Qed.

(** *** Timestamps *)

Lemma stamps_tex_rows w rows :
  gpu_stamps_written (map (fun row => glTexSubImage2D row w) rows) = []
  /\ cpu_stamps_written (map (fun row => glTexSubImage2D row w) rows) = [].
Proof. induction rows; [split; reflexivity|]. cbn. assumption. Qed.

(** On a frame with DoF disabled no call of the summed-area-table engine is
    issued, and of the GPU and CPU timestamps only those of the scene, the
    resolve, the GUI and the blit are populated. *)
Lemma dof_disabled_no_sat tile ttile inp r :
  mEnableDoF r = false ->
  forallb (fun c => negb (is_sat_work c)) (frame_calls tile ttile inp r) = true
  /\ gpu_stamps_written (frame_calls tile ttile inp r)
     = [GPUTimestamps.RenderSceneStart; GPUTimestamps.RenderSceneEnd;
        GPUTimestamps.MultisampleResolveStart; GPUTimestamps.MultisampleResolveEnd;
        GPUTimestamps.RenderGUIStart; GPUTimestamps.RenderGUIEnd;
        GPUTimestamps.BlitToWindowStart; GPUTimestamps.BlitToWindowEnd]
  /\ cpu_stamps_written (frame_calls tile ttile inp r) = [].
Proof.
  intros H. unfold frame_calls, render_scene. rewrite H.
  destruct (program_name inp SceneSP =? 0); repeat split; reflexivity.
Qed.

Lemma UpdateGUI_writes_nothing inp r :
  gpu_stamps_written (fst (UpdateGUI inp r)) = []
  /\ cpu_stamps_written (fst (UpdateGUI inp r)) = [].
Proof.
  unfold UpdateGUI. cbn [fst].
  destruct (profiling_window_open inp && negb (mFirstFrame r)); [|split; reflexivity].
  destruct (mUseCPUForSAT r); split; reflexivity.
Qed.

Lemma reads_tex_rows w rows :
  gpu_stamps_read (map (fun row => glTexSubImage2D row w) rows) = []
  /\ cpu_stamps_read (map (fun row => glTexSubImage2D row w) rows) = [].
Proof. induction rows; [split; reflexivity|]. cbn. assumption. Qed.

(** The calls of a frame after [UpdateGUI] read no timestamp. *)
Lemma frame_calls_read_nothing tile ttile inp r :
  gpu_stamps_read (frame_calls tile ttile inp r) = []
  /\ cpu_stamps_read (frame_calls tile ttile inp r) = [].
Proof.
  destruct r as [first bw bh cms dms css dss ww wh sw sh cpu rb tb rows alias rwg cols
                   cwg dof].
  unfold frame_calls, dof_calls, render_scene, multisample_resolve, gpu_sat_calls,
    dof_blur_calls, render_gui_calls, blit_to_window_calls, cpu_sat_calls.
  cbn [mEnableDoF mUseCPUForSAT mBackbufferHeight mBackbufferWidth].
  unfold gpu_stamps_read, cpu_stamps_read.
  destruct (reads_tex_rows bw (int_range_list 0 bh)) as [Hg Hc].
  unfold gpu_stamps_read, cpu_stamps_read in Hg, Hc.
  destruct (program_name inp SceneSP =? 0), dof, cpu,
    (program_name inp SummedAreaTableUpsweepSP =? 0),
    (program_name inp SummedAreaTableDownsweepSP =? 0),
    (program_name inp TransposeSummedAreaTableSP =? 0),
    (program_name inp DepthOfFieldSP =? 0);
    rewrite ?omap_app, ?Hg, ?Hc; split; reflexivity.
Qed.

(** The timestamps a frame with DoF enabled populates, by SAT mode. *)
Lemma dof_enabled_stamps_written tile ttile inp r :
  mEnableDoF r = true ->
  gpu_stamps_written (frame_calls tile ttile inp r)
  = (if mUseCPUForSAT r
     then [GPUTimestamps.RenderSceneStart; GPUTimestamps.RenderSceneEnd;
           GPUTimestamps.MultisampleResolveStart; GPUTimestamps.MultisampleResolveEnd;
           GPUTimestamps.ReadbackBackbufferStart; GPUTimestamps.ReadbackBackbufferEnd;
           GPUTimestamps.SATUploadStart; GPUTimestamps.SATUploadEnd;
           GPUTimestamps.DOFBlurStart; GPUTimestamps.DOFBlurEnd;
           GPUTimestamps.RenderGUIStart; GPUTimestamps.RenderGUIEnd;
           GPUTimestamps.BlitToWindowStart; GPUTimestamps.BlitToWindowEnd]
     else [GPUTimestamps.RenderSceneStart; GPUTimestamps.RenderSceneEnd;
           GPUTimestamps.MultisampleResolveStart; GPUTimestamps.MultisampleResolveEnd;
           GPUTimestamps.ComputeSATStart; GPUTimestamps.ComputeSATEnd;
           GPUTimestamps.DOFBlurStart; GPUTimestamps.DOFBlurEnd;
           GPUTimestamps.RenderGUIStart; GPUTimestamps.RenderGUIEnd;
           GPUTimestamps.BlitToWindowStart; GPUTimestamps.BlitToWindowEnd])
  /\ cpu_stamps_written (frame_calls tile ttile inp r)
     = (if mUseCPUForSAT r
        then [CPUTimestamps.ReadbackBackbufferStart; CPUTimestamps.ReadbackBackbufferEnd;
              CPUTimestamps.ComputeSATStart; CPUTimestamps.ComputeSATEnd;
              CPUTimestamps.SATUploadStart; CPUTimestamps.SATUploadEnd]
        else []).
Proof.
  destruct r as [first bw bh cms dms css dss ww wh sw sh cpu rb tb rows alias rwg cols
                   cwg dof].
  cbn [mEnableDoF mUseCPUForSAT]. intros ->.
  unfold frame_calls, dof_calls, render_scene, multisample_resolve, gpu_sat_calls,
    dof_blur_calls, render_gui_calls, blit_to_window_calls, cpu_sat_calls.
  cbn [mEnableDoF mUseCPUForSAT mBackbufferHeight mBackbufferWidth].
  unfold gpu_stamps_written, cpu_stamps_written.
  destruct (stamps_tex_rows bw (int_range_list 0 bh)) as [Hg Hc].
  unfold gpu_stamps_written, cpu_stamps_written in Hg, Hc.
  destruct (program_name inp SceneSP =? 0), cpu,
    (program_name inp SummedAreaTableUpsweepSP =? 0),
    (program_name inp SummedAreaTableDownsweepSP =? 0),
    (program_name inp TransposeSummedAreaTableSP =? 0),
    (program_name inp DepthOfFieldSP =? 0);
    rewrite ?omap_app, ?Hg, ?Hc; split; reflexivity.
Qed.

(** After a frame painted with DoF enabled, the profiling window of the next
    frame reads only timestamps that frame populated: the pairs of the SAT
    mode that was not used are skipped. *)
Lemma profiling_reads_populated_pairs tile ttile inp1 inp2 r :
  let frame1 := Paint tile ttile inp1 r in
  let frame2 := Paint tile ttile inp2 (snd frame1) in
  mEnableDoF (snd frame1) = true ->
  (forall q, In q (gpu_stamps_read (fst frame2)) -> In q (gpu_stamps_written (fst frame1)))
  /\ (forall q, In q (cpu_stamps_read (fst frame2)) ->
       In q (cpu_stamps_written (fst frame1))).
Proof.
  intros frame1 frame2. unfold frame2, frame1. rewrite !Paint_calls, !Paint_state.
  set (r1 := snd (UpdateGUI inp1 r)).
  cbn [mEnableDoF set_flags]. intros Hdof.
  destruct (UpdateGUI_writes_nothing inp1 r) as [Hgw Hcw].
  destruct (dof_enabled_stamps_written tile ttile inp1 r1 Hdof) as [Hg1 Hc1].
  destruct (frame_calls_read_nothing tile ttile inp2
              (snd (UpdateGUI inp2 (set_flags false (mUseCPUForSAT r1) (mEnableDoF r1) r1))))
    as [Hg2 Hc2].
  unfold gpu_stamps_written, gpu_stamps_read, cpu_stamps_written, cpu_stamps_read in *.
  rewrite !omap_app, Hg2, Hc2, Hg1, Hc1, Hgw, Hcw.
  unfold UpdateGUI. cbn [fst mFirstFrame mUseCPUForSAT set_flags negb].
  rewrite andb_true_r.
  destruct (profiling_window_open inp2), (mUseCPUForSAT r1);
    split; intros q Hq; vm_compute in Hq |- *; tauto.
Qed.

(** C6.  A frame painted with DoF disabled populates neither the ComputeSAT
    nor the DOFBlur pair, and the profiling window of the next frame reads
    both (in GPU mode; the queries were never issued before). *)
Theorem profiling_reads_unpopulated_pairs :
  let off := mkFrameInput true true true false (fun _ => 1) in
  let same := mkFrameInput true true false false (fun _ => 1) in
  match Resize 256 800 600 (Init NewRenderer) with
  | Some r0 =>
      let frame1 := Paint 256 16 off r0 in
      let frame2 := Paint 256 16 same (snd frame1) in
      mEnableDoF (snd frame1) = false
      /\ gpu_stamps_written (fst frame1)
         = [GPUTimestamps.RenderSceneStart; GPUTimestamps.RenderSceneEnd;
            GPUTimestamps.MultisampleResolveStart; GPUTimestamps.MultisampleResolveEnd;
            GPUTimestamps.RenderGUIStart; GPUTimestamps.RenderGUIEnd;
            GPUTimestamps.BlitToWindowStart; GPUTimestamps.BlitToWindowEnd]
      /\ gpu_stamps_read (fst frame1) = []
      /\ In GPUTimestamps.ComputeSATStart (gpu_stamps_read (fst frame2))
      /\ In GPUTimestamps.ComputeSATEnd (gpu_stamps_read (fst frame2))
      /\ In GPUTimestamps.DOFBlurStart (gpu_stamps_read (fst frame2))
      /\ In GPUTimestamps.DOFBlurEnd (gpu_stamps_read (fst frame2))
  | None => False
  end.
Proof.
  cbv zeta. vm_compute. repeat split; auto 20.
Qed.

(** *** Barriers *)

Lemma visibility_run_tex_rows strict v w rows rest :
  visibility_run strict v (map (fun row => glTexSubImage2D row w) rows ++ rest)
  = visibility_run strict v rest.
Proof. induction rows; [reflexivity|]. cbn. assumption. Qed.

Lemma visibility_run_UpdateGUI strict v inp r rest :
  visibility_run strict v (fst (UpdateGUI inp r) ++ rest)
  = visibility_run strict v rest.
Proof.
  unfold UpdateGUI. cbn [fst].
  destruct (profiling_window_open inp && negb (mFirstFrame r)); [|reflexivity].
  destruct (mUseCPUForSAT r); reflexivity.
Qed.

Lemma frame_visible_and_unbound tile ttile inp r stale_i stale_f :
  match visibility_run false (unbound stale_i stale_f) (frame_calls tile ttile inp r) with
  | Some v => no_bindings v = true
  | None => False
  end.
Proof.
  destruct r as [first bw bh cms dms css dss ww wh sw sh cpu rb tb rows alias rwg cols
                   cwg dof].
  unfold frame_calls, dof_calls, render_scene, multisample_resolve, gpu_sat_calls,
    dof_blur_calls, render_gui_calls, blit_to_window_calls.
  cbn [mEnableDoF mUseCPUForSAT].
  destruct (program_name inp SceneSP =? 0);
  (destruct dof;
   [ destruct cpu;
     [ unfold cpu_sat_calls; cbn [mBackbufferHeight mBackbufferWidth];
       generalize (int_range_list 0 bh); intros texrows;
       cbn [app visibility_run visibility_step];
       rewrite <- !app_assoc, visibility_run_tex_rows
     | destruct (program_name inp SummedAreaTableUpsweepSP =? 0);
       destruct (program_name inp SummedAreaTableDownsweepSP =? 0);
       destruct (program_name inp TransposeSummedAreaTableSP =? 0) ];
     destruct (program_name inp DepthOfFieldSP =? 0);
     destruct alias as [[]|]
   | ]);
  vm_compute; reflexivity.
Qed.

(** C5, as the code has it.  In every frame, each dispatch and draw that
    fetches or loads from a texture written by an earlier shader step comes
    after a [glMemoryBarrier] issued since that write whose bits cover the
    kind of access of the read (the texture-fetch bit before a fetch through
    a texture unit, the image-access bit before a load through an image
    unit); and the frame leaves no texture or image unit bound.  This holds
    whatever the earlier frames left to be made visible. *)
Theorem frame_reads_behind_matching_barrier tile ttile inp r stale_i stale_f :
  exists v,
    visibility_run false (unbound stale_i stale_f) (fst (Paint tile ttile inp r)) = Some v
    /\ no_bindings v = true.
Proof.
  rewrite Paint_calls, visibility_run_UpdateGUI. cbn [app visibility_run visibility_step].
  pose proof (frame_visible_and_unbound tile ttile inp (snd (UpdateGUI inp r))
                stale_i stale_f) as H.
  destruct (visibility_run false (unbound stale_i stale_f)
              (frame_calls tile ttile inp (snd (UpdateGUI inp r)))) as [v|];
    [eauto | contradiction].
Qed.

(** C5, as stated, fails.  With every program ready, DoF enabled and the GPU
    path selected, the barriers of a frame are, in each axis pass: both bits
    in front of the up-sweep and of the up-sweep of the partial sums, the
    image-access bit alone in front of the down-sweep of the partial sums,
    of the down-sweep and of the transpose; and the texture-fetch bit alone
    in front of the DoF draw.  Counting only barriers with both bits, the
    down-sweep of the partial sums of the row pass already reads what the
    step before it wrote. *)
Lemma frame_barriers_not_all_full :
  let inp := mkFrameInput true true false false (fun _ => 1) in
  let both := Z.lor GL_SHADER_IMAGE_ACCESS_BARRIER_BIT GL_TEXTURE_FETCH_BARRIER_BIT in
  let image := GL_SHADER_IMAGE_ACCESS_BARRIER_BIT in
  let fetch := GL_TEXTURE_FETCH_BARRIER_BIT in
  match Resize 256 800 600 (Init NewRenderer) with
  | Some r0 =>
      visibility_run true (unbound (fun _ => false) (fun _ => false))
                     (fst (Paint 256 16 inp r0)) = None
      /\ barriers (fst (Paint 256 16 inp r0))
         = [both; both; image; image; image; both; both; image; image; image; fetch]
      /\ full_barrier both = true
      /\ full_barrier image = false
      /\ full_barrier fetch = false
  | None => False
  end.
Proof.
  cbv zeta. vm_compute. repeat split; reflexivity.
Qed.

(** The barriers are needed: the same frame with its barriers taken out has
    a step that reads what may not be visible yet. *)
Lemma frame_without_barriers_is_refused :
  let inp := mkFrameInput true true false false (fun _ => 1) in
  match Resize 256 800 600 (Init NewRenderer) with
  | Some r0 =>
      visibility_run false (unbound (fun _ => false) (fun _ => false))
        (List.filter (fun c => negb (is_barrier c)) (fst (Paint 256 16 inp r0))) = None
  | None => False
  end.
Proof. vm_compute. reflexivity. Qed.

(** ** Sums of accumulators *)

Lemma wrap_uint_add a b : wrap_uint (wrap_uint a + wrap_uint b) = wrap_uint (a + b).
Proof. unfold wrap_uint. rewrite <- Z.add_mod by lia. reflexivity. Qed.

Lemma wrap_uint_range a : uint_range a -> wrap_uint a = a.
Proof. unfold uint_range, wrap_uint. intros H. apply Z.mod_small. exact H. Qed.

Lemma uvec4_add_wrapv a b : uvec4_add (wrapv a) (wrapv b) = wrapv (vadd a b).
Proof. unfold uvec4_add, wrapv, vadd. cbn. rewrite !wrap_uint_add. reflexivity. Qed.

Lemma wrapv_range a : uvec4_range a -> wrapv a = a.
Proof.
  destruct a as [x y z w]. unfold uvec4_range, wrapv. cbn. intros (Hx & Hy & Hz & Hw).
  rewrite !wrap_uint_range by assumption. reflexivity.
Qed.

Lemma wrapv_zero : wrapv uvec4_zero = uvec4_zero.
Proof. reflexivity. Qed.

Lemma vadd_comm a b : vadd a b = vadd b a.
Proof. unfold vadd. f_equal; lia. Qed.

Lemma vadd_assoc a b c : vadd a (vadd b c) = vadd (vadd a b) c.
Proof. unfold vadd. cbn. f_equal; lia. Qed.

Lemma vadd_zero_l a : vadd uvec4_zero a = a.
Proof. destruct a. reflexivity. Qed.

Lemma vadd_zero_r a : vadd a uvec4_zero = a.
Proof. destruct a. unfold vadd. cbn. f_equal; lia. Qed.

Lemma vsum_ext f g lo n :
  (forall k, (lo <= k < lo + n)%nat -> f k = g k) -> vsum f lo n = vsum g lo n.
Proof.
  induction n as [|n IH]; intros H; [reflexivity|].
  cbn. rewrite IH by (intros; apply H; lia). rewrite H by lia. reflexivity.
Qed.

Lemma vsum_app f lo n m :
  vsum f lo (n + m) = vadd (vsum f lo n) (vsum f (lo + n) m).
Proof.
  induction m as [|m IH].
  - rewrite Nat.add_0_r. cbn. rewrite vadd_zero_r. reflexivity.
  - rewrite Nat.add_succ_r. cbn. rewrite IH, vadd_assoc, Nat.add_assoc. reflexivity.
Qed.

(** Summing the totals of [n] consecutive tiles of size [t]. *)
Lemma vsum_tiles f t n :
  vsum (fun j => vsum f (j * t) t) 0 n = vsum f 0 (n * t).
Proof.
  induction n as [|n IH]; [reflexivity|].
  cbn [vsum]. rewrite IH. cbn [Nat.add].
  replace (S n * t)%nat with (n * t + t)%nat by lia.
  rewrite vsum_app. reflexivity.
Qed.

(** ** The CPU table *)

Lemma fold_left_seq_inv {A} (P : nat -> A -> Prop) (f : A -> nat -> A) lo n a :
  P lo a ->
  (forall i s, (lo <= i < lo + n)%nat -> P i s -> P (S i) (f s i)) ->
  P (lo + n)%nat (fold_left f (seq lo n) a).
Proof.
  revert lo a. induction n as [|n IH]; intros lo a H0 Hstep.
  - rewrite Nat.add_0_r. exact H0.
  - cbn. replace (lo + S n)%nat with (S lo + n)%nat by lia.
    apply IH.
    + apply Hstep; [lia | exact H0].
    + intros i s Hi. apply Hstep. lia.
Qed.

Lemma index_inj Wp r c r' c' :
  (c < Wp)%nat -> (c' < Wp)%nat ->
  (r * Wp + c = r' * Wp + c')%nat -> r = r' /\ c = c'.
Proof.
  intros Hc Hc' H.
  assert (r = r') as ->.
  { destruct (Nat.lt_trichotomy r r') as [Hlt|[Heq|Hgt]]; [|exact Heq|]; nia. }
  split; [reflexivity | lia].
Qed.

Lemma index_lt Wp Hp r c :
  (r < Hp)%nat -> (c < Wp)%nat -> (r * Wp + c < Wp * Hp)%nat.
Proof. nia. Qed.

Lemma cell_insert_eq Wp (table : list uvec4) r c v :
  (r * Wp + c < length table)%nat -> cell Wp (<[(r * Wp + c)%nat := v]> table) r c = v.
Proof. intros H. unfold cell. apply list_lookup_total_insert_eq. exact H. Qed.

Lemma cell_insert_ne Wp (table : list uvec4) r c r' c' v :
  (c < Wp)%nat -> (c' < Wp)%nat -> (r, c) <> (r', c') ->
  cell Wp (<[(r * Wp + c)%nat := v]> table) r' c' = cell Wp table r' c'.
Proof.
  intros Hc Hc' Hne. unfold cell. apply list_lookup_total_insert_ne.
  intros Heq. apply index_inj in Heq as [-> ->]; [|assumption..]. congruence.
Qed.

Section CPUTable.

Variable gamma : Z -> Z.

Local Open Scope nat_scope.

Variables W H Wp Hp : nat.
Variable readback : list u8vec4.

Hypothesis W_le : W <= Wp.
Hypothesis H_le : H <= Hp.

(** The decoded pixels are [unsigned] values. *)
Hypothesis decoded_range :
  forall x y, x < W -> y < H -> uvec4_range (decoded_pixel gamma W readback x y).

Abbreviation d := (decoded_pixel gamma W readback).

Lemma row_prefix_S (f : nat -> nat -> uvec4) r c :
  row_prefix f r (S c) = vadd (row_prefix f r c) (f (S c) r).
Proof. reflexivity. Qed.

Lemma cpu_sum_rows_inner table0 n table :
  length table0 = Wp * Hp -> n < H ->
  rows_done gamma W Wp readback table0 n table ->
  rows_done gamma W Wp readback table0 (S n)
    (fold_left
       (fun table col =>
          let readback := uvec4_of_u8vec4 (readback !!! (n * W + col)) in
          let readback := decode gamma readback in
          <[n * Wp + col :=
              uvec4_add readback (table !!! (n * Wp + (col - 1)))]> table)
       (seq 1 (W - 1))
       (<[n * Wp + 0 := decode gamma (uvec4_of_u8vec4 (readback !!! (n * W + 0)))]>
          table)).
Proof.
  intros Hlen Hn [Hl Hdone].
  set (Q := fun (m : nat) (t : list uvec4) =>
              length t = length table0
              /\ (forall r c, r < n -> c < W -> cell Wp t r c = wrapv (row_prefix d r c))
              /\ (forall c, c < m -> c < W -> cell Wp t n c = wrapv (row_prefix d n c))).
  assert (HQ : Q (1 + (W - 1)) (fold_left
       (fun table col =>
          let readback := uvec4_of_u8vec4 (readback !!! (n * W + col)) in
          let readback := decode gamma readback in
          <[n * Wp + col :=
              uvec4_add readback (table !!! (n * Wp + (col - 1)))]> table)
       (seq 1 (W - 1))
       (<[n * Wp + 0 := decode gamma (uvec4_of_u8vec4 (readback !!! (n * W + 0)))]>
          table))).
  { apply (fold_left_seq_inv Q).
    - unfold Q. rewrite length_insert. split; [exact Hl|]. split.
      + intros r c Hr Hc. rewrite cell_insert_ne; [auto | lia | lia |].
        intros Heq. injection Heq as -> _. lia.
      + intros c Hc1 Hc. assert (c = 0) as -> by lia.
        rewrite cell_insert_eq.
        * change (d 0 n = wrapv (row_prefix d n 0)).
          unfold row_prefix. cbn [vsum Nat.add]. rewrite vadd_zero_l.
          symmetry. apply wrapv_range. apply decoded_range; lia.
        * rewrite Hl, Hlen. apply index_lt; lia.
    - intros i t Hi (Hlt & Hprev & Hcur). unfold Q. cbv zeta.
      rewrite length_insert. split; [exact Hlt|]. split.
      + intros r c Hr Hc. rewrite cell_insert_ne; [auto | lia | lia |].
        intros Heq. injection Heq as -> _. lia.
      + intros c Hc1 Hc. destruct (Nat.eq_dec c i) as [->|Hne].
        * rewrite cell_insert_eq by (rewrite Hlt, Hlen; apply index_lt; lia).
          change (t !!! (n * Wp + (i - 1))) with (cell Wp t n (i - 1)).
          rewrite Hcur by lia.
          change (decode gamma (uvec4_of_u8vec4 (readback !!! (n * W + i))))
            with (d i n).
          rewrite <- (wrapv_range (d i n)) by (apply decoded_range; lia).
          rewrite uvec4_add_wrapv. f_equal.
          replace i with (S (i - 1)) at 1 3 by lia.
          rewrite row_prefix_S. apply vadd_comm.
        * rewrite cell_insert_ne; [apply Hcur; lia | lia | lia |].
          intros Heq. injection Heq as ->. lia. }
  destruct HQ as (Hlt & Hprev & Hcur). split; [exact Hlt|].
  intros r c Hr Hc. destruct (Nat.eq_dec r n) as [->|Hne].
  - apply Hcur; lia.
  - apply Hprev; lia.
Qed.

(** "sum the rows": every cell of the image region holds the prefix sum of
    its row, reduced modulo [2^32]. *)
Lemma cpu_sum_rows_spec table :
  length table = Wp * Hp ->
  rows_done gamma W Wp readback table H (cpu_sum_rows gamma W H Wp readback table).
Proof.
  intros Hlen. unfold cpu_sum_rows.
  apply (fold_left_seq_inv (rows_done gamma W Wp readback table) _ 0 H).
  - split; [reflexivity|]. intros r c Hr. lia.
  - intros n t Hn Hdone. cbv zeta. apply cpu_sum_rows_inner; [exact Hlen | lia | exact Hdone].
Qed.

Lemma sat_value_S (f : nat -> nat -> uvec4) r c :
  sat_value f (S r) c = vadd (sat_value f r c) (row_prefix f (S r) c).
Proof. reflexivity. Qed.

Lemma sat_value_0 (f : nat -> nat -> uvec4) c : sat_value f 0 c = row_prefix f 0 c.
Proof. unfold sat_value. cbn [vsum Nat.add]. apply vadd_zero_l. Qed.

Lemma cpu_sum_cols_inner table0 n table :
  length table0 = Wp * Hp -> n < W ->
  cols_done gamma W H Wp readback table0 n table ->
  cols_done gamma W H Wp readback table0 (S n)
    (fold_left
       (fun table row =>
          <[row * Wp + n :=
              uvec4_add (table !!! (row * Wp + n))
                        (table !!! ((row - 1) * Wp + n))]> table)
       (seq 1 (H - 1)) table).
Proof.
  intros Hlen Hn (Hl & Hsat & Hrow).
  set (Q := fun (m : nat) (t : list uvec4) =>
              length t = length table0
              /\ (forall r c, r < H -> c < W -> c <> n -> cell Wp t r c = cell Wp table r c)
              /\ (forall r, r < m -> r < H -> cell Wp t r n = wrapv (sat_value d r n))
              /\ (forall r, m <= r -> r < H -> cell Wp t r n = wrapv (row_prefix d r n))).
  assert (HQ : Q (1 + (H - 1)) (fold_left
       (fun table row =>
          <[row * Wp + n :=
              uvec4_add (table !!! (row * Wp + n))
                        (table !!! ((row - 1) * Wp + n))]> table)
       (seq 1 (H - 1)) table)).
  { apply (fold_left_seq_inv Q).
    - unfold Q. split; [exact Hl|]. split; [reflexivity|]. split.
      + intros r Hr1 Hr. assert (r = 0) as -> by lia.
        rewrite sat_value_0. apply Hrow; lia.
      + intros r _ Hr. apply Hrow; lia.
    - intros i t Hi (Hlt & Hother & Hdone & Htodo). unfold Q.
      rewrite length_insert. split; [exact Hlt|]. split; [|split].
      + intros r c Hr Hc Hne. rewrite cell_insert_ne; [auto | lia | lia |].
        intros Heq. injection Heq as _ ->. congruence.
      + intros r Hr1 Hr. destruct (Nat.eq_dec r i) as [->|Hne].
        * rewrite cell_insert_eq by (rewrite Hlt, Hlen; apply index_lt; lia).
          change (t !!! (i * Wp + n)) with (cell Wp t i n).
          change (t !!! ((i - 1) * Wp + n)) with (cell Wp t (i - 1) n).
          rewrite Htodo, Hdone by lia.
          rewrite uvec4_add_wrapv. f_equal.
          replace i with (S (i - 1)) at 1 3 by lia.
          rewrite sat_value_S. replace (S (i - 1) - 1) with (i - 1) by lia.
          apply vadd_comm.
        * rewrite cell_insert_ne; [apply Hdone; lia | lia | lia |].
          intros Heq. injection Heq as -> . congruence.
      + intros r Hr1 Hr. rewrite cell_insert_ne; [apply Htodo; lia | lia | lia |].
        intros Heq. injection Heq as ->. lia. }
  destruct HQ as (Hlt & Hother & Hdone & _). split; [exact Hlt|]. split.
  - intros r c Hr Hc Hcn. destruct (Nat.eq_dec c n) as [->|Hne].
    + apply Hdone; lia.
    + rewrite Hother by assumption. apply Hsat; lia.
  - intros r c Hr Hc Hcn. rewrite Hother by lia. apply Hrow; lia.
Qed.

(** "sum the columns", after the rows: every cell of the image region holds
    the sum of the decoded pixels above and to the left of it, itself
    included, reduced modulo [2^32]. *)
Lemma cpu_sat_spec table :
  length table = Wp * Hp ->
  length (cpu_sat gamma W H Wp readback table) = length table
  /\ forall r c, r < H -> c < W ->
       cell Wp (cpu_sat gamma W H Wp readback table) r c = wrapv (sat_value d r c).
Proof.
  intros Hlen. unfold cpu_sat.
  destruct (cpu_sum_rows_spec table Hlen) as [Hl Hrows].
  set (t1 := cpu_sum_rows gamma W H Wp readback table) in *.
  assert (Hc : cols_done gamma W H Wp readback t1 W (cpu_sum_cols W H Wp t1)).
  { unfold cpu_sum_cols.
    apply (fold_left_seq_inv (cols_done gamma W H Wp readback t1) _ 0 W).
    - split; [reflexivity|]. split; [intros; lia|]. intros r c Hr Hcw _.
      apply Hrows; assumption.
    - intros n t Hn Hdone. apply cpu_sum_cols_inner; [congruence | lia | exact Hdone]. }
  destruct Hc as (Hl2 & Hsat & _). split; [congruence|].
  intros r c Hr Hcw. apply Hsat; assumption.
Qed.

End CPUTable.

(** ** The scan kernels *)

Lemma imageLoad_store_region cov val t x y :
  imageLoad (store_region cov val t) x y
  = if in_bounds t x y then (if cov x y then val x y else texel t x y)
    else uvec4_zero.
Proof.
  unfold imageLoad, store_region, in_bounds. cbn [tex_width tex_height texel].
  destruct (x <? tex_width t)%nat, (y <? tex_height t)%nat, (cov x y); reflexivity.
Qed.

Lemma in_bounds_true t x y :
  (x < tex_width t)%nat -> (y < tex_height t)%nat -> in_bounds t x y = true.
Proof.
  intros Hx Hy. unfold in_bounds.
  apply andb_true_intro. split; apply Nat.ltb_lt; assumption.
Qed.

Section ScanKernels.

Local Open Scope nat_scope.

Variable TILE : nat.
Hypothesis TILE_pos : 0 < TILE.

Lemma tile_prefix_wrapv f F base i :
  (forall j, j <= i -> f (base + j) = wrapv (F (base + j))) ->
  tile_prefix f base i = wrapv (vsum F base (S i)).
Proof.
  induction i as [|i IH]; intros Hf.
  - cbn. rewrite vadd_zero_l. specialize (Hf 0 (Nat.le_refl 0)).
    rewrite Nat.add_0_r in Hf. rewrite Nat.add_0_r. exact Hf.
  - cbn [tile_prefix]. rewrite IH by (intros; apply Hf; lia).
    rewrite Hf by lia. rewrite uvec4_add_wrapv. reflexivity.
Qed.

Lemma last_of_tile p : ((p + 1) * TILE - 1) / TILE = p /\ ((p + 1) * TILE - 1) mod TILE = TILE - 1.
Proof.
  assert (H : (p + 1) * TILE - 1 = TILE * p + (TILE - 1)) by nia.
  rewrite H. split.
  - symmetry. apply (Nat.div_unique _ _ _ (TILE - 1)); lia.
  - symmetry. apply (Nat.mod_unique _ _ p); lia.
Qed.

(** One axis of the scan.  [E x y] is the mathematical value of element [x]
    of row [y]; the kernel input agrees with it on the [Wv] valid elements of
    each of the [ny] rows; the table is [nx] tiles wide, and the totals of
    the [nx] tiles fit one tile. *)
Lemma axis_pass_spec (input E : nat -> nat -> uvec4) nx ny table wgsums Wv :
  Wv <= tex_width table -> ny <= tex_height table ->
  tex_width wgsums = nx -> ny <= tex_height wgsums ->
  nx <= TILE -> Wv <= nx * TILE ->
  (forall x y, x < Wv -> y < ny -> input x y = wrapv (E x y)) ->
  forall x y, x < Wv -> y < ny ->
    imageLoad (fst (axis_pass TILE input nx ny table wgsums)) x y
    = wrapv (vsum (fun p => E p y) 0 (S x)).
Proof.
  intros Hw Hh Hwg Hhg Hnx Hcover Hin.
  unfold axis_pass. cbv zeta. cbn [fst].
  set (t1 := upsweep_kernel TILE input nx ny table).
  set (w1 := upsweep_kernel TILE (fun p y => imageLoad t1 ((p + 1) * TILE - 1) y) 1 ny wgsums).
  set (w2 := downsweep_exclusive_kernel TILE 1 ny w1).
  assert (Fact1 : forall x y, x < Wv -> y < ny ->
            imageLoad t1 x y
            = wrapv (vsum (fun p => E p y) (x / TILE * TILE) (S (x mod TILE)))).
  { intros x y Hx Hy. unfold t1, upsweep_kernel.
    rewrite imageLoad_store_region, in_bounds_true by lia.
    assert (Hc : (x <? nx * TILE) && (y <? ny) = true).
    { apply andb_true_intro. split; apply Nat.ltb_lt; lia. }
    rewrite Hc. apply tile_prefix_wrapv.
    intros j Hj. apply Hin; [|exact Hy].
    pose proof (Nat.div_mod_eq x TILE). nia. }
  assert (Fact2 : forall p y, (p + 1) * TILE <= Wv -> y < ny ->
            imageLoad t1 ((p + 1) * TILE - 1) y
            = wrapv (vsum (fun q => E q y) (p * TILE) TILE)).
  { intros p y Hp Hy. rewrite Fact1 by (try assumption; nia).
    destruct (last_of_tile p) as [-> ->].
    replace (S (TILE - 1)) with TILE by lia. reflexivity. }
  assert (Fact3 : forall i y, (i + 1) * TILE <= Wv -> y < ny ->
            imageLoad w1 i y = wrapv (vsum (fun q => E q y) 0 ((i + 1) * TILE))).
  { intros i y Hi Hy.
    assert (Hi_nx : i < nx) by nia.
    unfold w1, upsweep_kernel.
    rewrite imageLoad_store_region, in_bounds_true by lia.
    assert (Hc : (i <? 1 * TILE) && (y <? ny) = true).
    { apply andb_true_intro. split; apply Nat.ltb_lt; lia. }
    rewrite Hc, Nat.div_small, Nat.mod_small by lia. cbn [Nat.mul].
    rewrite (tile_prefix_wrapv _ (fun j => vsum (fun q => E q y) (j * TILE) TILE)).
    - rewrite vsum_tiles. f_equal. f_equal. lia.
    - intros j Hj. cbn [Nat.add]. apply Fact2; [nia | exact Hy]. }
  assert (Fact4 : forall g y, g * TILE < Wv -> y < ny ->
            imageLoad w2 g y = wrapv (vsum (fun q => E q y) 0 (g * TILE))).
  { intros g y Hg Hy.
    assert (Hg_nx : g < nx) by nia.
    unfold w2, downsweep_exclusive_kernel.
    rewrite imageLoad_store_region.
    assert (Hb : in_bounds w1 g y = true).
    { apply in_bounds_true; unfold w1, upsweep_kernel, store_region; cbn; lia. }
    assert (Hc : (g <? 1 * TILE) && (y <? ny) = true).
    { apply andb_true_intro. split; apply Nat.ltb_lt; lia. }
    rewrite Hb, Hc, Nat.mod_small by lia.
    destruct g as [|g]; [reflexivity|].
    cbn [Nat.eqb]. replace (S g - 1) with g by lia.
    rewrite Fact3 by (try assumption; lia). f_equal. f_equal. lia. }
  intros x y Hx Hy. unfold downsweep_add_kernel.
  rewrite imageLoad_store_region.
  assert (Hb : in_bounds t1 x y = true).
  { apply in_bounds_true; unfold t1, upsweep_kernel, store_region; cbn; lia. }
  assert (Hc : (x <? nx * TILE) && (y <? ny) = true).
  { apply andb_true_intro. split; apply Nat.ltb_lt; lia. }
  rewrite Hb, Hc.
  pose proof (Nat.div_mod_eq x TILE) as Hdm.
  rewrite Fact1, Fact4 by (try assumption; nia).
  rewrite uvec4_add_wrapv, vadd_comm, <- vsum_app. f_equal. f_equal. cbn [Nat.add]. lia.
Qed.

End ScanKernels.

(** ** The GPU path, run *)

Section GPURun.

Variable gamma : Z -> Z.
Variables tile ttile : Z.

Abbreviation TILE := (Z.to_nat tile).
Abbreviation TTILE := (Z.to_nat ttile).

(** The row pass leaves in [SummedRowsTO] the result of the four scan steps
    on the decoded colour target. *)
Lemma Paint_gpu_rows_textures r st :
  textures (Paint_gpu_rows gamma tile ttile r st) SummedRowsTO
  = fst (axis_pass TILE
           (fun x y => decode gamma (imageLoad (textures st BackbufferColorTOSS) x y))
           (Z.to_nat (Z.quot (mSummedAreaTableWidth r) tile))
           (Z.to_nat (mBackbufferHeight r))
           (textures st SummedRowsTO) (textures st SummedRowsWGSumsTO)).
Proof. reflexivity. Qed.

(** With the three programs ready the whole GPU path leaves in
    [SummedRowsTO] (the table [mSummedAreaTableTO] points to) the row scan,
    transposed, scanned again and transposed back. *)
Lemma Paint_gpu_sat_textures inp r st :
  program_name inp SummedAreaTableUpsweepSP <> 0%Z ->
  program_name inp SummedAreaTableDownsweepSP <> 0%Z ->
  program_name inp TransposeSummedAreaTableSP <> 0%Z ->
  mSummedAreaTableTO r = Some SummedRowsTO ->
  textures (Paint_gpu_sat gamma tile ttile inp r st) SummedRowsTO
  = let rows :=
      fst (axis_pass TILE
             (fun x y => decode gamma (imageLoad (textures st BackbufferColorTOSS) x y))
             (Z.to_nat (Z.quot (mSummedAreaTableWidth r) tile))
             (Z.to_nat (mBackbufferHeight r))
             (textures st SummedRowsTO) (textures st SummedRowsWGSumsTO)) in
    let cols1 :=
      transpose_kernel TTILE rows
        (Z.to_nat (Z.quot (mSummedAreaTableWidth r) ttile))
        (Z.to_nat (Z.quot (mSummedAreaTableHeight r) ttile))
        (textures st SummedColsTO) in
    let cols :=
      fst (axis_pass TILE (imageLoad cols1)
             (Z.to_nat (Z.quot (mSummedAreaTableHeight r) tile))
             (Z.to_nat (mBackbufferWidth r))
             cols1 (textures st SummedColsWGSumsTO)) in
    transpose_kernel TTILE cols
      (Z.to_nat (Z.quot (mSummedAreaTableHeight r) ttile))
      (Z.to_nat (Z.quot (mSummedAreaTableWidth r) ttile))
      rows.
Proof.
  intros Hup Hdown Htr Halias.
  unfold Paint_gpu_sat, gpu_sat_calls.
  apply Z.eqb_neq in Hup, Hdown, Htr. rewrite Hup, Hdown, Htr.
  destruct r. cbn in Halias. subst. reflexivity.
Qed.

End GPURun.

Section GPUTable.

Local Open Scope nat_scope.

Variable gamma : Z -> Z.
Variables TILE TTILE : nat.
Variables W H Wp Hp nxw nxh tw th : nat.
Variables color rows0 roww0 cols0 colw0 : Texture.

Hypothesis TILE_pos : 0 < TILE.
Hypothesis W_le : W <= Wp.
Hypothesis H_le : H <= Hp.
Hypothesis Wp_tiles : Wp = nxw * TILE.
Hypothesis Hp_tiles : Hp = nxh * TILE.
Hypothesis Wp_single_tier : nxw <= TILE.
Hypothesis Hp_single_tier : nxh <= TILE.
Hypothesis Wp_transpose : Wp = tw * TTILE.
Hypothesis Hp_transpose : Hp = th * TTILE.
Hypothesis rows0_size : tex_width rows0 = Wp /\ tex_height rows0 = Hp.
Hypothesis roww0_size : tex_width roww0 = nxw /\ tex_height roww0 = Hp.
Hypothesis cols0_size : tex_width cols0 = Hp /\ tex_height cols0 = Wp.
Hypothesis colw0_size : tex_width colw0 = nxh /\ tex_height colw0 = Wp.

Abbreviation px := (fun x y => decode gamma (imageLoad color x y)).

Hypothesis decoded_range : forall x y, x < W -> y < H -> uvec4_range (px x y).

Lemma gpu_rows_spec x y :
  x < W -> y < H ->
  imageLoad (fst (axis_pass TILE px nxw H rows0 roww0)) x y
  = wrapv (row_prefix px y x).
Proof.
  intros Hx Hy. destruct rows0_size, roww0_size.
  apply (axis_pass_spec TILE TILE_pos px px nxw H rows0 roww0 W); try lia.
  intros x' y' Hx' Hy'. symmetry. apply wrapv_range. apply decoded_range; assumption.
Qed.

Lemma gpu_sat_spec x y :
  x < W -> y < H ->
  let rows := fst (axis_pass TILE px nxw H rows0 roww0) in
  let cols1 := transpose_kernel TTILE rows tw th cols0 in
  let cols := fst (axis_pass TILE (imageLoad cols1) nxh W cols1 colw0) in
  imageLoad (transpose_kernel TTILE cols th tw rows) x y
  = wrapv (sat_value px y x).
Proof.
  intros Hx Hy rows cols1 cols.
  destruct rows0_size as [Hrw Hrh], roww0_size, cols0_size as [Hcw Hch], colw0_size.
  assert (Hrows_w : tex_width rows = Wp) by exact Hrw.
  assert (Hrows_h : tex_height rows = Hp) by exact Hrh.
  assert (Hcols1_w : tex_width cols1 = Hp) by exact Hcw.
  assert (Hcols1_h : tex_height cols1 = Wp) by exact Hch.
  assert (Hcols1 : forall a b, a < H -> b < W ->
            imageLoad cols1 a b = wrapv (row_prefix px a b)).
  { intros a b Ha Hb. unfold cols1, transpose_kernel.
    rewrite imageLoad_store_region, in_bounds_true by lia.
    assert (Hc : (b <? tw * TTILE) && (a <? th * TTILE) = true).
    { apply andb_true_intro. split; apply Nat.ltb_lt; lia. }
    rewrite Hc. apply gpu_rows_spec; assumption. }
  assert (Hcols : forall a b, a < H -> b < W ->
            imageLoad cols a b = wrapv (sat_value px a b)).
  { intros a b Ha Hb. unfold cols.
    apply (axis_pass_spec TILE TILE_pos (imageLoad cols1)
             (fun a b => row_prefix px a b) nxh W cols1 colw0 H); try lia.
    exact Hcols1. }
  unfold transpose_kernel.
  rewrite imageLoad_store_region, in_bounds_true by lia.
  assert (Hc : (y <? th * TTILE) && (x <? tw * TTILE) = true).
  { apply andb_true_intro. split; apply Nat.ltb_lt; lia. }
  rewrite Hc. apply Hcols; assumption.
Qed.

End GPUTable.

(** ** Readback and upload *)

Lemma lookup_total_nth {A} `{!Inhabited A} (l : list A) i : l !!! i = nth i l inhabitant.
Proof. rewrite list_lookup_total_alt, nth_lookup. reflexivity. Qed.

Lemma nth_map_seq {A} (f : nat -> A) n i d :
  (i < n)%nat -> nth i (map f (seq 0 n)) d = f i.
Proof.
  intros Hi. rewrite (nth_indep _ d (f 0%nat)) by (rewrite length_map, length_seq; exact Hi).
  rewrite map_nth, seq_nth by exact Hi. reflexivity.
Qed.

Lemma read_pixels_length W H t : length (read_pixels W H t) = (H * W)%nat.
Proof.
  unfold read_pixels. induction H as [|H IH]; [reflexivity|].
  rewrite seq_S, flat_map_app, length_app, IH. cbn [flat_map Nat.add].
  rewrite app_nil_r, length_map, length_seq. lia.
Qed.

Lemma read_pixels_lookup W H t x y :
  (x < W)%nat -> (y < H)%nat ->
  uvec4_of_u8vec4 (read_pixels W H t !!! (y * W + x)%nat) = imageLoad t x y.
Proof.
  intros Hx. induction H as [|H IH]; intros Hy; [lia|].
  unfold read_pixels in *. rewrite seq_S, flat_map_app. cbn [flat_map Nat.add].
  rewrite app_nil_r, lookup_total_nth.
  fold (read_pixels W H t).
  destruct (Nat.eq_dec y H) as [->|Hne].
  - rewrite app_nth2 by (rewrite read_pixels_length; lia).
    rewrite read_pixels_length.
    replace (H * W + x - H * W)%nat with x by lia.
    rewrite nth_map_seq by exact Hx. cbn.
    destruct (imageLoad t x H). reflexivity.
  - rewrite app_nth1 by (rewrite read_pixels_length; nia).
    rewrite <- lookup_total_nth. apply IH. lia.
Qed.

Lemma imageLoad_in_bounds t x y :
  (x < tex_width t)%nat -> (y < tex_height t)%nat -> imageLoad t x y = texel t x y.
Proof. intros Hx Hy. unfold imageLoad. rewrite in_bounds_true by assumption. reflexivity. Qed.

Lemma cpu_upload_spec W H Wp table t :
  (W <= tex_width t)%nat -> (H <= tex_height t)%nat ->
  forall x y, (x < W)%nat -> (y < H)%nat ->
    imageLoad (cpu_upload W H Wp table t) x y = cell Wp table y x.
Proof.
  intros Hw Hh. unfold cpu_upload.
  set (P := fun (n : nat) (t' : Texture) =>
              tex_width t' = tex_width t /\ tex_height t' = tex_height t
              /\ forall x y, (x < W)%nat -> (y < n)%nat ->
                   imageLoad t' x y = cell Wp table y x).
  assert (HP : P (0 + H)%nat (fold_left (tex_sub_image_row W Wp table) (seq 0 H) t)).
  { apply (fold_left_seq_inv P).
    - unfold P. repeat split. intros x y _ Hy. lia.
    - intros n t' Hn (Hw' & Hh' & Hdone). unfold P, tex_sub_image_row.
      split; [exact Hw'|]. split; [exact Hh'|].
      intros x y Hx Hy. rewrite imageLoad_store_region, in_bounds_true by lia.
      destruct (Nat.eq_dec y n) as [->|Hne].
      + assert (Hc : (x <? W)%nat && (n =? n)%nat = true).
        { apply andb_true_intro. split; [apply Nat.ltb_lt; lia | apply Nat.eqb_refl]. }
        rewrite Hc. reflexivity.
      + assert (Hc : (x <? W)%nat && (y =? n)%nat = false).
        { apply andb_false_iff. right. apply Nat.eqb_neq. exact Hne. }
        rewrite Hc, <- imageLoad_in_bounds by lia. apply Hdone; lia. }
  destruct HP as (_ & _ & Hdone). intros x y Hx Hy. apply Hdone; assumption.
Qed.

(** ** Sizes after [Resize], as natural numbers *)

Lemma padded_dim_nat tile ttile k m dim :
  (0 <= k <= 30)%Z -> tile = (2 ^ k)%Z ->
  (0 < ttile)%Z -> tile = (m * ttile)%Z ->
  (0 <= dim)%Z -> (dim + tile - 1 <= INT_MAX)%Z ->
  let padded := padded_dim tile dim in
  (Z.to_nat dim <= Z.to_nat padded)%nat
  /\ Z.to_nat padded
     = (Z.to_nat (Z.quot padded tile) * Z.to_nat tile)%nat
  /\ Z.to_nat padded
     = (Z.to_nat (Z.quot padded ttile) * Z.to_nat ttile)%nat
  /\ (single_tier_ok tile padded = true ->
      (Z.to_nat (Z.quot padded tile) <= Z.to_nat tile)%nat)
  /\ (0 <= padded)%Z.
Proof.
  intros Hk Ht Htt Hm Hdim Hmax padded.
  pose proof (pow2_bounds k Hk) as Hp.
  assert (Htile : (0 < tile)%Z) by lia.
  assert (Hpad : padded = (ceil_div dim tile * tile)%Z).
  { apply (padded_dim_ceil tile k); unfold INT_MIN; lia. }
  pose proof (ceil_div_spec dim tile Htile) as Hc.
  assert (Hcd : (0 <= ceil_div dim tile)%Z) by nia.
  assert (Hq : Z.quot padded tile = ceil_div dim tile).
  { rewrite Hpad. apply Z.quot_mul. lia. }
  assert (Hqt : Z.quot padded ttile = (ceil_div dim tile * m)%Z).
  { rewrite Hpad, Hm, Z.mul_assoc. apply Z.quot_mul. lia. }
  assert (Hm0 : (0 < m)%Z) by nia.
  rewrite Hq, Hqt. repeat split.
  - apply Z2Nat.inj_le; lia.
  - rewrite <- Z2Nat.inj_mul by lia. f_equal. exact Hpad.
  - rewrite <- Z2Nat.inj_mul by nia. f_equal. rewrite Hpad, Hm. lia.
  - unfold single_tier_ok. rewrite Hq. intros Hle. apply Z.leb_le in Hle.
    apply Z2Nat.inj_le; lia.
  - nia.
Qed.

(** ** The two paths agree *)

Lemma row_prefix_ext d d' y x :
  (forall x', (x' <= x)%nat -> d x' y = d' x' y) -> row_prefix d y x = row_prefix d' y x.
Proof. intros Hd. unfold row_prefix. apply vsum_ext. intros k Hk. apply Hd. lia. Qed.

Lemma sat_value_ext d d' y x :
  (forall x' y', (x' <= x)%nat -> (y' <= y)%nat -> d x' y' = d' x' y') ->
  sat_value d y x = sat_value d' y x.
Proof.
  intros Hd. unfold sat_value. apply vsum_ext. intros k Hk.
  apply row_prefix_ext. intros x' Hx'. apply Hd; lia.
Qed.

Lemma decode_range gamma v : (forall c, uint_range (gamma c)) -> uvec4_range (decode gamma v).
Proof. intros Hg. unfold uvec4_range, decode. cbn. auto. Qed.

Lemma decoded_pixel_read_pixels gamma W H color x y :
  (x < W)%nat -> (y < H)%nat ->
  decoded_pixel gamma W (read_pixels W H color) x y = decode gamma (imageLoad color x y).
Proof.
  intros Hx Hy. unfold decoded_pixel. rewrite read_pixels_lookup by assumption. reflexivity.
Qed.

Section Agreement.

Variable gamma : Z -> Z.
Variables tile ttile : Z.

Hypothesis gamma_range : forall c, uint_range (gamma c).

(** C1.  After [Resize] (power-of-two tile size, a transpose tile that
    divides it, sizes whose padding fits an [int]), with the three compute
    programs ready and the same decode [gamma] on both paths: on every pixel
    of the image, the row sums of the GPU path equal those of the CPU path,
    and the table the GPU path leaves in [SummedRowsTO] equals the table the
    CPU path uploads there. *)
Theorem gpu_sat_equals_cpu_sat k m w h r0 r inp st table :
  (0 <= k <= 30)%Z -> tile = (2 ^ k)%Z ->
  (0 < ttile)%Z -> tile = (m * ttile)%Z ->
  (0 <= w)%Z -> (w + tile - 1 <= INT_MAX)%Z ->
  (0 <= h)%Z -> (h + tile - 1 <= INT_MAX)%Z ->
  Resize tile w h r0 = Some r ->
  program_name inp SummedAreaTableUpsweepSP <> 0%Z ->
  program_name inp SummedAreaTableDownsweepSP <> 0%Z ->
  program_name inp TransposeSummedAreaTableSP <> 0%Z ->
  sized_as r st ->
  length table
  = (Z.to_nat (mSummedAreaTableWidth r) * Z.to_nat (mSummedAreaTableHeight r))%nat ->
  forall x y, (x < Z.to_nat w)%nat -> (y < Z.to_nat h)%nat ->
    let color := textures st BackbufferColorTOSS in
    imageLoad (textures (Paint_gpu_rows gamma tile ttile r st) SummedRowsTO) x y
    = cell (Z.to_nat (mSummedAreaTableWidth r)) (Paint_cpu_rows gamma r color table) y x
    /\ imageLoad (textures (Paint_gpu_sat gamma tile ttile inp r st) SummedRowsTO) x y
       = imageLoad (Paint_cpu_sat gamma r color table (textures st SummedRowsTO)) x y
    /\ imageLoad (textures (Paint_gpu_sat gamma tile ttile inp r st) SummedRowsTO) x y
       = wrapv (sat_value (fun x y => decode gamma (imageLoad color x y)) y x).
Proof.
  intros Hk Ht Htt Hm Hw Hwmax Hh Hhmax HR Hup Hdown Htr Hsized Hlen x y Hx Hy color.
  destruct (padded_dim_nat tile ttile k m w Hk Ht Htt Hm Hw Hwmax)
    as (HWle & HWp & HWt & HWtier & HWpos).
  destruct (padded_dim_nat tile ttile k m h Hk Ht Htt Hm Hh Hhmax)
    as (HHle & HHp & HHt & HHtier & HHpos).
  cbv zeta in *.
  assert (Htile : (0 < Z.to_nat tile)%nat).
  { pose proof (pow2_bounds k Hk). lia. }
  pose proof (Hsized SummedRowsTO) as Srows.
  pose proof (Hsized SummedRowsWGSumsTO) as Sroww.
  pose proof (Hsized SummedColsTO) as Scols.
  pose proof (Hsized SummedColsWGSumsTO) as Scolw.
  assert (Halias : mSummedAreaTableTO r = Some SummedRowsTO)
    by (apply Resize_Some in HR; tauto).
  rewrite Paint_gpu_sat_textures by assumption.
  rewrite Paint_gpu_rows_textures.
  unfold Paint_cpu_sat, Paint_cpu_table, Paint_cpu_rows.
  unfold Resize in HR.
  destruct (single_tier_ok tile (padded_dim tile w)) eqn:Tw; [|discriminate].
  destruct (single_tier_ok tile (padded_dim tile h)) eqn:Th; [|discriminate].
  injection HR as <-.
  cbn [mSummedRowsTO mSummedRowsWGSumsTO mSummedColsTO mSummedColsWGSumsTO
       mSummedAreaTableWidth mSummedAreaTableHeight mBackbufferWidth mBackbufferHeight]
    in *.
  specialize (Srows _ eq_refl). specialize (Sroww _ eq_refl).
  specialize (Scols _ eq_refl). specialize (Scolw _ eq_refl).
  cbn [ts_width ts_height] in *.
  specialize (HWtier eq_refl). specialize (HHtier eq_refl).
  set (W := Z.to_nat w) in *. set (H := Z.to_nat h) in *.
  set (Wp := Z.to_nat (padded_dim tile w)) in *.
  set (Hp := Z.to_nat (padded_dim tile h)) in *.
  pose proof (cpu_sum_rows_spec gamma W H Wp Hp (read_pixels W H color) HWle HHle) as Crows.
  pose proof (cpu_sat_spec gamma W H Wp Hp (read_pixels W H color) HWle HHle) as Csat.
  assert (Hrange : forall x y, (x < W)%nat -> (y < H)%nat ->
            uvec4_range (decoded_pixel gamma W (read_pixels W H color) x y)).
  { intros. apply decode_range. exact gamma_range. }
  specialize (Crows Hrange table ltac:(lia)). destruct Crows as [_ Crows].
  specialize (Csat Hrange table ltac:(lia)). destruct Csat as [_ Csat].
  assert (Grange : forall x y, (x < W)%nat -> (y < H)%nat ->
            uvec4_range ((fun x y => decode gamma (imageLoad color x y)) x y)).
  { intros. apply decode_range. exact gamma_range. }
  split; [|split].
  - rewrite Crows by assumption.
    rewrite (gpu_rows_spec gamma (Z.to_nat tile) (Z.to_nat ttile) W H Wp Hp
               _ _ _ _ color _ _ _ _
               Htile HWle HHle HWp HHp HWtier HHtier HWt HHt
               Srows Sroww Scols Scolw Grange) by assumption.
    f_equal. apply row_prefix_ext. intros x' Hx'.
    symmetry. apply decoded_pixel_read_pixels; lia.
  - rewrite cpu_upload_spec by lia.
    rewrite Csat by assumption.
    rewrite (gpu_sat_spec gamma (Z.to_nat tile) (Z.to_nat ttile) W H Wp Hp
               _ _ _ _ color _ _ _ _
               Htile HWle HHle HWp HHp HWtier HHtier HWt HHt
               Srows Sroww Scols Scolw Grange) by assumption.
    f_equal. apply sat_value_ext. intros x' y' Hx' Hy'.
    symmetry. apply decoded_pixel_read_pixels; lia.
  - apply (gpu_sat_spec gamma (Z.to_nat tile) (Z.to_nat ttile) W H Wp Hp
             _ _ _ _ color _ _ _ _
             Htile HWle HHle HWp HHp HWtier HHtier HWt HHt
             Srows Sroww Scols Scolw Grange); assumption.
Qed.

End Agreement.

(** ** The gamma decode *)

Lemma gamma_trunc_range c : (0 <= gamma_trunc c <= 255)%Z.
Proof.
  unfold gamma_trunc. cbv zeta.
  pose proof (filter_length_le (fun k => (k ^ 5 * 255 ^ 6 <=? c ^ 11)%Z)
                (map Z.of_nat (seq 1 255))) as H.
  rewrite length_map, length_seq in H. lia.
Qed.

Lemma gamma_trunc_uint c : uint_range (gamma_trunc c).
Proof. pose proof (gamma_trunc_range c). unfold uint_range. lia. Qed.

Lemma range_cases (P : Z -> bool) (lo n : nat) :
  forallb P (map Z.of_nat (seq lo n)) = true ->
  forall c, (Z.of_nat lo <= c < Z.of_nat lo + Z.of_nat n)%Z -> P c = true.
Proof.
  intros H c Hc. rewrite forallb_forall in H. apply H.
  apply in_map_iff. exists (Z.to_nat c). split; [lia|].
  apply in_seq. lia.
Qed.

Lemma byte_cases (P : Z -> bool) :
  forallb P (map Z.of_nat (seq 0 256)) = true ->
  forall c, (0 <= c <= 255)%Z -> P c = true.
Proof. intros H c Hc. apply (range_cases P 0 256 H). lia. Qed.

(** [gamma_trunc c] is the integer part of [255 * (c/255)^(11/5)]: its fifth
    power times [255^6] is at most [c^11], and that of its successor is
    more. *)
Lemma gamma_trunc_floor c :
  (0 <= c <= 255)%Z ->
  (gamma_trunc c ^ 5 * 255 ^ 6 <= c ^ 11 < (gamma_trunc c + 1) ^ 5 * 255 ^ 6)%Z.
Proof.
  intros Hc.
  assert (Hall : forallb
                   (fun c => let k := gamma_trunc c in
                             (k ^ 5 * 255 ^ 6 <=? c ^ 11)%Z
                             && (c ^ 11 <? (k + 1) ^ 5 * 255 ^ 6)%Z)
                   (map Z.of_nat (seq 0 256)) = true)
    by (vm_cast_no_check (eq_refl true)).
  pose proof (byte_cases _ Hall c Hc) as H.
  cbv beta zeta in H. apply andb_true_iff in H as [H1 H2].
  apply Z.leb_le in H1. apply Z.ltb_lt in H2. split; assumption.
Qed.

(** [gamma_round c] is [255 * (c/255)^(11/5)] rounded to the nearest
    integer. *)
Lemma gamma_round_nearest c :
  (0 <= c <= 255)%Z ->
  ((2 * gamma_round c - 1) ^ 5 * 255 ^ 6 <= 32 * c ^ 11
   < (2 * gamma_round c + 1) ^ 5 * 255 ^ 6)%Z.
Proof.
  intros Hc.
  assert (Hall : forallb
                   (fun c => let k := gamma_round c in
                             ((2 * k - 1) ^ 5 * 255 ^ 6 <=? 32 * c ^ 11)%Z
                             && (32 * c ^ 11 <? (2 * k + 1) ^ 5 * 255 ^ 6)%Z)
                   (map Z.of_nat (seq 0 256)) = true)
    by (vm_cast_no_check (eq_refl true)).
  pose proof (byte_cases _ Hall c Hc) as H.
  cbv beta zeta in H. apply andb_true_iff in H as [H1 H2].
  apply Z.leb_le in H1. apply Z.ltb_lt in H2. split; assumption.
Qed.

Lemma pow_lt_strict (x y : R) n : (0 <= x < y)%R -> (x ^ S n < y ^ S n)%R.
Proof.
  intros [Hx Hxy]. induction n as [|n IH].
  - rewrite !pow_1. exact Hxy.
  - change (x ^ S (S n))%R with (x * x ^ S n)%R.
    change (y ^ S (S n))%R with (y * y ^ S n)%R.
    apply Rle_lt_trans with (x * y ^ S n)%R.
    + apply Rmult_le_compat_l; [exact Hx | apply Rlt_le, IH].
    + apply Rmult_lt_compat_r; [|exact Hxy].
      apply pow_lt. apply Rle_lt_trans with x; assumption.
Qed.

Lemma pow5_le_iff (a b : R) : (0 <= a)%R -> (0 <= b)%R -> (a ^ 5 <= b ^ 5 <-> a <= b)%R.
Proof.
  intros Ha Hb. split.
  - intros H. destruct (Rle_or_lt a b) as [Hle|Hlt]; [exact Hle|].
    exfalso. pose proof (pow_lt_strict b a 4 (conj Hb Hlt)). lra.
  - intros H. apply pow_incr. split; assumption.
Qed.

Lemma gamma_real_pos c : (1 <= c)%Z -> (0 < gamma_real c)%R.
Proof.
  intros Hc. unfold gamma_real. apply Rmult_lt_0_compat; [lra|].
  unfold Rpower. apply exp_pos.
Qed.

Lemma gamma_real_pow5 c :
  (1 <= c)%Z -> (gamma_real c ^ 5 * IZR (255 ^ 6) = IZR (c ^ 11))%R.
Proof.
  intros Hc. unfold gamma_real.
  assert (Hx : (0 < IZR c / 255)%R).
  { apply Rdiv_lt_0_compat; [apply IZR_lt; lia | lra]. }
  rewrite Rpow_mult_distr.
  rewrite <- (Rpower_pow 5 (Rpower (IZR c / 255) (22 / 10))) by (unfold Rpower; apply exp_pos).
  rewrite Rpower_mult.
  replace (22 / 10 * INR 5)%R with (INR 11) by (simpl; field).
  rewrite Rpower_pow by exact Hx.
  change 11%Z with (Z.of_nat 11). change 6%Z with (Z.of_nat 6).
  rewrite <- !pow_IZR.
  unfold Rdiv. rewrite Rpow_mult_distr, pow_inv. field.
Qed.

Lemma le_gamma_real k c :
  (0 <= k)%Z -> (1 <= c)%Z ->
  ((k ^ 5 * 255 ^ 6 <= c ^ 11)%Z <-> (IZR k <= gamma_real c)%R).
Proof.
  intros Hk Hc.
  pose proof (gamma_real_pos c Hc) as Hpos.
  pose proof (gamma_real_pow5 c Hc) as Hpow.
  assert (H6 : (0 < IZR (255 ^ 6))%R) by (apply IZR_lt; lia).
  rewrite <- (pow5_le_iff (IZR k) (gamma_real c)) by (try lra; apply IZR_le; lia).
  change 5%Z with (Z.of_nat 5). rewrite pow_IZR.
  split.
  - intros H. apply IZR_le in H. rewrite mult_IZR, <- Hpow in H.
    apply Rmult_le_reg_r in H; [exact H | exact H6].
  - intros H. apply le_IZR. rewrite mult_IZR, <- Hpow.
    apply Rmult_le_compat_r; [lra | exact H].
Qed.

Lemma le_twice_gamma_real j c :
  (0 <= j)%Z -> (1 <= c)%Z ->
  ((j ^ 5 * 255 ^ 6 <= 32 * c ^ 11)%Z <-> (IZR j <= 2 * gamma_real c)%R).
Proof.
  intros Hj Hc.
  pose proof (gamma_real_pos c Hc) as Hpos.
  pose proof (gamma_real_pow5 c Hc) as Hpow.
  assert (H6 : (0 < IZR (255 ^ 6))%R) by (apply IZR_lt; lia).
  rewrite <- (pow5_le_iff (IZR j) (2 * gamma_real c)) by (try lra; apply IZR_le; lia).
  rewrite Rpow_mult_distr. replace (2 ^ 5)%R with 32%R by (simpl; ring).
  change 5%Z with (Z.of_nat 5). rewrite pow_IZR.
  split.
  - intros H. apply IZR_le in H. rewrite !mult_IZR, <- Hpow in H.
    rewrite <- Rmult_assoc in H.
    apply Rmult_le_reg_r in H; [exact H | exact H6].
  - intros H. apply le_IZR. rewrite !mult_IZR, <- Hpow, <- Rmult_assoc.
    apply Rmult_le_compat_r; [lra | exact H].
Qed.

Lemma le_scaled_gamma_real s j c :
  (0 < s)%Z -> (0 <= j)%Z -> (1 <= c)%Z ->
  ((j ^ 5 * 255 ^ 6 <= s ^ 5 * c ^ 11)%Z <-> (IZR j <= IZR s * gamma_real c)%R).
Proof.
  intros Hs Hj Hc.
  pose proof (gamma_real_pos c Hc) as Hpos.
  pose proof (gamma_real_pow5 c Hc) as Hpow.
  assert (H6 : (0 < IZR (255 ^ 6))%R) by (apply IZR_lt; lia).
  assert (Hsr : (0 < IZR s)%R) by (apply IZR_lt; lia).
  rewrite <- (pow5_le_iff (IZR j) (IZR s * gamma_real c));
    [| apply IZR_le; lia | apply Rlt_le, Rmult_lt_0_compat; assumption].
  rewrite Rpow_mult_distr.
  change 5%Z with (Z.of_nat 5). rewrite !pow_IZR.
  split.
  - intros H. apply IZR_le in H. rewrite !mult_IZR, <- Hpow in H.
    rewrite <- Rmult_assoc in H.
    apply Rmult_le_reg_r in H; [exact H | exact H6].
  - intros H. apply le_IZR. rewrite !mult_IZR, <- Hpow, <- Rmult_assoc.
    apply Rmult_le_compat_r; [lra | exact H].
Qed.

(** The real value is never within a thousandth of an integer (but at 255,
    where it is 255): an evaluation in [float] arithmetic, whose error is
    far smaller, truncates to the same integer. *)
Lemma gamma_real_margin c :
  (1 <= c <= 254)%Z ->
  (IZR (gamma_trunc c) + 1 / 1000 <= gamma_real c
   <= IZR (gamma_trunc c) + 999 / 1000)%R.
Proof.
  intros Hc. pose proof (gamma_trunc_range c) as Hr.
  assert (Hc1 : (1 <= c)%Z) by lia.
  assert (Hcr : (Z.of_nat 1 <= c < Z.of_nat 1 + Z.of_nat 254)%Z) by lia.
  assert (Hlo0 : (0 <= 1000 * gamma_trunc c + 1)%Z) by lia.
  assert (Hhi0 : (0 <= 1000 * gamma_trunc c + 999)%Z) by lia.
  assert (Hs : (0 < 1000)%Z) by lia.
  assert (Hall : forallb
                   (fun c => let k := gamma_trunc c in
                             ((1000 * k + 1) ^ 5 * 255 ^ 6 <=? 1000 ^ 5 * c ^ 11)%Z
                             && (1000 ^ 5 * c ^ 11 <? (1000 * k + 999) ^ 5 * 255 ^ 6)%Z)
                   (map Z.of_nat (seq 1 254)) = true)
    by (vm_cast_no_check (eq_refl true)).
  pose proof (range_cases _ 1 254 Hall c Hcr) as H.
  cbv beta zeta in H. apply andb_true_iff in H as [H1 H2].
  apply Z.leb_le in H1. apply Z.ltb_lt in H2.
  apply (le_scaled_gamma_real 1000 _ c Hs Hlo0 Hc1) in H1.
  assert (H3 : (IZR 1000 * gamma_real c < IZR (1000 * gamma_trunc c + 999))%R).
  { apply Rnot_le_lt. intros H.
    apply (le_scaled_gamma_real 1000 _ c Hs Hhi0 Hc1) in H.
    exact (proj1 (Z.lt_nge _ _) H2 H). }
  rewrite plus_IZR, mult_IZR in H1, H3.
  generalize dependent (gamma_real c). generalize (IZR (gamma_trunc c)).
  clear. intros k y H1 H3. split; lra.
Qed.

(** The code's decode is the integer part of [255 * (c/255)^2.2]. *)
Lemma gamma_trunc_is_floor c :
  (1 <= c <= 255)%Z ->
  (IZR (gamma_trunc c) <= gamma_real c < IZR (gamma_trunc c) + 1)%R.
Proof.
  intros Hc. pose proof (gamma_trunc_range c) as Hr.
  destruct (gamma_trunc_floor c ltac:(lia)) as [Hlo Hhi].
  split.
  - apply le_gamma_real; [lia | lia | exact Hlo].
  - rewrite <- plus_IZR. apply Rnot_le_lt. intros H.
    apply le_gamma_real in H; lia.
Qed.

(** The spec's decode is [255 * (c/255)^2.2] rounded to the nearest
    integer. *)
Lemma gamma_round_is_nearest c :
  (1 <= c <= 255)%Z ->
  (IZR (gamma_round c) - 1 / 2 <= gamma_real c < IZR (gamma_round c) + 1 / 2)%R.
Proof.
  intros Hc.
  destruct (gamma_round_nearest c ltac:(lia)) as [Hlo Hhi].
  pose proof (gamma_real_pos c ltac:(lia)) as Hpos.
  assert (Hk : (0 <= gamma_round c)%Z) by (unfold gamma_round; cbv zeta; lia).
  split.
  - destruct (Z.eq_dec (gamma_round c) 0) as [H0|H0].
    + rewrite H0. lra.
    + assert (H : (IZR (2 * gamma_round c - 1) <= 2 * gamma_real c)%R)
        by (apply le_twice_gamma_real; [lia | lia | exact Hlo]).
      rewrite minus_IZR, mult_IZR in H. lra.
  - assert (H : (2 * gamma_real c < IZR (2 * gamma_round c + 1))%R).
    { apply Rnot_le_lt. intros H. apply le_twice_gamma_real in H; lia. }
    rewrite plus_IZR, mult_IZR in H. lra.
Qed.

(** C2, as the code has it.  The CPU path decodes every channel of every
    source pixel once, on reading it in the row loop, by [gamma_trunc]:
    zero for zero, and otherwise the integer part of
    [gamma_real c = 255 * (c/255)^2.2] (the conversion to [unsigned]
    truncates); the row loop leaves the prefix sums of the
    decoded rows, and the column loop the sums of the decoded pixels above
    and to the left of each cell. *)
Theorem cpu_sat_accumulates_truncated_decode (W H Wp Hp : nat) readback table :
  (W <= Wp)%nat -> (H <= Hp)%nat -> length table = (Wp * Hp)%nat ->
  (forall r c, (r < H)%nat -> (c < W)%nat ->
     cell Wp (cpu_sum_rows gamma_trunc W H Wp readback table) r c
     = wrapv (row_prefix (decoded_pixel gamma_trunc W readback) r c)
     /\ cell Wp (cpu_sat gamma_trunc W H Wp readback table) r c
        = wrapv (sat_value (decoded_pixel gamma_trunc W readback) r c))
  /\ gamma_trunc 0 = 0%Z
  /\ (forall c, (1 <= c <= 255)%Z ->
        (IZR (gamma_trunc c) <= gamma_real c < IZR (gamma_trunc c) + 1)%R).
Proof.
  intros HW HH Hlen.
  assert (Hrange : forall x y, (x < W)%nat -> (y < H)%nat ->
            uvec4_range (decoded_pixel gamma_trunc W readback x y)).
  { intros. apply decode_range. exact gamma_trunc_uint. }
  split.
  - intros r c Hr Hc. split.
    + apply (cpu_sum_rows_spec gamma_trunc W H Wp Hp readback HW HH Hrange table Hlen);
        assumption.
    + apply (cpu_sat_spec gamma_trunc W H Wp Hp readback HW HH Hrange table Hlen);
        assumption.
  - split; [reflexivity | exact gamma_trunc_is_floor].
Qed.

Lemma cpu_sat_accumulates_truncated_decode_witness :
  let readback := [mk_u8vec4 18 46 128 255; mk_u8vec4 255 255 255 255] in
  let table := replicate 16 uvec4_zero in
  cell 4 (cpu_sum_rows gamma_trunc 2 1 4 readback table) 0 1
  = wrapv (row_prefix (decoded_pixel gamma_trunc 2 readback) 0 1)
  /\ cell 4 (cpu_sat gamma_trunc 2 1 4 readback table) 0 1
     = wrapv (sat_value (decoded_pixel gamma_trunc 2 readback) 0 1).
Proof.
  intros readback table.
  apply (cpu_sat_accumulates_truncated_decode 2 1 4 4 readback table);
    [lia | lia | reflexivity | lia | lia].
Defined.

(** C2, as stated, fails: the table of a one-pixel image holds the truncated
    decode of the pixel, not the rounded one (for the channel value 18,
    [255 * (18/255)^2.2] is about 0.75). *)
Lemma cpu_decode_is_not_rounded :
  let readback := [mk_u8vec4 18 18 18 255] in
  let table := cpu_sat gamma_trunc 1 1 1 readback [uvec4_zero] in
  cell 1 table 0 0 = mk_uvec4 0 0 0 255
  /\ wrapv (sat_value (decoded_pixel gamma_round 1 readback) 0 0) = mk_uvec4 1 1 1 255
  /\ cell 1 table 0 0 <> wrapv (sat_value (decoded_pixel gamma_round 1 readback) 0 0)
  /\ (1 / 2 <= gamma_real 18 < 1)%R.
Proof.
  cbv zeta. split; [|split; [|split]].
  - vm_compute. reflexivity.
  - vm_compute. reflexivity.
  - vm_compute. discriminate.
  - pose proof (gamma_round_is_nearest 18 ltac:(lia)) as Hr.
    pose proof (gamma_trunc_is_floor 18 ltac:(lia)) as Hf.
    assert (Er : gamma_round 18 = 1%Z) by (vm_compute; reflexivity).
    assert (Ef : gamma_trunc 18 = 0%Z) by (vm_compute; reflexivity).
    rewrite Er in Hr. rewrite Ef in Hf. lra.
Qed.

(** ** The white 8x8 image *)

Lemma Resize_8x8_tile_4 r0 r :
  Resize 4 8 8 r0 = Some r ->
  mBackbufferWidth r = 8%Z /\ mBackbufferHeight r = 8%Z
  /\ mSummedAreaTableWidth r = 8%Z /\ mSummedAreaTableHeight r = 8%Z
  /\ mCPUSummedAreaTable r = 64%Z.
Proof.
  unfold Resize.
  change (single_tier_ok 4 (padded_dim 4 8)) with true. cbv iota.
  intros H. injection H as <-. repeat split; reflexivity.
Qed.

Lemma white_sat_value d :
  (forall x y, (x < 8)%nat -> (y < 8)%nat -> d x y = white) ->
  wrapv (sat_value d 7 7) = mk_uvec4 16320 16320 16320 16320.
Proof.
  intros Hd. rewrite (sat_value_ext d (fun _ _ => white)).
  - vm_compute. reflexivity.
  - intros x' y' Hx' Hy'. apply Hd; lia.
Qed.

(** C3.  For an 8x8 colour target that is white everywhere, with tile size
    4 and a decode that maps 255 to 255, the table of the CPU path has
    [64 * decode(255) = 16320] in every channel of [T[7][7]]. *)
Theorem white_8x8_table_corner gamma r0 r color table :
  gamma 255%Z = 255%Z ->
  Resize 4 8 8 r0 = Some r ->
  (forall x y, (x < 8)%nat -> (y < 8)%nat -> imageLoad color x y = white) ->
  length table = Z.to_nat (mCPUSummedAreaTable r) ->
  cell (Z.to_nat (mSummedAreaTableWidth r)) (Paint_cpu_table gamma r color table) 7 7
  = mk_uvec4 (64 * gamma 255) (64 * gamma 255) (64 * gamma 255) (64 * gamma 255)
  /\ (64 * gamma 255 = 16320)%Z.
Proof.
  intros Hg HR Hwhite Hlen.
  apply Resize_8x8_tile_4 in HR as (Hbw & Hbh & Hsw & Hsh & Hsz).
  unfold Paint_cpu_table. rewrite Hbw, Hbh, Hsw. rewrite Hsz in Hlen.
  change (Z.to_nat 8) with 8%nat. change (Z.to_nat 64) with 64%nat in Hlen.
  rewrite Hg. split; [|reflexivity].
  assert (Hd : forall x y, (x < 8)%nat -> (y < 8)%nat ->
            decoded_pixel gamma 8 (read_pixels 8 8 color) x y = white).
  { intros x y Hx Hy. rewrite decoded_pixel_read_pixels by assumption.
    rewrite Hwhite by assumption. unfold decode, white. cbn. rewrite Hg. reflexivity. }
  assert (Hrange : forall x y, (x < 8)%nat -> (y < 8)%nat ->
            uvec4_range (decoded_pixel gamma 8 (read_pixels 8 8 color) x y)).
  { intros x y Hx Hy. rewrite Hd by assumption.
    unfold uvec4_range, uint_range, white. cbn. lia. }
  destruct (cpu_sat_spec gamma 8 8 8 8 (read_pixels 8 8 color)
              (Nat.le_refl 8) (Nat.le_refl 8) Hrange table Hlen) as [_ Hsat].
  rewrite Hsat by lia. apply white_sat_value. exact Hd.
Qed.

Lemma white_8x8_table_corner_witness :
  let color := constant_texture 8 8 white in
  let table := replicate 64 uvec4_zero in
  exists r,
    Resize 4 8 8 NewRenderer = Some r
    /\ cell (Z.to_nat (mSummedAreaTableWidth r))
            (Paint_cpu_table gamma_trunc r color table) 7 7
       = mk_uvec4 (64 * gamma_trunc 255) (64 * gamma_trunc 255)
                  (64 * gamma_trunc 255) (64 * gamma_trunc 255)
    /\ (64 * gamma_trunc 255 = 16320)%Z.
Proof.
  intros color table. eexists. split; [reflexivity|].
  apply (white_8x8_table_corner gamma_trunc NewRenderer _ color table).
  - vm_compute. reflexivity.
  - reflexivity.
  - intros x y Hx Hy. unfold color, constant_texture.
    apply imageLoad_in_bounds; cbn; lia.
  - reflexivity.
Defined.

(** The GPU path on the same frame: the table it leaves in [SummedRowsTO]
    has the same corner. *)
Lemma white_8x8_gpu_corner :
  match Resize 4 8 8 NewRenderer with
  | Some r =>
      imageLoad (textures (Paint_gpu_sat gamma_trunc 4 2 all_programs_ready r
                                         white_8x8_state) SummedRowsTO) 7 7
      = mk_uvec4 16320 16320 16320 16320
  | None => False
  end.
Proof. vm_compute. reflexivity. Qed.

Lemma gpu_sat_equals_cpu_sat_witness :
  let st := white_8x8_state in
  let color := textures st BackbufferColorTOSS in
  let table := replicate 64 uvec4_zero in
  exists r,
    Resize 4 8 8 NewRenderer = Some r
    /\ imageLoad (textures (Paint_gpu_rows gamma_trunc 4 2 r st) SummedRowsTO) 7 7
       = cell (Z.to_nat (mSummedAreaTableWidth r))
              (Paint_cpu_rows gamma_trunc r color table) 7 7
    /\ imageLoad (textures (Paint_gpu_sat gamma_trunc 4 2 all_programs_ready r st)
                           SummedRowsTO) 7 7
       = imageLoad (Paint_cpu_sat gamma_trunc r color table (textures st SummedRowsTO))
                   7 7
    /\ imageLoad (textures (Paint_gpu_sat gamma_trunc 4 2 all_programs_ready r st)
                           SummedRowsTO) 7 7
       = wrapv (sat_value (fun x y => decode gamma_trunc (imageLoad color x y)) 7 7).
Proof.
  intros st color table. eexists. split; [reflexivity|].
  apply (gpu_sat_equals_cpu_sat gamma_trunc 4 2 gamma_trunc_uint 2 2 8 8 NewRenderer _
           all_programs_ready st table).
  - lia.
  - reflexivity.
  - lia.
  - reflexivity.
  - lia.
  - unfold INT_MAX. lia.
  - lia.
  - unfold INT_MAX. lia.
  - reflexivity.
  - discriminate.
  - discriminate.
  - discriminate.
  - intros t storage. destruct t; cbn; intros [= <-]; split; reflexivity.
  - reflexivity.
  - cbn. lia.
  - cbn. lia.
Defined.

(** * Further properties of the renderer *)

(** ** Elapsed times *)

Lemma wrap_uint64_small z : 0 <= z < 2 ^ 64 -> wrap_uint64 z = z.
Proof. intros H. unfold wrap_uint64. apply Z.mod_small. exact H. Qed.

Lemma wrap_uint64_bounds z : 0 <= wrap_uint64 z < 2 ^ 64.
Proof. unfold wrap_uint64. apply Z.mod_pos_bound. lia. Qed.

Lemma split_thousands q : 0 <= q -> 0 <= q - q / 1000 * 1000 < 1000.
Proof.
  intros Hq. pose proof (Z.div_mod q 1000 ltac:(lia)) as Hdm.
  pose proof (Z.mod_pos_bound q 1000 ltac:(lia)) as Hm. lia.
Qed.

Lemma gpu_pair_time_args start stop :
  let ns := wrap_uint64 (stop - start) in
  gpu_pair_time start stop = (ns / 1000000, ns / 1000 - ns / 1000000 * 1000)
  /\ 0 <= ns / 1000 - ns / 1000000 * 1000 < 1000
  /\ 0 <= ns / 1000000.
Proof.
  intros ns. unfold gpu_pair_time. fold ns.
  pose proof (wrap_uint64_bounds (stop - start)) as Hns. fold ns in Hns.
  assert (Hq : 0 <= ns / 1000 < 2 ^ 64).
  { split; [apply Z.div_pos; lia|].
    apply Z.div_lt_upper_bound; lia. }
  assert (Hms : ns / 1000000 = ns / 1000 / 1000).
  { rewrite Z.div_div by lia. reflexivity. }
  pose proof (split_thousands (ns / 1000) ltac:(lia)) as Hs.
  rewrite Hms.
  assert (Hm : 0 <= ns / 1000 / 1000 * 1000 < 2 ^ 64) by lia.
  rewrite (wrap_uint64_small (ns / 1000 / 1000 * 1000)) by exact Hm.
  rewrite wrap_uint64_small by lia.
  split; [reflexivity|]. split; [exact Hs|]. apply Z.div_pos; lia.
Qed.

Lemma printf_d_int v : 0 <= v < 2 ^ 31 -> printf_d v = v.
Proof.
  intros Hv. unfold printf_d. apply wrap_int_id.
  unfold int_range, INT_MIN, INT_MAX. lia.
Qed.

Lemma printf_d_negative v : 2 ^ 31 <= v < 2 ^ 32 -> printf_d v = v - 2 ^ 32.
Proof.
  intros Hv. unfold printf_d, wrap_int.
  replace (v + 2 ^ 31) with (v - 2 ^ 31 + 1 * 2 ^ 32) by lia.
  rewrite Z_mod_plus_full, Z.mod_small by lia. lia.
Qed.

(** X1.  For any two query results, with
    [ns = (stop - start) mod 2^64] the elapsed nanoseconds ([stop - start]
    when [start <= stop]): the second number printed for a GPU pair is the
    microseconds left over the whole milliseconds, below 1000, and the
    first is the low 32 bits of the whole milliseconds [ns / 1000000], read
    as an [int].  For an elapsed time below [2^31] milliseconds the first
    is the whole milliseconds, and [first * 1000 + second = ns / 1000]; from
    [2^31] to below [2^32] milliseconds it is negative, the milliseconds
    less [2^32]. *)
Theorem gpu_pair_time_splits_microseconds start stop :
  let ns := wrap_uint64 (stop - start) in
  let printed := gpu_pair_printed start stop in
  fst printed = wrap_int (ns / 1000000)
  /\ snd printed = ns / 1000 - ns / 1000000 * 1000
  /\ 0 <= snd printed < 1000
  /\ (ns < 2 ^ 31 * 1000000 ->
      fst printed = ns / 1000000 /\ fst printed * 1000 + snd printed = ns / 1000)
  /\ (2 ^ 31 * 1000000 <= ns < 2 ^ 32 * 1000000 ->
      fst printed = ns / 1000000 - 2 ^ 32 /\ fst printed < 0)
  /\ (0 <= start <= stop /\ stop < 2 ^ 64 -> ns = stop - start).
Proof.
  intros ns printed. unfold printed, gpu_pair_printed.
  destruct (gpu_pair_time_args start stop) as (-> & Hfrac & Hms). fold ns in Hfrac, Hms |- *.
  cbn [fst snd]. rewrite (printf_d_int (ns / 1000 - ns / 1000000 * 1000)) by lia.
  split; [reflexivity|]. split; [reflexivity|]. split; [exact Hfrac|].
  split; [|split].
  - intros Hlt.
    assert (Hsmall : ns / 1000000 < 2 ^ 31) by (apply Z.div_lt_upper_bound; lia).
    rewrite printf_d_int by lia. split; [reflexivity | lia].
  - intros [Hlo Hhi].
    assert (H1 : 2 ^ 31 <= ns / 1000000) by (apply Z.div_le_lower_bound; lia).
    assert (H2 : ns / 1000000 < 2 ^ 32) by (apply Z.div_lt_upper_bound; lia).
    rewrite printf_d_negative by lia. split; [reflexivity | lia].
  - intros [Hle Hhi]. unfold ns. apply wrap_uint64_small. lia.
Qed.

(** X2.  For a positive counter frequency and counter values with
    [start <= stop] whose difference times 1000000 fits 64 bits, with
    [us = floor((stop - start) * 1000000 / freq)] the elapsed microseconds:
    the second number printed for a CPU pair is the microseconds left over
    the whole milliseconds, below 1000, and the first is the low 32 bits of
    the whole milliseconds [us / 1000], read as an [int]; for an elapsed
    time below [2^31] milliseconds it is the whole milliseconds, and
    [first * 1000 + second = us]. *)
Theorem cpu_pair_time_splits_microseconds freq start stop :
  0 < freq < 2 ^ 63 -> 0 <= start <= stop ->
  (stop - start) * 1000000 < 2 ^ 64 ->
  let us := (stop - start) * 1000000 / freq in
  let printed := cpu_pair_printed freq start stop in
  fst printed = wrap_int (us / 1000)
  /\ snd printed = us - us / 1000 * 1000
  /\ 0 <= snd printed < 1000
  /\ (us / 1000 < 2 ^ 31 ->
      fst printed = us / 1000 /\ fst printed * 1000 + snd printed = us).
Proof.
  intros Hf Hse Hfit us printed. unfold printed, cpu_pair_printed, cpu_pair_time.
  cbn [fst snd].
  rewrite (wrap_uint64_small (stop - start)) by lia.
  rewrite (wrap_uint64_small ((stop - start) * 1000000)) by lia.
  rewrite (wrap_uint64_small freq) by lia.
  fold us.
  assert (Hus : 0 <= us < 2 ^ 64).
  { unfold us. split; [apply Z.div_pos; lia|].
    apply Z.div_lt_upper_bound; nia. }
  pose proof (split_thousands us ltac:(lia)) as Hs.
  rewrite (wrap_uint64_small (us / 1000 * 1000)) by lia.
  rewrite (wrap_uint64_small (us - us / 1000 * 1000)) by lia.
  rewrite (printf_d_int (us - us / 1000 * 1000)) by lia.
  split; [reflexivity|]. split; [reflexivity|]. split; [exact Hs|].
  intros Hsmall.
  assert (Hms : 0 <= us / 1000) by (apply Z.div_pos; lia).
  rewrite printf_d_int by lia. split; [reflexivity | lia].
Qed.

Lemma cpu_pair_time_splits_microseconds_witness :
  let us := (128456 - 5000) * 1000000 / 10000000 in
  let printed := cpu_pair_printed 10000000 5000 128456 in
  fst printed = wrap_int (us / 1000)
  /\ snd printed = us - us / 1000 * 1000
  /\ 0 <= snd printed < 1000
  /\ (us / 1000 < 2 ^ 31 ->
      fst printed = us / 1000 /\ fst printed * 1000 + snd printed = us).
Proof.
  apply (cpu_pair_time_splits_microseconds 10000000 5000 128456); lia.
Defined.

(** ** The size limit of [Resize] *)

Lemma single_tier_ceiling k tile dim :
  0 <= k <= 30 -> tile = 2 ^ k ->
  INT_MIN <= dim -> dim + tile - 1 <= INT_MAX ->
  single_tier_ok tile (padded_dim tile dim) = true <-> dim <= tile * tile.
Proof.
  intros Hk Ht Hlo Hhi. pose proof (pow2_bounds k Hk) as Hp.
  assert (Htile : 0 < tile) by lia.
  rewrite (padded_dim_ceil tile k dim Hk Ht Hlo Hhi).
  unfold single_tier_ok. rewrite Z.quot_mul by lia.
  pose proof (ceil_div_spec dim tile Htile) as Hc.
  rewrite Z.leb_le. split; intros H; nia.
Qed.

(** X3.  For a power-of-two tile size and sizes whose padding fits an
    [int], [Resize] succeeds exactly for the sizes up to [TILE * TILE] in
    each dimension (for 256: up to 65536 by 65536); for any larger width or
    height an assertion fails. *)
Theorem Resize_succeeds_up_to_tile_squared k tile w h r :
  0 <= k <= 30 -> tile = 2 ^ k ->
  INT_MIN <= w -> w + tile - 1 <= INT_MAX ->
  INT_MIN <= h -> h + tile - 1 <= INT_MAX ->
  is_Some (Resize tile w h r) <-> w <= tile * tile /\ h <= tile * tile.
Proof.
  intros Hk Ht Hw1 Hw2 Hh1 Hh2.
  pose proof (single_tier_ceiling k tile w Hk Ht Hw1 Hw2) as Hsw.
  pose proof (single_tier_ceiling k tile h Hk Ht Hh1 Hh2) as Hsh.
  unfold Resize.
  destruct (single_tier_ok tile (padded_dim tile w));
    [destruct (single_tier_ok tile (padded_dim tile h))|].
  - split; [intros _; split; [apply Hsw | apply Hsh]; reflexivity | intros _; eauto].
  - split; [intros [? [=]] | intros [_ H]; apply Hsh in H; discriminate].
  - split; [intros [? [=]] | intros [H _]; apply Hsw in H; discriminate].
Qed.

Lemma Resize_succeeds_up_to_tile_squared_witness :
  (is_Some (Resize 256 65536 600 NewRenderer) <-> 65536 <= 256 * 256 /\ 600 <= 256 * 256)
  /\ (is_Some (Resize 256 65537 600 NewRenderer)
      <-> 65537 <= 256 * 256 /\ 600 <= 256 * 256).
Proof.
  split.
  - apply (Resize_succeeds_up_to_tile_squared 8 256 65536 600 NewRenderer);
      [lia | reflexivity | unfold INT_MIN; lia | unfold INT_MAX; lia
       | unfold INT_MIN; lia | unfold INT_MAX; lia].
  - apply (Resize_succeeds_up_to_tile_squared 8 256 65537 600 NewRenderer);
      [lia | reflexivity | unfold INT_MIN; lia | unfold INT_MAX; lia
       | unfold INT_MIN; lia | unfold INT_MAX; lia].
Defined.

(** ** The render size *)

Lemma Paint_buffer_dims tile ttile inp r :
  buffer_dims (snd (Paint tile ttile inp r)) = buffer_dims r
  /\ mSummedAreaTableTO (snd (Paint tile ttile inp r)) = mSummedAreaTableTO r
  /\ mWindowWidth (snd (Paint tile ttile inp r)) = mWindowWidth r
  /\ mWindowHeight (snd (Paint tile ttile inp r)) = mWindowHeight r.
Proof.
  rewrite Paint_state. unfold UpdateGUI. cbn [snd].
  destruct (renderer_window_open inp); repeat split; reflexivity.
Qed.

Lemma Resize_sets_size tile w h r r' :
  Resize tile w h r = Some r' ->
  (mBackbufferWidth r', mBackbufferHeight r') = (w, h)
  /\ (mWindowWidth r', mWindowHeight r') = (w, h)
  /\ mSummedAreaTableTO r' = Some SummedRowsTO.
Proof.
  intros HR. apply Resize_Some in HR as (_ & _ & Hbw & Hbh & Hww & Hwh & _ & _ & Ha).
  rewrite Hbw, Hbh, Hww, Hwh. auto.
Qed.

Lemma apply_ops_last_resize tile ttile ops :
  forall size r r',
    (mBackbufferWidth r, mBackbufferHeight r) = size ->
    (mWindowWidth r, mWindowHeight r) = size ->
    mSummedAreaTableTO r = Some SummedRowsTO ->
    apply_ops tile ttile ops r = Some r' ->
    (mBackbufferWidth r', mBackbufferHeight r') = last_resize size ops
    /\ (mWindowWidth r', mWindowHeight r') = last_resize size ops
    /\ mSummedAreaTableTO r' = Some SummedRowsTO
    /\ (forallb (fun op => negb (is_resize op)) ops = true ->
        buffer_dims r' = buffer_dims r).
Proof.
  induction ops as [|op ops IH]; intros size r r' Hb Hw Ha Hrun.
  - injection Hrun as <-. cbn [last_resize]. auto.
  - change (match apply_op tile ttile op r with
            | Some r1 => apply_ops tile ttile ops r1
            | None => None
            end = Some r') in Hrun.
    destruct (apply_op tile ttile op r) as [r1|] eqn:Hop; [|discriminate].
    destruct op as [w h|inp]; unfold apply_op in Hop; cbn [last_resize].
    + destruct (Resize_sets_size tile w h r r1 Hop) as (Hb1 & Hw1 & Ha1).
      destruct (IH (w, h) r1 r' Hb1 Hw1 Ha1 Hrun) as (H1 & H2 & H3 & _).
      split; [exact H1|]. split; [exact H2|]. split; [exact H3|].
      cbn [forallb is_resize negb andb]. discriminate.
    + assert (Hr1 : snd (Paint tile ttile inp r) = r1) by congruence.
      destruct (Paint_buffer_dims tile ttile inp r) as (Hd1 & Ha1 & Hw1 & Hh1).
      rewrite Hr1 in Hd1, Ha1, Hw1, Hh1.
      assert (Hbb : (mBackbufferWidth r1, mBackbufferHeight r1) = size).
      { rewrite <- Hb.
        change (bd_backbuffer (buffer_dims r1) = bd_backbuffer (buffer_dims r)).
        rewrite Hd1. reflexivity. }
      assert (Hww : (mWindowWidth r1, mWindowHeight r1) = size) by congruence.
      destruct (IH size r1 r' Hbb Hww ltac:(congruence) Hrun) as (H1 & H2 & H3 & H4).
      split; [exact H1|]. split; [exact H2|]. split; [exact H3|].
      cbn [forallb is_resize negb andb]. intros Hall. rewrite (H4 Hall). exact Hd1.
Qed.

(** X4.  After a [Resize] to [w] by [h], whenever a further sequence of
    [Resize] and [Paint] calls runs to its end, [GetRenderWidth] and
    [GetRenderHeight] then return the size given to the last [Resize] of
    the sequence ([w] by [h] when it has none), which is also the window
    size, and the table pointer still refers to [SummedRowsTO]; over a
    sequence of [Paint] calls alone no buffer or texture that [Resize]
    allocated changes its size. *)
Theorem render_size_is_last_resize tile ttile w h r0 r1 ops r :
  Resize tile w h r0 = Some r1 ->
  apply_ops tile ttile ops r1 = Some r ->
  (GetRenderWidth r, GetRenderHeight r) = last_resize (w, h) ops
  /\ (mWindowWidth r, mWindowHeight r) = last_resize (w, h) ops
  /\ mSummedAreaTableTO r = Some SummedRowsTO
  /\ (forallb (fun op => negb (is_resize op)) ops = true ->
      buffer_dims r = buffer_dims r1).
Proof.
  intros HR Hrun.
  destruct (Resize_sets_size tile w h r0 r1 HR) as (Hb & Hw & Ha).
  unfold GetRenderWidth, GetRenderHeight.
  exact (apply_ops_last_resize tile ttile ops (w, h) r1 r Hb Hw Ha Hrun).
Qed.

Lemma render_size_is_last_resize_witness :
  let ops := [OpPaint all_programs_ready; OpResize 1920 1080;
              OpPaint all_programs_ready] in
  exists r1 r,
    Resize 256 800 600 (Init NewRenderer) = Some r1
    /\ apply_ops 256 16 ops r1 = Some r
    /\ (GetRenderWidth r, GetRenderHeight r) = (1920, 1080)
    /\ (mWindowWidth r, mWindowHeight r) = (1920, 1080)
    /\ mSummedAreaTableTO r = Some SummedRowsTO.
Proof.
  intros ops. eexists. eexists. split; [reflexivity|]. split; [reflexivity|].
  destruct (render_size_is_last_resize 256 16 800 600 (Init NewRenderer) _ ops _
              eq_refl eq_refl) as (H1 & H2 & H3 & _).
  split; [exact H1|]. split; [exact H2 | exact H3].
Defined.

(** ** The first frame *)

Lemma apply_ops_resizes_first_frame tile ttile ops :
  forall r r', forallb is_resize ops = true ->
    apply_ops tile ttile ops r = Some r' -> mFirstFrame r' = mFirstFrame r.
Proof.
  induction ops as [|op ops IH]; intros r r' Hall Hrun.
  - injection Hrun as <-. reflexivity.
  - change (match apply_op tile ttile op r with
            | Some r1 => apply_ops tile ttile ops r1
            | None => None
            end = Some r') in Hrun.
    cbn [forallb] in Hall. apply andb_true_iff in Hall as [Hop Hall].
    destruct op as [w h|inp]; [|discriminate].
    unfold apply_op in Hrun.
    destruct (Resize tile w h r) as [r1|] eqn:HR; [|discriminate].
    rewrite (IH r1 r' Hall Hrun).
    unfold Resize in HR.
    destruct (single_tier_ok tile (padded_dim tile w)); [|discriminate].
    destruct (single_tier_ok tile (padded_dim tile h)); [|discriminate].
    injection HR as <-. reflexivity.
Qed.

Lemma apply_ops_not_first_frame tile ttile ops :
  forall r r', mFirstFrame r = false ->
    apply_ops tile ttile ops r = Some r' -> mFirstFrame r' = false.
Proof.
  induction ops as [|op ops IH]; intros r r' Hf Hrun.
  - injection Hrun as <-. exact Hf.
  - change (match apply_op tile ttile op r with
            | Some r1 => apply_ops tile ttile ops r1
            | None => None
            end = Some r') in Hrun.
    destruct (apply_op tile ttile op r) as [r1|] eqn:Hop; [|discriminate].
    apply (IH r1 r'); [|exact Hrun].
    destruct op as [w h|inp]; unfold apply_op in Hop.
    + unfold Resize in Hop.
      destruct (single_tier_ok tile (padded_dim tile w)); [|discriminate].
      destruct (single_tier_ok tile (padded_dim tile h)); [|discriminate].
      injection Hop as <-. exact Hf.
    + assert (Hr1 : snd (Paint tile ttile inp r) = r1) by congruence.
      rewrite <- Hr1, Paint_state. reflexivity.
Qed.

(** X5.  After [Init] and any number of [Resize] calls, the first frame
    painted reads no timestamp, whether the profiling window is open or not
    (no query has been issued yet).  It clears [mFirstFrame], which no later
    [Resize] or [Paint] sets again: every later frame painted with the
    profiling window open reads the timestamps of the scene pass. *)
Theorem first_frame_reads_no_timestamp tile ttile r0 resizes r inp :
  forallb is_resize resizes = true ->
  apply_ops tile ttile resizes (Init r0) = Some r ->
  gpu_stamps_read (fst (Paint tile ttile inp r)) = []
  /\ cpu_stamps_read (fst (Paint tile ttile inp r)) = []
  /\ forall ops r' inp',
       apply_ops tile ttile ops (snd (Paint tile ttile inp r)) = Some r' ->
       profiling_window_open inp' = true ->
       In GPUTimestamps.RenderSceneStart (gpu_stamps_read (fst (Paint tile ttile inp' r')))
       /\ In GPUTimestamps.RenderSceneEnd (gpu_stamps_read (fst (Paint tile ttile inp' r'))).
Proof.
  intros Hall Hrun.
  pose proof (apply_ops_resizes_first_frame tile ttile resizes (Init r0) r Hall Hrun) as Hf.
  change (mFirstFrame (Init r0)) with true in Hf.
  assert (Hreads : forall inp1 r1,
            gpu_stamps_read (fst (Paint tile ttile inp1 r1))
            = gpu_stamps_read (fst (UpdateGUI inp1 r1))
            /\ cpu_stamps_read (fst (Paint tile ttile inp1 r1))
               = cpu_stamps_read (fst (UpdateGUI inp1 r1))).
  { intros inp1 r1. rewrite Paint_calls.
    destruct (frame_calls_read_nothing tile ttile inp1 (snd (UpdateGUI inp1 r1)))
      as [Hg Hc].
    unfold gpu_stamps_read, cpu_stamps_read in *.
    rewrite !omap_app, Hg, Hc. cbn [omap app]. rewrite !app_nil_r. split; reflexivity. }
  destruct (Hreads inp r) as [-> ->].
  split; [|split].
  - unfold UpdateGUI. cbn [fst]. rewrite Hf, andb_false_r. reflexivity.
  - unfold UpdateGUI. cbn [fst]. rewrite Hf, andb_false_r. reflexivity.
  - intros ops r' inp' Hops Hopen.
    assert (Hf' : mFirstFrame r' = false).
    { apply (apply_ops_not_first_frame tile ttile ops
               (snd (Paint tile ttile inp r)) r'); [|exact Hops].
      rewrite Paint_state. reflexivity. }
    destruct (Hreads inp' r') as [-> _].
    unfold UpdateGUI. cbn [fst]. rewrite Hf', Hopen.
    destruct (mUseCPUForSAT r'); vm_compute; auto.
Qed.

Lemma first_frame_reads_no_timestamp_witness :
  exists r,
    apply_ops 256 16 [OpResize 800 600; OpResize 1920 1080] (Init NewRenderer) = Some r
    /\ gpu_stamps_read (fst (Paint 256 16 all_programs_ready r)) = []
    /\ cpu_stamps_read (fst (Paint 256 16 all_programs_ready r)) = [].
Proof.
  eexists. split; [reflexivity|].
  destruct (first_frame_reads_no_timestamp 256 16 NewRenderer
              [OpResize 800 600; OpResize 1920 1080] _ all_programs_ready
              eq_refl eq_refl) as (Hg & Hc & _).
  split; [exact Hg | exact Hc].
Defined.

(** ** Timestamp pairs *)

(** X6.  In every frame, whatever the GUI input, the program names and the
    flags: the GPU queries are issued as complete pairs (the start of a pair
    followed at once, among the queries, by its end), each pair at most once
    and in increasing order of the enumeration; so are the CPU counter
    reads.  The pairs are those of the stages the flags select (scene,
    resolve, GUI and window blit always; with DoF enabled the DoF blur and
    the pairs of the SAT mode): a stage whose program is not ready still
    issues its pair. *)
Theorem timestamps_written_in_pairs tile ttile inp r :
  let r1 := snd (UpdateGUI inp r) in
  let gpu_pairs :=
    [0; 1]
    ++ (if mEnableDoF r1
        then (if mUseCPUForSAT r1 then [2; 4] else [3]) ++ [5]
        else [])
    ++ [6; 7] in
  let cpu_pairs := if mEnableDoF r1 && mUseCPUForSAT r1 then [0; 1; 2] else [] in
  gpu_stamps_written (fst (Paint tile ttile inp r)) = flat_map stamp_pair gpu_pairs
  /\ cpu_stamps_written (fst (Paint tile ttile inp r)) = flat_map stamp_pair cpu_pairs
  /\ StronglySorted Z.lt gpu_pairs
  /\ StronglySorted Z.lt cpu_pairs.
Proof.
  intros r1 gpu_pairs cpu_pairs. unfold gpu_pairs, cpu_pairs.
  rewrite Paint_calls. fold r1.
  destruct (UpdateGUI_writes_nothing inp r) as [Hg0 Hc0].
  assert (Hg : gpu_stamps_written (fst (UpdateGUI inp r) ++ [UpdatePrograms]
                                   ++ frame_calls tile ttile inp r1)
               = gpu_stamps_written (frame_calls tile ttile inp r1)).
  { unfold gpu_stamps_written in *. rewrite !omap_app, Hg0. reflexivity. }
  assert (Hc : cpu_stamps_written (fst (UpdateGUI inp r) ++ [UpdatePrograms]
                                   ++ frame_calls tile ttile inp r1)
               = cpu_stamps_written (frame_calls tile ttile inp r1)).
  { unfold cpu_stamps_written in *. rewrite !omap_app, Hc0. reflexivity. }
  rewrite Hg, Hc.
  destruct (mEnableDoF r1) eqn:Hdof.
  - destruct (dof_enabled_stamps_written tile ttile inp r1 Hdof) as [-> ->].
    destruct (mUseCPUForSAT r1);
      (split; [reflexivity|]; split; [reflexivity|]; split; repeat constructor; lia).
  - destruct (dof_disabled_no_sat tile ttile inp r1 Hdof) as (_ & -> & ->).
    split; [reflexivity|]. split; [reflexivity|]. split; repeat constructor; lia.
Qed.

(** ** Render targets *)

Lemma framebuffer_trace_skip b pre rest :
  forallb (fun c => match c with
                    | glGetQueryObjectui64v _ | ReadCPUTimestamp _
                    | glTexSubImage2D _ _ => true
                    | _ => false
                    end) pre = true ->
  framebuffer_trace b (pre ++ rest) = framebuffer_trace b rest.
Proof.
  induction pre as [|c pre IH]; intros Hall; [reflexivity|].
  cbn [forallb] in Hall. apply andb_true_iff in Hall as [Hc Hall].
  destruct c; try discriminate; cbn; rewrite (IH Hall);
    destruct (framebuffer_trace b rest); reflexivity.
Qed.

Lemma framebuffer_trace_tex_rows b w rows rest :
  framebuffer_trace b (map (fun row => glTexSubImage2D row w) rows ++ rest)
  = framebuffer_trace b rest.
Proof.
  apply framebuffer_trace_skip. induction rows; [reflexivity|]. exact IHrows.
Qed.

Lemma framebuffer_trace_UpdateGUI b inp r rest :
  framebuffer_trace b (fst (UpdateGUI inp r) ++ rest) = framebuffer_trace b rest.
Proof.
  apply framebuffer_trace_skip. unfold UpdateGUI. cbn [fst].
  destruct (profiling_window_open inp && negb (mFirstFrame r)); [|reflexivity].
  destruct (mUseCPUForSAT r); reflexivity.
Qed.

(** X7.  Whatever framebuffers are bound when a frame starts: the scene is
    cleared and drawn into the multisampled framebuffer; the resolve copies
    colour and depth from the multisampled to the single-sampled one; the
    readback of the CPU path reads the single-sampled one; the DoF draw and
    the GUI go to the single-sampled one, the GUI after the DoF draw; the
    last copy takes the colour of the single-sampled framebuffer to the
    default framebuffer.  Nothing else is drawn, read back or copied, and
    the frame leaves the default framebuffer bound for reading and for
    drawing. *)
Theorem frame_render_targets tile ttile inp r b :
  let r1 := snd (UpdateGUI inp r) in
  framebuffer_trace b (fst (Paint tile ttile inp r))
  = ((if program_name inp SceneSP =? 0 then []
      else [DrawsTo (glClear (Z.lor GL_COLOR_BUFFER_BIT GL_DEPTH_BUFFER_BIT))
                    BackbufferFBOMS;
            DrawsTo SceneDraw BackbufferFBOMS])
     ++ [Copies (Z.lor GL_COLOR_BUFFER_BIT GL_DEPTH_BUFFER_BIT)
                BackbufferFBOMS BackbufferFBOSS]
     ++ (if mEnableDoF r1
         then (if mUseCPUForSAT r1 then [ReadsFrom BackbufferFBOSS] else [])
              ++ (if program_name inp DepthOfFieldSP =? 0 then []
                  else [DrawsTo (glDrawArrays 3) BackbufferFBOSS])
         else [])
     ++ [DrawsTo ImGuiRender BackbufferFBOSS;
         Copies GL_COLOR_BUFFER_BIT BackbufferFBOSS DefaultFBO],
     mkFramebufferBinding DefaultFBO DefaultFBO).
Proof.
  intros r1. rewrite Paint_calls, framebuffer_trace_UpdateGUI. fold r1.
  destruct r1 as [first bw bh cms dms css dss ww wh sw sh cpu rb tb rows alias rwg cols
                    cwg dof].
  unfold frame_calls, dof_calls, render_scene, multisample_resolve, gpu_sat_calls,
    dof_blur_calls, render_gui_calls, blit_to_window_calls.
  cbn [mEnableDoF mUseCPUForSAT].
  destruct b as [rd dr].
  destruct (program_name inp SceneSP =? 0);
  (destruct dof;
   [ destruct cpu;
     [ unfold cpu_sat_calls; cbn [mBackbufferHeight mBackbufferWidth];
       generalize (int_range_list 0 bh); intros texrows;
       cbn [app framebuffer_trace framebuffer_step framebuffer_use];
       rewrite <- !app_assoc, framebuffer_trace_tex_rows
     | destruct (program_name inp SummedAreaTableUpsweepSP =? 0);
       destruct (program_name inp SummedAreaTableDownsweepSP =? 0);
       destruct (program_name inp TransposeSummedAreaTableSP =? 0) ];
     destruct (program_name inp DepthOfFieldSP =? 0)
   | ]);
  reflexivity.
Qed.

(** ** The table the DoF draw samples *)

Lemma int_range_list_rows hi :
  match int_range_list 0 hi with
  | [] => (0 <? hi) = false
  | _ :: _ => (0 <? hi) = true
  end.
Proof.
  unfold int_range_list. rewrite Z.sub_0_r.
  destruct (Z.ltb_spec 0 hi) as [H|H].
  - destruct (Z.to_nat hi) as [|n] eqn:Hn; [lia | reflexivity].
  - replace (Z.to_nat hi) with 0%nat by lia. reflexivity.
Qed.

Lemma add_written_idem t l : add_written t (add_written t l) = add_written t l.
Proof.
  unfold add_written. destruct (mem_tex t l) eqn:Hm; [rewrite Hm; reflexivity|].
  unfold mem_tex. cbn [existsb]. rewrite bool_decide_eq_true_2 by reflexivity.
  reflexivity.
Qed.

Lemma sampled_tables_tex_rows s w rows rest :
  sampled_tables s (map (fun row => glTexSubImage2D row w) rows ++ rest)
  = sampled_tables (match rows with
                    | [] => s
                    | _ => writes_step s (glTexSubImage2D 0 w)
                    end) rest.
Proof.
  revert s. induction rows as [|row rows IH]; intros s; [reflexivity|].
  cbn [map app sampled_tables]. rewrite IH. cbn [app].
  destruct rows as [|row' rows]; [reflexivity|].
  f_equal. unfold writes_step.
  cbn [tw_units tw_images tw_texture_2d tw_written].
  destruct (tw_texture_2d s); [rewrite add_written_idem|]; reflexivity.
Qed.

Lemma sampled_tables_UpdateGUI s inp r rest :
  sampled_tables s (fst (UpdateGUI inp r) ++ rest) = sampled_tables s rest.
Proof.
  unfold UpdateGUI. cbn [fst].
  destruct (profiling_window_open inp && negb (mFirstFrame r)); [|reflexivity].
  destruct (mUseCPUForSAT r); reflexivity.
Qed.

(** X8.  A frame draws with a table bound for sampling only when DoF is
    enabled and the DoF program is ready; the table is the one
    [mSummedAreaTableTO] refers to.  The frame has written that table before
    the draw exactly when the CPU path ran over at least one row, or the GPU
    path ran with its three programs ready: with DoF enabled, the GPU path
    selected and one of the three programs not ready, the DoF draw is still
    issued and samples a table no call of the frame wrote. *)
Theorem dof_samples_table_of_frame tile ttile inp r :
  let r1 := snd (UpdateGUI inp r) in
  sampled_tables nothing_written (fst (Paint tile ttile inp r))
  = if mEnableDoF r1 && negb (program_name inp DepthOfFieldSP =? 0)
    then [(mSummedAreaTableTO r1,
           match mSummedAreaTableTO r1 with
           | Some _ =>
               if mUseCPUForSAT r1 then 0 <? mBackbufferHeight r1
               else negb (program_name inp SummedAreaTableUpsweepSP =? 0)
                    && negb (program_name inp SummedAreaTableDownsweepSP =? 0)
                    && negb (program_name inp TransposeSummedAreaTableSP =? 0)
           | None => false
           end)]
    else [].
Proof.
  intros r1. rewrite Paint_calls, sampled_tables_UpdateGUI. fold r1.
  destruct r1 as [first bw bh cms dms css dss ww wh sw sh cpu rb tb rows alias rwg cols
                    cwg dof].
  unfold frame_calls, dof_calls, render_scene, multisample_resolve, gpu_sat_calls,
    dof_blur_calls, render_gui_calls, blit_to_window_calls.
  cbn [mEnableDoF mUseCPUForSAT mSummedAreaTableTO mBackbufferHeight].
  destruct (program_name inp SceneSP =? 0);
  (destruct dof;
   [ destruct cpu;
     [ unfold cpu_sat_calls; cbn [mBackbufferHeight mBackbufferWidth mSummedAreaTableTO];
       pose proof (int_range_list_rows bh) as Hrows;
       cbn [app sampled_tables writes_step];
       rewrite <- !app_assoc, sampled_tables_tex_rows;
       destruct (int_range_list 0 bh) as [|row0 texrows]; rewrite Hrows
     | destruct (program_name inp SummedAreaTableUpsweepSP =? 0);
       destruct (program_name inp SummedAreaTableDownsweepSP =? 0);
       destruct (program_name inp TransposeSummedAreaTableSP =? 0) ];
     destruct (program_name inp DepthOfFieldSP =? 0);
     destruct alias as [[]|]
   | ]);
  reflexivity.
Qed.

(** ** The dispatches of the scan *)

(** X9.  After a [Resize] (power-of-two tile size, a transpose tile that
    divides it, padding that fits an [int]) the scan dispatches cover the
    image with whole tiles: the up-sweep and the down-sweep of the row pass
    run [ceil(w / TILE)] workgroups on each of the [h] image rows, those of
    the column pass [ceil(h / TILE)] workgroups on each of [w] lines; the
    tiles are at most [TILE] per line, which is what the single workgroup of
    the partial-sum steps can scan, and they make up the table width
    (height) exactly; the transposes cover the whole table. *)
Theorem scan_dispatches_cover_image k m tile ttile w h r0 r :
  0 <= k <= 30 -> tile = 2 ^ k -> 0 < ttile -> tile = m * ttile ->
  0 <= w -> w + tile - 1 <= INT_MAX -> 0 <= h -> h + tile - 1 <= INT_MAX ->
  Resize tile w h r0 = Some r ->
  let nx := ceil_div w tile in
  let ny := ceil_div h tile in
  In (glDispatchCompute nx h 1) (upsweep_calls tile r SATPass_Rows)
  /\ In (glDispatchCompute nx h 1) (downsweep_calls tile r SATPass_Rows)
  /\ In (glDispatchCompute ny w 1) (upsweep_calls tile r SATPass_Cols)
  /\ In (glDispatchCompute ny w 1) (downsweep_calls tile r SATPass_Cols)
  /\ In (glDispatchCompute (nx * m) (ny * m) 1) (transpose_calls ttile r SATPass_Rows)
  /\ In (glDispatchCompute (ny * m) (nx * m) 1) (transpose_calls ttile r SATPass_Cols)
  /\ tile * (nx - 1) < w <= nx * tile /\ nx <= tile
  /\ tile * (ny - 1) < h <= ny * tile /\ ny <= tile
  /\ mSummedAreaTableWidth r = nx * tile /\ mSummedAreaTableWidth r = nx * m * ttile
  /\ mSummedAreaTableHeight r = ny * tile /\ mSummedAreaTableHeight r = ny * m * ttile.
Proof.
  intros Hk Ht Htt Hm Hw Hwmax Hh Hhmax HR nx ny.
  pose proof (pow2_bounds k Hk) as Hp.
  assert (Htile : 0 < tile) by lia.
  assert (Hm0 : 0 < m) by nia.
  apply Resize_Some in HR as (Hsw & Hsh & Hbw & Hbh & _ & _ & Htw & Hth & _).
  assert (Hpw : padded_dim tile w = nx * tile)
    by (apply (padded_dim_ceil tile k); unfold INT_MIN; lia).
  assert (Hph : padded_dim tile h = ny * tile)
    by (apply (padded_dim_ceil tile k); unfold INT_MIN; lia).
  pose proof (ceil_div_spec w tile Htile) as Hcw. fold nx in Hcw.
  pose proof (ceil_div_spec h tile Htile) as Hch. fold ny in Hch.
  unfold single_tier_ok in Hsw, Hsh. rewrite Hpw in Hsw. rewrite Hph in Hsh.
  rewrite Z.quot_mul in Hsw by lia. rewrite Z.quot_mul in Hsh by lia.
  apply Z.leb_le in Hsw. apply Z.leb_le in Hsh.
  rewrite Hpw in Htw. rewrite Hph in Hth.
  assert (Hqw : Z.quot (mSummedAreaTableWidth r) tile = nx)
    by (rewrite Htw; apply Z.quot_mul; lia).
  assert (Hqh : Z.quot (mSummedAreaTableHeight r) tile = ny)
    by (rewrite Hth; apply Z.quot_mul; lia).
  assert (Htw' : Z.quot (mSummedAreaTableWidth r) ttile = nx * m)
    by (rewrite Htw, Hm, Z.mul_assoc; apply Z.quot_mul; lia).
  assert (Hth' : Z.quot (mSummedAreaTableHeight r) ttile = ny * m)
    by (rewrite Hth, Hm, Z.mul_assoc; apply Z.quot_mul; lia).
  unfold upsweep_calls, downsweep_calls, transpose_calls.
  rewrite Hqw, Hqh, Htw', Hth', Hbw, Hbh.
  split; [cbn; tauto|]. split; [cbn; tauto|]. split; [cbn; tauto|].
  split; [cbn; tauto|]. split; [cbn; tauto|]. split; [cbn; tauto|].
  split; [lia|]. split; [lia|]. split; [lia|]. split; [lia|].
  split; [lia|]. split; [rewrite Htw, Hm; lia|]. split; [lia|]. rewrite Hth, Hm; lia.
Qed.

Lemma scan_dispatches_cover_image_witness :
  exists r,
    Resize 256 800 600 NewRenderer = Some r
    /\ In (glDispatchCompute (ceil_div 800 256) 600 1)
          (upsweep_calls 256 r SATPass_Rows)
    /\ In (glDispatchCompute (ceil_div 600 256) 800 1)
          (upsweep_calls 256 r SATPass_Cols)
    /\ 256 * (ceil_div 800 256 - 1) < 800 <= ceil_div 800 256 * 256.
Proof.
  eexists. split; [reflexivity|].
  destruct (scan_dispatches_cover_image 8 16 256 16 800 600 NewRenderer _
              ltac:(lia) eq_refl ltac:(lia) eq_refl ltac:(lia)
              ltac:(unfold INT_MAX; lia) ltac:(lia) ltac:(unfold INT_MAX; lia) eq_refl)
    as (H1 & _ & H3 & _ & _ & _ & H7 & _).
  split; [exact H1|]. split; [exact H3 | exact H7].
Defined.

(** ** What the profiling window reads *)

(** X10.  When a frame was painted with DoF enabled, the profiling window
    of the next frame, if open, reads exactly the timestamps that frame
    wrote: the same GPU queries in the same order, and for each CPU pair
    that was written its end and its start.  The selection by SAT mode in
    [UpdateGUI] neither skips a populated pair nor reads one the frame left
    out, also when the mode was switched in the GUI of the frame before. *)
Theorem profiling_reads_what_was_written tile ttile inp1 inp2 r :
  let frame1 := Paint tile ttile inp1 r in
  let frame2 := Paint tile ttile inp2 (snd frame1) in
  mEnableDoF (snd frame1) = true -> profiling_window_open inp2 = true ->
  gpu_stamps_read (fst frame2) = gpu_stamps_written (fst frame1)
  /\ exists cpu_pairs,
       cpu_stamps_written (fst frame1) = flat_map stamp_pair cpu_pairs
       /\ cpu_stamps_read (fst frame2)
          = flat_map (fun i => [i * 2 + 1; i * 2 + 0]) cpu_pairs.
Proof.
  intros frame1 frame2. unfold frame2, frame1. rewrite !Paint_calls, !Paint_state.
  set (r1 := snd (UpdateGUI inp1 r)).
  cbn [mEnableDoF set_flags]. intros Hdof Hopen.
  destruct (UpdateGUI_writes_nothing inp1 r) as [Hgw Hcw].
  destruct (dof_enabled_stamps_written tile ttile inp1 r1 Hdof) as [Hg1 Hc1].
  destruct (frame_calls_read_nothing tile ttile inp2
              (snd (UpdateGUI inp2 (set_flags false (mUseCPUForSAT r1) (mEnableDoF r1) r1))))
    as [Hg2 Hc2].
  unfold gpu_stamps_written, gpu_stamps_read, cpu_stamps_written, cpu_stamps_read in *.
  rewrite !omap_app, Hg2, Hc2, Hg1, Hc1, Hgw, Hcw.
  unfold UpdateGUI. cbn [fst mFirstFrame mUseCPUForSAT set_flags negb].
  rewrite Hopen.
  destruct (mUseCPUForSAT r1).
  - split; [reflexivity|]. exists [0; 1; 2]. split; reflexivity.
  - split; [reflexivity|]. exists []. split; reflexivity.
Qed.

Lemma profiling_reads_what_was_written_witness :
  let r := default NewRenderer (Resize 256 800 600 (Init NewRenderer)) in
  let frame1 := Paint 256 16 all_programs_ready r in
  let frame2 := Paint 256 16 all_programs_ready (snd frame1) in
  gpu_stamps_read (fst frame2) = gpu_stamps_written (fst frame1)
  /\ exists cpu_pairs,
       cpu_stamps_written (fst frame1) = flat_map stamp_pair cpu_pairs
       /\ cpu_stamps_read (fst frame2)
          = flat_map (fun i => [i * 2 + 1; i * 2 + 0]) cpu_pairs.
Proof.
  intros r.
  apply (profiling_reads_what_was_written 256 16 all_programs_ready all_programs_ready r);
    reflexivity.
Defined.

(** ** The CPU loops stay inside the host arrays *)

Lemma write_at_Some {A} (l : list A) i v :
  (i < length l)%nat -> write_at l i v = Some (<[i := v]> l).
Proof. intros H. unfold write_at. rewrite decide_True by exact H. reflexivity. Qed.

Lemma fold_left_checked {A} (P : nat -> A -> Prop) (f : A -> nat -> A)
    (g : A -> nat -> option A) lo n a :
  P lo a ->
  (forall i s, (lo <= i < lo + n)%nat -> P i s ->
     g s i = Some (f s i) /\ P (S i) (f s i)) ->
  fold_left (fun acc i => s ← acc; g s i) (seq lo n) (Some a)
  = Some (fold_left f (seq lo n) a)
  /\ P (lo + n)%nat (fold_left f (seq lo n) a).
Proof.
  revert lo a. induction n as [|n IH]; intros lo a H0 Hstep.
  - rewrite Nat.add_0_r. split; [reflexivity | exact H0].
  - cbn [seq fold_left]. destruct (Hstep lo a ltac:(lia) H0) as [Hg HP].
    cbn [mbind option_bind]. rewrite Hg.
    replace (lo + S n)%nat with (S lo + n)%nat by lia.
    apply IH; [exact HP|]. intros i s Hi. apply Hstep. lia.
Qed.

Lemma fold_left_failed {A} (g : option A -> nat -> option A) l :
  (forall i, g None i = None) -> fold_left g l None = None.
Proof. intros Hg. induction l as [|i l IH]; [reflexivity|]. cbn. rewrite Hg. exact IH. Qed.

Section InBounds.

Variable gamma : Z -> Z.

Local Open Scope nat_scope.

Variables W H Wp Hp : nat.
Variable readback : list u8vec4.

Hypothesis W_le : W <= Wp.
Hypothesis H_le : H <= Hp.
Hypothesis W_pos : 0 < H -> 0 < W.
Hypothesis readback_len : length readback = H * W.

Lemma cpu_sum_rows_in_bounds table :
  length table = Wp * Hp ->
  cpu_sum_rows_checked gamma W H Wp readback table
  = Some (cpu_sum_rows gamma W H Wp readback table)
  /\ length (cpu_sum_rows gamma W H Wp readback table) = Wp * Hp.
Proof.
  intros Hlen. unfold cpu_sum_rows_checked, cpu_sum_rows.
  refine (fold_left_checked (fun _ t => length t = Wp * Hp) _ _ 0 H table Hlen _).
  intros row t Hrow Ht. cbv zeta.
  assert (HW : 0 < W) by (apply W_pos; lia).
  rewrite (list_lookup_lookup_total_lt readback (row * W + 0))
    by (rewrite readback_len; nia).
  cbn [mbind option_bind].
  rewrite write_at_Some by (rewrite Ht; apply index_lt; lia).
  cbn [mbind option_bind].
  refine (fold_left_checked (fun _ t => length t = Wp * Hp) _ _ 1 (W - 1) _ _ _).
  - rewrite length_insert. exact Ht.
  - intros col s Hcol Hs.
    rewrite (list_lookup_lookup_total_lt readback (row * W + col))
      by (rewrite readback_len; nia).
    cbn [mbind option_bind].
    rewrite (list_lookup_lookup_total_lt s (row * Wp + (col - 1)))
      by (rewrite Hs; apply index_lt; lia).
    cbn [mbind option_bind].
    rewrite write_at_Some by (rewrite Hs; apply index_lt; lia).
    split; [reflexivity|]. rewrite length_insert. exact Hs.
Qed.

Lemma cpu_sum_cols_in_bounds table :
  length table = Wp * Hp ->
  cpu_sum_cols_checked W H Wp table = Some (cpu_sum_cols W H Wp table)
  /\ length (cpu_sum_cols W H Wp table) = Wp * Hp.
Proof.
  intros Hlen. unfold cpu_sum_cols_checked, cpu_sum_cols.
  refine (fold_left_checked (fun _ t => length t = Wp * Hp) _ _ 0 W table Hlen _).
  intros col t Hcol Ht.
  refine (fold_left_checked (fun _ t => length t = Wp * Hp) _ _ 1 (H - 1) _ Ht _).
  intros row s Hrow Hs.
  rewrite (list_lookup_lookup_total_lt s (row * Wp + col))
    by (rewrite Hs; apply index_lt; lia).
  cbn [mbind option_bind].
  rewrite (list_lookup_lookup_total_lt s ((row - 1) * Wp + col))
    by (rewrite Hs; apply index_lt; lia).
  cbn [mbind option_bind].
  rewrite write_at_Some by (rewrite Hs; apply index_lt; lia).
  split; [reflexivity|]. rewrite length_insert. exact Hs.
Qed.

Lemma cpu_sat_in_bounds table :
  length table = Wp * Hp ->
  cpu_sat_checked gamma W H Wp readback table
  = Some (cpu_sat gamma W H Wp readback table).
Proof.
  intros Hlen. unfold cpu_sat_checked, cpu_sat.
  destruct (cpu_sum_rows_in_bounds table Hlen) as [-> Hl].
  cbn [mbind option_bind]. apply cpu_sum_cols_in_bounds. exact Hl.
Qed.

End InBounds.

Lemma Resize_within_ceiling_succeeds k tile w h r :
  0 <= k <= 30 -> tile = 2 ^ k ->
  INT_MIN <= w -> w + tile - 1 <= INT_MAX ->
  INT_MIN <= h -> h + tile - 1 <= INT_MAX ->
  w <= tile * tile -> h <= tile * tile ->
  is_Some (Resize tile w h r).
Proof.
  intros Hk Ht Hw1 Hw2 Hh1 Hh2 Hw Hh.
  apply (single_tier_ceiling k tile w Hk Ht Hw1 Hw2) in Hw.
  apply (single_tier_ceiling k tile h Hk Ht Hh1 Hh2) in Hh.
  unfold Resize. rewrite Hw, Hh. eauto.
Qed.

Lemma Resize_host_arrays tile w h r0 r :
  Resize tile w h r0 = Some r ->
  mCPUBackbufferReadback r = wrap_int (w * h)
  /\ mCPUSummedAreaTable r
     = wrap_int (mSummedAreaTableWidth r * mSummedAreaTableHeight r).
Proof.
  unfold Resize. intros HR.
  destruct (single_tier_ok tile (padded_dim tile w)); [|discriminate].
  destruct (single_tier_ok tile (padded_dim tile h)); [|discriminate].
  injection HR as <-. split; reflexivity.
Qed.

(** X11.  After a [Resize] (power-of-two tile size, sizes whose padding fits
    an [int], a table whose element count fits an [int], and a width that is
    not zero unless the height is), the two loop nests of the CPU path read
    and write only inside the two host arrays [Resize] allocated: run with
    every index checked, they fail nowhere and give the table of the
    unchecked loops. *)
Theorem cpu_table_accesses_in_bounds gamma k tile w h r0 r readback table :
  0 <= k <= 30 -> tile = 2 ^ k ->
  0 <= w -> w + tile - 1 <= INT_MAX ->
  0 <= h -> h + tile - 1 <= INT_MAX ->
  (0 < h -> 0 < w) ->
  Resize tile w h r0 = Some r ->
  mSummedAreaTableWidth r * mSummedAreaTableHeight r <= INT_MAX ->
  length readback = Z.to_nat (mCPUBackbufferReadback r) ->
  length table = Z.to_nat (mCPUSummedAreaTable r) ->
  Paint_cpu_table_checked gamma r readback table
  = Some (cpu_sat gamma (Z.to_nat w) (Z.to_nat h)
                  (Z.to_nat (mSummedAreaTableWidth r)) readback table).
Proof.
  intros Hk Ht Hw Hwmax Hh Hhmax Hwh HR Hfit Hrb Htb.
  pose proof (pow2_bounds k Hk) as Hp.
  assert (Htile : 0 < tile) by lia.
  destruct (Resize_host_arrays tile w h r0 r HR) as [Erb Etb].
  apply Resize_Some in HR as (_ & _ & Hbw & Hbh & _ & _ & Htw & Hth & _).
  assert (Hpw : padded_dim tile w = ceil_div w tile * tile)
    by (apply (padded_dim_ceil tile k); unfold INT_MIN; lia).
  assert (Hph : padded_dim tile h = ceil_div h tile * tile)
    by (apply (padded_dim_ceil tile k); unfold INT_MIN; lia).
  pose proof (ceil_div_spec w tile Htile) as Hcw.
  pose proof (ceil_div_spec h tile Htile) as Hch.
  set (sw := mSummedAreaTableWidth r) in *.
  set (sh := mSummedAreaTableHeight r) in *.
  assert (Hsw : w <= sw) by lia.
  assert (Hsh : h <= sh) by lia.
  assert (Hprod : 0 <= w * h <= sw * sh) by nia.
  unfold INT_MAX in Hfit.
  rewrite Erb, wrap_int_id in Hrb by (unfold int_range, INT_MIN, INT_MAX; lia).
  rewrite Etb, wrap_int_id in Htb by (unfold int_range, INT_MIN, INT_MAX; lia).
  unfold Paint_cpu_table_checked. rewrite Hbw, Hbh. fold sw.
  apply (cpu_sat_in_bounds gamma (Z.to_nat w) (Z.to_nat h) (Z.to_nat sw) (Z.to_nat sh)).
  - apply Z2Nat.inj_le; lia.
  - apply Z2Nat.inj_le; lia.
  - intros H0. apply (Z2Nat.inj_lt 0 w); lia.
  - rewrite Hrb, <- Z2Nat.inj_mul by lia. f_equal. lia.
  - rewrite Htb. apply Z2Nat.inj_mul; lia.
Qed.

Lemma cpu_table_accesses_in_bounds_witness :
  exists r,
    Resize 4 6 5 NewRenderer = Some r
    /\ Paint_cpu_table_checked gamma_trunc r (replicate 30 (mk_u8vec4 255 128 18 255))
                               (replicate 64 uvec4_zero)
       = Some (cpu_sat gamma_trunc (Z.to_nat 6) (Z.to_nat 5)
                       (Z.to_nat (mSummedAreaTableWidth r))
                       (replicate 30 (mk_u8vec4 255 128 18 255))
                       (replicate 64 uvec4_zero)).
Proof.
  eexists. split; [reflexivity|].
  apply (cpu_table_accesses_in_bounds gamma_trunc 2 4 6 5 NewRenderer);
    [lia | reflexivity | lia | unfold INT_MAX; lia | lia | unfold INT_MAX; lia
     | lia | reflexivity | vm_compute; discriminate | reflexivity | reflexivity].
Defined.

(** X12.  A [Resize] to width zero and a positive height succeeds (for a
    power-of-two tile size and a height up to [TILE * TILE]) and allocates
    an empty readback array; the row loop of the CPU path then reads the
    first pixel of each row all the same: run with every index checked, it
    fails at its first access. *)
Theorem zero_width_cpu_table_out_of_bounds gamma k tile h r0 :
  0 <= k <= 30 -> tile = 2 ^ k ->
  0 < h <= tile * tile -> h + tile - 1 <= INT_MAX ->
  exists r,
    Resize tile 0 h r0 = Some r
    /\ mCPUBackbufferReadback r = 0
    /\ forall readback table,
         length readback = Z.to_nat (mCPUBackbufferReadback r) ->
         Paint_cpu_table_checked gamma r readback table = None.
Proof.
  intros Hk Ht Hh Hhmax.
  pose proof (pow2_bounds k Hk) as Hp.
  assert (Hsome : is_Some (Resize tile 0 h r0)).
  { apply (Resize_within_ceiling_succeeds k tile 0 h r0);
      unfold INT_MIN, INT_MAX in *; try lia. }
  destruct Hsome as [r HR]. exists r. split; [exact HR|].
  destruct (Resize_host_arrays tile 0 h r0 r HR) as [Erb _].
  rewrite Z.mul_0_l in Erb. change (wrap_int 0) with 0 in Erb.
  split; [exact Erb|]. intros readback table Hrb.
  rewrite Erb in Hrb. change (Z.to_nat 0) with 0%nat in Hrb.
  apply nil_length_inv in Hrb. subst readback.
  apply Resize_Some in HR as (_ & _ & Hbw & Hbh & _).
  unfold Paint_cpu_table_checked, cpu_sat_checked, cpu_sum_rows_checked.
  rewrite Hbw, Hbh. change (Z.to_nat 0) with 0%nat.
  destruct (Z.to_nat h) as [|n] eqn:Hn; [lia|].
  cbn [seq fold_left mbind option_bind].
  change (@nil u8vec4 !! (0 * 0 + 0)%nat) with (@None u8vec4).
  cbn [mbind option_bind].
  rewrite fold_left_failed by reflexivity. reflexivity.
Qed.

Lemma zero_width_cpu_table_out_of_bounds_witness :
  exists r,
    Resize 256 0 600 (Init NewRenderer) = Some r
    /\ mCPUBackbufferReadback r = 0
    /\ forall readback table,
         length readback = Z.to_nat (mCPUBackbufferReadback r) ->
         Paint_cpu_table_checked gamma_trunc r readback table = None.
Proof.
  apply (zero_width_cpu_table_out_of_bounds gamma_trunc 8 256 600 (Init NewRenderer));
    [lia | reflexivity | lia | unfold INT_MAX; lia].
Defined.

(** ** What the CPU path leaves untouched *)

Section Padding.

Variable gamma : Z -> Z.

Local Open Scope nat_scope.

Variables W H Wp : nat.
Variable readback : list u8vec4.
Variable table0 : list uvec4.
Variable i : nat.

Hypothesis W_pos : 0 < W.
Hypothesis outside : forall r c, r < H -> c < W -> i <> r * Wp + c.

Lemma cpu_sum_rows_outside table :
  length table = length table0 /\ table !!! i = table0 !!! i ->
  length (cpu_sum_rows gamma W H Wp readback table) = length table0
  /\ cpu_sum_rows gamma W H Wp readback table !!! i = table0 !!! i.
Proof.
  intros Hinit. unfold cpu_sum_rows.
  refine (fold_left_seq_inv
            (fun _ t => length t = length table0 /\ t !!! i = table0 !!! i)
            _ 0 H table Hinit _).
  intros row t Hrow [Hl Hi]. cbv zeta.
  refine (fold_left_seq_inv
            (fun _ t => length t = length table0 /\ t !!! i = table0 !!! i)
            _ 1 (W - 1) _ _ _).
  - rewrite length_insert. split; [exact Hl|].
    rewrite list_lookup_total_insert_ne; [exact Hi|].
    intros Heq. apply (outside row 0); [lia | lia | congruence].
  - intros col s Hcol [Hsl Hsi]. rewrite length_insert. split; [exact Hsl|].
    rewrite list_lookup_total_insert_ne; [exact Hsi|].
    intros Heq. apply (outside row col); [lia | lia | congruence].
Qed.

Lemma cpu_sum_cols_outside table :
  length table = length table0 /\ table !!! i = table0 !!! i ->
  length (cpu_sum_cols W H Wp table) = length table0
  /\ cpu_sum_cols W H Wp table !!! i = table0 !!! i.
Proof.
  intros Hinit. unfold cpu_sum_cols.
  refine (fold_left_seq_inv
            (fun _ t => length t = length table0 /\ t !!! i = table0 !!! i)
            _ 0 W table Hinit _).
  intros col t Hcol Ht.
  refine (fold_left_seq_inv
            (fun _ t => length t = length table0 /\ t !!! i = table0 !!! i)
            _ 1 (H - 1) _ Ht _).
  intros row s Hrow [Hsl Hsi]. rewrite length_insert. split; [exact Hsl|].
  rewrite list_lookup_total_insert_ne; [exact Hsi|].
  intros Heq. apply (outside row col); [lia | lia | congruence].
Qed.

End Padding.

(** X13.  The two loop nests of the CPU path write the cells of the image
    region and no others: for a width that is not zero, every cell of the
    table in a padding column ([W <= c < Wp]) or in a row from [H] on holds
    after them what it held before, and the table keeps its length.  What
    the padding holds is whatever the array held, not zero. *)
Theorem cpu_sat_leaves_padding gamma (W H Wp : nat) readback table (r c : nat) :
  (0 < W <= Wp)%nat -> (c < Wp)%nat -> (H <= r \/ W <= c)%nat ->
  cell Wp (cpu_sat gamma W H Wp readback table) r c = cell Wp table r c
  /\ length (cpu_sat gamma W H Wp readback table) = length table.
Proof.
  intros [HW HWp] Hc Hout.
  assert (Houtside : forall r' c', (r' < H)%nat -> (c' < W)%nat ->
            (r * Wp + c)%nat <> (r' * Wp + c')%nat).
  { intros r' c' Hr' Hc' Heq.
    apply index_inj in Heq as [-> ->]; [lia | exact Hc | lia]. }
  unfold cpu_sat, cell.
  assert (Hrows : length (cpu_sum_rows gamma W H Wp readback table) = length table
                  /\ cpu_sum_rows gamma W H Wp readback table !!! (r * Wp + c)%nat
                     = table !!! (r * Wp + c)%nat).
  { apply cpu_sum_rows_outside; [exact HW | exact Houtside | split; reflexivity]. }
  assert (Hcols : length (cpu_sum_cols W H Wp (cpu_sum_rows gamma W H Wp readback table))
                  = length table
                  /\ cpu_sum_cols W H Wp (cpu_sum_rows gamma W H Wp readback table)
                       !!! (r * Wp + c)%nat
                     = table !!! (r * Wp + c)%nat).
  { apply cpu_sum_cols_outside; [exact HW | exact Houtside | exact Hrows]. }
  destruct Hcols as [Hl Hi]. split; assumption.
Qed.

Lemma cpu_sat_leaves_padding_witness :
  let readback := replicate 6 (mk_u8vec4 255 255 255 255) in
  let table := replicate 16 (mk_uvec4 7 7 7 7) in
  cell 4 (cpu_sat gamma_trunc 3 2 4 readback table) 1 3 = cell 4 table 1 3
  /\ length (cpu_sat gamma_trunc 3 2 4 readback table) = length table.
Proof.
  intros readback table.
  apply (cpu_sat_leaves_padding gamma_trunc 3 2 4 readback table 1 3); lia.
Defined.

(** ** The upload *)

(** The upload of the CPU path, texel by texel: a texel of the image
    region that lies inside the texture receives the cell of the host table
    for its row and column; every other texel (the padding of the table
    texture) keeps what it held, and the texture keeps its size. *)
Lemma cpu_upload_texels (W H Wp : nat) table t :
  tex_width (cpu_upload W H Wp table t) = tex_width t
  /\ tex_height (cpu_upload W H Wp table t) = tex_height t
  /\ forall x y,
       texel (cpu_upload W H Wp table t) x y
       = if (x <? W)%nat && (y <? H)%nat && in_bounds t x y
         then cell Wp table y x else texel t x y.
Proof.
  unfold cpu_upload.
  refine (fold_left_seq_inv
            (fun n t' =>
               tex_width t' = tex_width t /\ tex_height t' = tex_height t
               /\ forall x y,
                    texel t' x y
                    = if (x <? W)%nat && (y <? n)%nat && in_bounds t x y
                      then cell Wp table y x else texel t x y)
            _ 0 H t _ _).
  - split; [reflexivity|]. split; [reflexivity|]. intros x y.
    rewrite andb_false_r. reflexivity.
  - intros n t' Hn (Hw & Hh & Htex). unfold tex_sub_image_row, store_region.
    cbn [tex_width tex_height texel]. split; [exact Hw|]. split; [exact Hh|].
    intros x y. rewrite Htex. unfold in_bounds. rewrite Hw, Hh. unfold cell.
    destruct (Nat.ltb_spec x W), (Nat.eqb_spec y n), (Nat.ltb_spec y n),
      (Nat.ltb_spec y (S n)), (Nat.ltb_spec x (tex_width t)),
      (Nat.ltb_spec y (tex_height t)); subst; cbn; try reflexivity; lia.
Qed.

(** ** The table without overflow *)

Lemma channels_le_vadd A B a b :
  channels_le A a -> channels_le B b -> channels_le (A + B) (vadd a b).
Proof. unfold channels_le, vadd. cbn. lia. Qed.

Lemma vsum_channels_le B f lo n :
  0 <= B ->
  (forall k, (lo <= k < lo + n)%nat -> channels_le B (f k)) ->
  channels_le (Z.of_nat n * B) (vsum f lo n).
Proof.
  intros HB. induction n as [|n IH]; intros Hf.
  - unfold channels_le. cbn. lia.
  - cbn [vsum]. replace (Z.of_nat (S n) * B) with (Z.of_nat n * B + B) by lia.
    apply channels_le_vadd; [apply IH; intros; apply Hf; lia | apply Hf; lia].
Qed.

Lemma sat_value_channels_le d (r c : nat) :
  (forall x y, channels_le 255 (d x y)) ->
  channels_le (255 * Z.of_nat (S r) * Z.of_nat (S c)) (sat_value d r c).
Proof.
  intros Hd. unfold sat_value, row_prefix.
  replace (255 * Z.of_nat (S r) * Z.of_nat (S c))
    with (Z.of_nat (S r) * (Z.of_nat (S c) * 255)) by lia.
  apply vsum_channels_le; [lia|]. intros y _.
  apply vsum_channels_le; [lia|]. intros x _. apply Hd.
Qed.

(** X14.  For a decode with values in [0 .. 255] (as [gamma_trunc] has
    them), a cell of the table whose row and column satisfy
    [255 * (r+1) * (c+1) < 2^32] holds the exact sum of the decoded pixels
    above and to the left of it: the 32-bit accumulators have not wrapped.
    This covers every cell of an image of up to 16843009 pixels
    (4096 by 4096 for one). *)
Theorem cpu_sat_exact_below_overflow gamma (W H Wp Hp : nat) readback table (r c : nat) :
  (forall v, 0 <= gamma v <= 255) ->
  (W <= Wp)%nat -> (H <= Hp)%nat -> length table = (Wp * Hp)%nat ->
  (r < H)%nat -> (c < W)%nat ->
  255 * Z.of_nat (S r) * Z.of_nat (S c) < 2 ^ 32 ->
  cell Wp (cpu_sat gamma W H Wp readback table) r c
  = sat_value (decoded_pixel gamma W readback) r c
  /\ channels_le (255 * Z.of_nat (S r) * Z.of_nat (S c))
                 (sat_value (decoded_pixel gamma W readback) r c).
Proof.
  intros Hg HW HH Hlen Hr Hc Hfit.
  assert (Hd : forall x y, channels_le 255 (decoded_pixel gamma W readback x y)).
  { intros x y. unfold channels_le, decoded_pixel, decode. cbn. auto. }
  assert (Hrange : forall x y, (x < W)%nat -> (y < H)%nat ->
            uvec4_range (decoded_pixel gamma W readback x y)).
  { intros x y _ _. destruct (Hd x y) as (? & ? & ? & ?).
    unfold uvec4_range, uint_range. lia. }
  pose proof (sat_value_channels_le (decoded_pixel gamma W readback) r c Hd) as Hb.
  split; [|exact Hb].
  destruct (cpu_sat_spec gamma W H Wp Hp readback HW HH Hrange table Hlen) as [_ Hsat].
  rewrite Hsat by assumption. apply wrapv_range.
  destruct Hb as (? & ? & ? & ?). unfold uvec4_range, uint_range. lia.
Qed.

Lemma cpu_sat_exact_below_overflow_witness :
  let readback := replicate 6 (mk_u8vec4 255 128 18 255) in
  let table := replicate 16 uvec4_zero in
  cell 4 (cpu_sat gamma_trunc 3 2 4 readback table) 1 2
  = sat_value (decoded_pixel gamma_trunc 3 readback) 1 2
  /\ channels_le (255 * Z.of_nat 2 * Z.of_nat 3)
                 (sat_value (decoded_pixel gamma_trunc 3 readback) 1 2).
Proof.
  intros readback table.
  apply (cpu_sat_exact_below_overflow gamma_trunc 3 2 4 4 readback table 1 2);
    [exact gamma_trunc_range | lia | lia | reflexivity | lia | lia | lia].
Defined.

(** ** Box sums from four cells *)

Lemma vsum_vadd f g lo n :
  vsum (fun k => vadd (f k) (g k)) lo n = vadd (vsum f lo n) (vsum g lo n).
Proof.
  induction n as [|n IH]; [reflexivity|].
  cbn [vsum]. rewrite IH. unfold vadd. cbn. f_equal; lia.
Qed.

Lemma row_prefix_split d y (x0 x1 : nat) :
  (0 < x0 <= x1)%nat ->
  row_prefix d y x1
  = vadd (row_prefix d y (x0 - 1)) (vsum (fun x => d x y) x0 (x1 + 1 - x0)).
Proof.
  intros Hx. unfold row_prefix.
  replace (S x1) with (x0 + (x1 + 1 - x0))%nat by lia.
  rewrite vsum_app. replace (S (x0 - 1)) with x0 by lia. reflexivity.
Qed.

Lemma sat_value_split d x (y0 y1 : nat) :
  (0 < y0 <= y1)%nat ->
  sat_value d y1 x
  = vadd (sat_value d (y0 - 1) x) (vsum (fun y => row_prefix d y x) y0 (y1 + 1 - y0)).
Proof.
  intros Hy. unfold sat_value.
  replace (S y1) with (y0 + (y1 + 1 - y0))%nat by lia.
  rewrite vsum_app. replace (S (y0 - 1)) with y0 by lia. reflexivity.
Qed.

Lemma sat_value_box d (x0 y0 x1 y1 : nat) :
  (0 < x0 <= x1)%nat -> (0 < y0 <= y1)%nat ->
  vadd (vsub (vsub (sat_value d y1 x1) (sat_value d (y0 - 1) x1))
             (sat_value d y1 (x0 - 1)))
       (sat_value d (y0 - 1) (x0 - 1))
  = box_sum d x0 y0 x1 y1.
Proof.
  intros Hx Hy. unfold box_sum.
  rewrite (sat_value_split d x1 y0 y1 Hy), (sat_value_split d (x0 - 1) y0 y1 Hy).
  rewrite (vsum_ext (fun y => row_prefix d y x1)
             (fun y => vadd (row_prefix d y (x0 - 1))
                            (vsum (fun x => d x y) x0 (x1 + 1 - x0))))
    by (intros; apply row_prefix_split; exact Hx).
  rewrite vsum_vadd.
  generalize (vsum (fun y => vsum (fun x => d x y) x0 (x1 + 1 - x0)) y0 (y1 + 1 - y0)).
  generalize (vsum (fun y => row_prefix d y (x0 - 1)) y0 (y1 + 1 - y0)).
  generalize (sat_value d (y0 - 1) x1). generalize (sat_value d (y0 - 1) (x0 - 1)).
  intros [a1 a2 a3 a4] [b1 b2 b3 b4] [c1 c2 c3 c4] [e1 e2 e3 e4].
  unfold vadd, vsub. cbn. f_equal; lia.
Qed.

Lemma wrap_uint_shift a : exists q, wrap_uint a = a + q * 2 ^ 32.
Proof.
  exists (- (a / 2 ^ 32)). unfold wrap_uint.
  pose proof (Z.div_mod a (2 ^ 32) ltac:(lia)). lia.
Qed.

Lemma wrap_uint_cong a b q : a = b + q * 2 ^ 32 -> wrap_uint a = wrap_uint b.
Proof. intros ->. unfold wrap_uint. apply Z_mod_plus_full. Qed.

Lemma wrap_uint_four_corners a b c e :
  wrap_uint (wrap_uint (wrap_uint (wrap_uint a - wrap_uint b) - wrap_uint c)
             + wrap_uint e)
  = wrap_uint (a - b - c + e).
Proof.
  destruct (wrap_uint_shift a) as [qa ->]. destruct (wrap_uint_shift b) as [qb ->].
  destruct (wrap_uint_shift c) as [qc ->]. destruct (wrap_uint_shift e) as [qe ->].
  destruct (wrap_uint_shift (a + qa * 2 ^ 32 - (b + qb * 2 ^ 32))) as [q1 ->].
  destruct (wrap_uint_shift (a + qa * 2 ^ 32 - (b + qb * 2 ^ 32) + q1 * 2 ^ 32
                             - (c + qc * 2 ^ 32))) as [q2 ->].
  apply (wrap_uint_cong _ _ (qa - qb + q1 - qc + q2 + qe)). lia.
Qed.

Lemma uvec4_four_corners a b c e :
  uvec4_add (uvec4_sub (uvec4_sub (wrapv a) (wrapv b)) (wrapv c)) (wrapv e)
  = wrapv (vadd (vsub (vsub a b) c) e).
Proof.
  unfold uvec4_add, uvec4_sub, wrapv, vadd, vsub. cbn.
  rewrite !wrap_uint_four_corners. reflexivity.
Qed.

(** X15.  The table the CPU path leaves gives the sum of the decoded pixels
    over any box of the image from four of its cells: for columns
    [x0 .. x1] and rows [y0 .. y1] with [0 < x0] and [0 < y0],
    [T[y1][x1] - T[y0-1][x1] - T[y1][x0-1] + T[y0-1][x0-1]], computed on
    [unsigned] as the table is, equals the box sum modulo [2^32], also where
    the cells themselves have wrapped. *)
Theorem cpu_sat_box_sum gamma (W H Wp Hp : nat) readback table (x0 y0 x1 y1 : nat) :
  (forall v, uint_range (gamma v)) ->
  (W <= Wp)%nat -> (H <= Hp)%nat -> length table = (Wp * Hp)%nat ->
  (0 < x0 <= x1)%nat -> (x1 < W)%nat -> (0 < y0 <= y1)%nat -> (y1 < H)%nat ->
  let T := cell Wp (cpu_sat gamma W H Wp readback table) in
  uvec4_add (uvec4_sub (uvec4_sub (T y1 x1) (T (y0 - 1)%nat x1)) (T y1 (x0 - 1)%nat))
            (T (y0 - 1)%nat (x0 - 1)%nat)
  = wrapv (box_sum (decoded_pixel gamma W readback) x0 y0 x1 y1).
Proof.
  intros Hg HW HH Hlen Hx Hx1 Hy Hy1 T.
  assert (Hrange : forall x y, (x < W)%nat -> (y < H)%nat ->
            uvec4_range (decoded_pixel gamma W readback x y)).
  { intros. apply decode_range. exact Hg. }
  destruct (cpu_sat_spec gamma W H Wp Hp readback HW HH Hrange table Hlen) as [_ Hsat].
  unfold T. rewrite !Hsat by lia.
  rewrite uvec4_four_corners, sat_value_box by assumption. reflexivity.
Qed.

Lemma cpu_sat_box_sum_witness :
  let readback := replicate 12 (mk_u8vec4 255 128 18 255) in
  let table := replicate 16 uvec4_zero in
  let T := cell 4 (cpu_sat gamma_trunc 4 3 4 readback table) in
  uvec4_add (uvec4_sub (uvec4_sub (T 2%nat 3%nat) (T (1 - 1)%nat 3%nat))
                       (T 2%nat (2 - 1)%nat))
            (T (1 - 1)%nat (2 - 1)%nat)
  = wrapv (box_sum (decoded_pixel gamma_trunc 4 readback) 2 1 3 2).
Proof.
  intros readback table.
  apply (cpu_sat_box_sum gamma_trunc 4 3 4 4 readback table 2 1 3 2);
    [exact gamma_trunc_uint | lia | lia | reflexivity | lia | lia | lia | lia].
Defined.

(** ** The shape of the decode *)

Lemma pow5_lt_inv a b : 0 <= a -> 0 <= b -> a ^ 5 < b ^ 5 -> a < b.
Proof.
  intros Ha Hb Hlt. destruct (Z.lt_ge_cases a b) as [H|H]; [exact H|].
  exfalso. pose proof (Z.pow_le_mono_l b a 5 (conj Hb H)) as Hle.
  exact (proj1 (Z.lt_nge _ _) Hlt Hle).
Qed.

(** X16.  The decode of the CPU path, taken in exact arithmetic, on the
    channel values [0 .. 255]: it maps 0 to 0 and 255 to 255, it never
    decreases when the channel value increases, and it never exceeds the
    channel value (the decode darkens). *)
Theorem gamma_trunc_monotone_darkening :
  gamma_trunc 0 = 0 /\ gamma_trunc 255 = 255
  /\ (forall c c', 0 <= c <= c' -> c' <= 255 -> gamma_trunc c <= gamma_trunc c')
  /\ (forall c, 0 <= c <= 255 -> gamma_trunc c <= c).
Proof.
  split; [reflexivity|]. split; [vm_compute; reflexivity|]. split.
  - intros c c' Hc Hc'.
    destruct (gamma_trunc_floor c ltac:(lia)) as [Hlo _].
    destruct (gamma_trunc_floor c' ltac:(lia)) as [_ Hhi].
    pose proof (gamma_trunc_range c) as Hr. pose proof (gamma_trunc_range c') as Hr'.
    assert (Hpow : c ^ 11 <= c' ^ 11) by (apply Z.pow_le_mono_l; exact Hc).
    assert (Hs : 0 < 255 ^ 6) by reflexivity.
    revert Hlo Hhi Hpow Hs Hr Hr'.
    generalize (gamma_trunc c) (gamma_trunc c') (c ^ 11) (c' ^ 11) (255 ^ 6).
    clear c c' Hc Hc'. intros g g' p p' s Hlo Hhi Hpow Hs Hr Hr'.
    assert (H5 : g ^ 5 < (g' + 1) ^ 5).
    { apply (Z.mul_lt_mono_pos_r s); [exact Hs|].
      eapply Z.le_lt_trans; [exact Hlo|]. eapply Z.le_lt_trans; [exact Hpow | exact Hhi]. }
    apply pow5_lt_inv in H5; lia.
  - intros c Hc.
    assert (Hall : forallb (fun c => gamma_trunc c <=? c) (map Z.of_nat (seq 0 256)) = true)
      by (vm_cast_no_check (eq_refl true)).
    apply Z.leb_le. exact (byte_cases _ Hall c Hc).
Qed.

(** ** The CPU path from the colour target to the table texture *)

(** X17.  The CPU path as a whole, after a [Resize]: from the colour
    target it reads back, through the two loop nests and the upload, it
    leaves in every texel of the image region of the table texture the sum
    of the decoded colours above and to the left of the texel, itself
    included, modulo [2^32], whatever the host table and the texture held
    before; every texel outside the image region keeps what it held. *)
Theorem cpu_path_table_texture gamma k tile w h r0 r color table target :
  (forall v, uint_range (gamma v)) ->
  0 <= k <= 30 -> tile = 2 ^ k ->
  0 <= w -> w + tile - 1 <= INT_MAX ->
  0 <= h -> h + tile - 1 <= INT_MAX ->
  Resize tile w h r0 = Some r ->
  length table
  = (Z.to_nat (mSummedAreaTableWidth r) * Z.to_nat (mSummedAreaTableHeight r))%nat ->
  tex_width target = Z.to_nat (mSummedAreaTableWidth r) ->
  tex_height target = Z.to_nat (mSummedAreaTableHeight r) ->
  forall x y,
    texel (Paint_cpu_sat gamma r color table target) x y
    = if (x <? Z.to_nat w)%nat && (y <? Z.to_nat h)%nat
      then wrapv (sat_value (fun x y => decode gamma (imageLoad color x y)) y x)
      else texel target x y.
Proof.
  intros Hg Hk Ht Hw Hwmax Hh Hhmax HR Hlen Htw Hth x y.
  destruct (padded_dim_nat tile tile k 1 w Hk Ht ltac:(pose proof (pow2_bounds k Hk); lia)
              ltac:(lia) Hw Hwmax) as (HWle & _).
  destruct (padded_dim_nat tile tile k 1 h Hk Ht ltac:(pose proof (pow2_bounds k Hk); lia)
              ltac:(lia) Hh Hhmax) as (HHle & _).
  apply Resize_Some in HR as (_ & _ & Hbw & Hbh & _ & _ & Hsw & Hsh & _).
  rewrite <- Hsw in HWle. rewrite <- Hsh in HHle.
  unfold Paint_cpu_sat, Paint_cpu_table. rewrite Hbw, Hbh.
  set (W := Z.to_nat w) in *. set (H := Z.to_nat h) in *.
  set (Wp := Z.to_nat (mSummedAreaTableWidth r)) in *.
  set (Hp := Z.to_nat (mSummedAreaTableHeight r)) in *.
  destruct (cpu_upload_texels W H Wp
              (cpu_sat gamma W H Wp (read_pixels W H color) table) target)
    as (_ & _ & ->).
  destruct (Nat.ltb_spec x W) as [Hx|Hx]; [|reflexivity].
  destruct (Nat.ltb_spec y H) as [Hy|Hy]; [|reflexivity].
  rewrite in_bounds_true by lia. cbn [andb].
  assert (Hrange : forall x y, (x < W)%nat -> (y < H)%nat ->
            uvec4_range (decoded_pixel gamma W (read_pixels W H color) x y)).
  { intros. apply decode_range. exact Hg. }
  destruct (cpu_sat_spec gamma W H Wp Hp (read_pixels W H color) HWle HHle Hrange
              table Hlen) as [_ Hsat].
  rewrite Hsat by assumption. f_equal. apply sat_value_ext. intros x' y' Hx' Hy'.
  apply decoded_pixel_read_pixels; lia.
Qed.

Lemma cpu_path_table_texture_witness :
  let color := constant_texture 8 8 white in
  let table := replicate 64 uvec4_zero in
  let target := constant_texture 8 8 uvec4_zero in
  exists r,
    Resize 4 6 5 NewRenderer = Some r
    /\ forall x y,
         texel (Paint_cpu_sat gamma_trunc r color table target) x y
         = if (x <? Z.to_nat 6)%nat && (y <? Z.to_nat 5)%nat
           then wrapv (sat_value (fun x y => decode gamma_trunc (imageLoad color x y)) y x)
           else texel target x y.
Proof.
  intros color table target. eexists. split; [reflexivity|].
  apply (cpu_path_table_texture gamma_trunc 2 4 6 5 NewRenderer _ color table target);
    [exact gamma_trunc_uint | lia | reflexivity | lia | unfold INT_MAX; lia | lia
     | unfold INT_MAX; lia | reflexivity | reflexivity | reflexivity | reflexivity].
Defined.

(** ** The objects [Resize] replaces *)

Lemma unused_name_above k n l : In (k, n) l -> n < unused_name k l.
Proof.
  unfold unused_name, names_of. induction l as [|[k' n'] l IH]; intros Hin; [contradiction|].
  change (omap ?f ((k', n') :: l))
    with (match f (k', n') with Some y => y :: omap f l | None => omap f l end).
  cbn [fst snd]. destruct Hin as [Heq|Hin].
  - injection Heq as -> ->. rewrite bool_decide_eq_true_2 by reflexivity.
    cbn [fold_right]. lia.
  - specialize (IH Hin). destruct (bool_decide (k' = k)); cbn [fold_right]; lia.
Qed.

Lemma unused_name_positive k l : 1 <= unused_name k l.
Proof.
  unfold unused_name. generalize (names_of k l). intros ns.
  induction ns as [|n ns IH]; cbn [fold_right]; lia.
Qed.

Lemma release_owns m acquired s :
  owns None acquired s ->
  owns (Some m) (List.filter (fun m' => negb (bool_decide (m' = m))) acquired)
       (release m s).
Proof.
  intros (Hnd & Hlive & Hinj & Hacq). unfold owns, release. cbn [handle live].
  split; [apply List.NoDup_filter; exact Hnd|]. split; [|split].
  - intros k n. split.
    + intros Hin. apply filter_In in Hin as [Hin Hne].
      apply negb_true_iff, bool_decide_eq_false in Hne.
      apply Hlive in Hin as (Hn & m0 & _ & Hk & Hh). split; [exact Hn|].
      exists m0. split; [|split; assumption].
      intros [= ->]. apply Hne. congruence.
    + intros (Hn & m0 & Hm0 & Hk & Hh). apply filter_In. split.
      * apply Hlive. split; [exact Hn|]. exists m0.
        split; [discriminate|]. split; assumption.
      * apply negb_true_iff, bool_decide_eq_false.
        intros [= Hk' Hn']. apply Hm0. f_equal.
        apply Hinj; [discriminate | discriminate | congruence | congruence | congruence].
  - intros m1 m2 _ _. apply Hinj; discriminate.
  - intros m0 Hin. apply filter_In in Hin as [Hin Hne].
    apply negb_true_iff, bool_decide_eq_false in Hne.
    split; [congruence|]. apply Hacq. exact Hin.
Qed.

Lemma acquire_owns m acquired s :
  owns (Some m) acquired s -> owns None (m :: acquired) (acquire m s).
Proof.
  intros (Hnd & Hlive & Hinj & Hacq). unfold owns, acquire. cbn [handle live].
  pose proof (unused_name_positive (kind m) (live s)) as Hpos.
  assert (Hfresh : ~ In (kind m, unused_name (kind m) (live s)) (live s)).
  { intros Hin. apply unused_name_above in Hin. lia. }
  split; [constructor; assumption|]. split; [|split].
  - intros k n. cbn [In]. rewrite Hlive. split.
    + intros [[= <- <-]|(Hn & m0 & Hm0 & Hk & Hh)].
      * split; [lia|]. exists m. split; [discriminate|]. split; [reflexivity|].
        rewrite bool_decide_eq_true_2 by reflexivity. reflexivity.
      * split; [exact Hn|]. exists m0. split; [discriminate|]. split; [exact Hk|].
        rewrite bool_decide_eq_false_2 by congruence. exact Hh.
    + intros (Hn & m0 & _ & Hk & Hh). destruct (decide (m0 = m)) as [->|Hne].
      * left. rewrite bool_decide_eq_true_2 in Hh by reflexivity. congruence.
      * right. rewrite bool_decide_eq_false_2 in Hh by exact Hne.
        split; [exact Hn|]. exists m0. split; [congruence|]. split; assumption.
  - intros m1 m2 _ _ Hk Hh Hn.
    destruct (decide (m1 = m)) as [E1|E1], (decide (m2 = m)) as [E2|E2].
    + congruence.
    + exfalso.
      rewrite (bool_decide_eq_true_2 (m1 = m) E1),
        (bool_decide_eq_false_2 (m2 = m) E2) in Hh.
      apply Hfresh. apply Hlive. split; [lia|].
      exists m2. split; [congruence|]. split; congruence.
    + exfalso.
      rewrite (bool_decide_eq_false_2 (m1 = m) E1),
        (bool_decide_eq_true_2 (m2 = m) E2) in Hh.
      apply Hfresh. apply Hlive. split; [lia|].
      exists m1. split; [congruence|]. split; congruence.
    + rewrite (bool_decide_eq_false_2 (m1 = m) E1) in Hh, Hn.
      rewrite (bool_decide_eq_false_2 (m2 = m) E2) in Hh.
      apply Hinj; [congruence | congruence | assumption..].
  - intros m0 [<-|Hin]; (split; [discriminate|]).
    + rewrite bool_decide_eq_true_2 by reflexivity. lia.
    + destruct (Hacq m0 Hin) as [Hne Hh].
      rewrite bool_decide_eq_false_2 by congruence. exact Hh.
Qed.

(** A call sequence that keeps the discipline keeps the objects owned. *)
Lemma lifetime_check_sound calls :
  forall pending acquired s acquired',
    owns pending acquired s ->
    lifetime_check pending acquired calls = Some acquired' ->
    owns None acquired' (objects_run calls s).
Proof.
  induction calls as [|c calls IH]; intros pending acquired s acquired' Hown Hcheck.
  - cbn in Hcheck. destruct pending; [discriminate|]. injection Hcheck as <-. exact Hown.
  - cbn [lifetime_check] in Hcheck. unfold objects_run. cbn [fold_left].
    fold (objects_run calls (objects_step s c)). unfold objects_step.
    destruct (released c) as [m|].
    + destruct pending; [discriminate|].
      apply (IH _ _ _ _ (release_owns m acquired s Hown) Hcheck).
    + destruct (generated c) as [m|].
      * destruct pending as [m'|]; [|discriminate].
        destruct (bool_decide_reflect (m = m')) as [E|]; [|discriminate].
        rewrite <- E in Hown.
        apply (IH _ _ _ _ (acquire_owns m acquired s Hown) Hcheck).
      * apply (IH _ _ _ _ Hown Hcheck).
Qed.

Lemma Resize_calls_lifetime tile w h status_ms status_ss :
  single_tier_ok tile (padded_dim tile w) = true ->
  single_tier_ok tile (padded_dim tile h) = true ->
  exists acquired,
    lifetime_check None [] (Resize_calls tile w h status_ms status_ss) = Some acquired
    /\ forall m, In m acquired.
Proof.
  intros Hw Hh. unfold Resize_calls, init_multisampled_fbo, init_singlesampled_fbo,
    init_summed_area_table. cbv zeta. rewrite Hw, Hh. cbn [andb].
  destruct (status_ms =? GL_FRAMEBUFFER_COMPLETE), (status_ss =? GL_FRAMEBUFFER_COMPLETE);
    (eexists; split; [vm_compute; reflexivity|]);
    intros [[]|[]|[]]; cbn [In]; tauto.
Qed.

Lemma owns_all_count s :
  owns None all_members s -> length (live s) = 12%nat.
Proof.
  intros (Hnd & Hlive & Hinj & Hacq).
  assert (Hall : forall m, In m all_members) by (intros [[]|[]|[]]; cbn; tauto).
  assert (Hperm : Permutation (live s) (map (fun m => (kind m, handle s m)) all_members)).
  { apply Permutation.NoDup_Permutation; [exact Hnd| |].
    - apply Finite.Injective_map_NoDup.
      + intros m1 m2 [= Hk Hh].
        apply Hinj; [discriminate | discriminate | exact Hk | exact Hh |].
        apply Hacq, Hall.
      + repeat constructor; cbn; intuition discriminate.
    - intros [k n]. rewrite Hlive, in_map_iff. split.
      + intros (_ & m & _ & Hk & Hh). exists m. split; [congruence | apply Hall].
      + intros (m & [= Hk Hh] & _). split.
        * rewrite <- Hh. apply Hacq, Hall.
        * exists m. split; [discriminate|]. split; assumption. }
  apply Permutation_length in Hperm. rewrite Hperm, length_map. reflexivity.
Qed.

(** X18.  [Resize] deletes each texture, framebuffer and host array it is
    about to replace before it creates the new one, whatever the results of
    the two framebuffer checks are: when the objects in use are those the
    members hold (as after [operator new], or after an earlier [Resize]) and
    the assertions pass, then after [Resize] the objects in use are again
    those the members hold, each of the eight textures, two framebuffers and
    two arrays is held by one member, and they are twelve.  No object is
    leaked by any number of [Resize] calls. *)
Theorem Resize_replaces_its_objects tile w h status_ms status_ss s :
  no_leak s ->
  single_tier_ok tile (padded_dim tile w) = true ->
  single_tier_ok tile (padded_dim tile h) = true ->
  let s' := objects_run (Resize_calls tile w h status_ms status_ss) s in
  no_leak s'
  /\ (forall m, handle s' m <> 0)
  /\ length (live s') = 12%nat
  /\ diagnostics (Resize_calls tile w h status_ms status_ss)
     = List.filter (fun status => negb (status =? GL_FRAMEBUFFER_COMPLETE))
                   [status_ms; status_ss].
Proof.
  intros Hs Hw Hh s'.
  destruct (Resize_calls_lifetime tile w h status_ms status_ss Hw Hh)
    as (acquired & Hcheck & Hall).
  pose proof (lifetime_check_sound _ _ _ _ _ Hs Hcheck) as Hown. fold s' in Hown.
  assert (Hown' : owns None all_members s').
  { destruct Hown as (Hnd & Hlive & Hinj & Hacq).
    split; [exact Hnd|]. split; [exact Hlive|]. split; [exact Hinj|].
    intros m _. apply Hacq, Hall. }
  split; [|split; [|split]].
  - destruct Hown as (Hnd & Hlive & Hinj & _).
    split; [exact Hnd|]. split; [exact Hlive|]. split; [exact Hinj|].
    intros m [].
  - intros m. destruct Hown as (_ & _ & _ & Hacq). apply Hacq, Hall.
  - apply owns_all_count. exact Hown'.
  - unfold Resize_calls, init_multisampled_fbo, init_singlesampled_fbo,
      init_summed_area_table. cbv zeta. rewrite Hw, Hh. cbn [andb List.filter].
    destruct (status_ms =? GL_FRAMEBUFFER_COMPLETE),
      (status_ss =? GL_FRAMEBUFFER_COMPLETE); reflexivity.
Qed.

Lemma no_objects_no_leak : no_leak no_objects.
Proof.
  unfold no_leak, owns, no_objects. cbn [handle live].
  split; [constructor|]. split; [|split].
  - intros k n. split; [intros []|]. intros (Hn & m & _ & _ & Hh). congruence.
  - intros m1 m2 _ _ _ _ Hn. congruence.
  - intros m [].
Qed.

Lemma Resize_replaces_its_objects_witness :
  let s1 := objects_run (Resize_calls 256 800 600 GL_FRAMEBUFFER_COMPLETE 0) no_objects in
  let s2 := objects_run (Resize_calls 256 1920 1080 GL_FRAMEBUFFER_COMPLETE
                                      GL_FRAMEBUFFER_COMPLETE) s1 in
  no_leak s2 /\ (forall m, handle s2 m <> 0) /\ length (live s2) = 12%nat
  /\ diagnostics (Resize_calls 256 800 600 GL_FRAMEBUFFER_COMPLETE 0) = [0].
Proof.
  intros s1 s2.
  destruct (Resize_replaces_its_objects 256 800 600 GL_FRAMEBUFFER_COMPLETE 0 no_objects
              no_objects_no_leak eq_refl eq_refl) as (H1 & _ & _ & Hd).
  destruct (Resize_replaces_its_objects 256 1920 1080 GL_FRAMEBUFFER_COMPLETE
              GL_FRAMEBUFFER_COMPLETE s1 H1 eq_refl eq_refl) as (H2 & Hh & Hl & _).
  split; [exact H2|]. split; [exact Hh|]. split; [exact Hl | exact Hd].
Defined.

(** X19.  The calls of [Resize] and the state it leaves agree.  When the
    assertions pass, each of the eight textures receives, while it is bound
    and after its name was generated, the storage the renderer records for
    it, the two arrays are allocated with the recorded element counts, and
    no texture stays bound.  When an assertion fails, [Resize] has by then
    replaced the four backbuffer textures and the two framebuffers and
    nothing of the table: the process is aborted with the old table
    objects still in place. *)
Theorem Resize_calls_match_state tile w h status_ms status_ss r0 :
  let calls := Resize_calls tile w h status_ms status_ss in
  match Resize tile w h r0 with
  | Some r =>
      (forall t, snd (storages calls) t = texture_storage r t)
      /\ fst (storages calls) = None
      /\ array_counts calls
         = [(CPUBackbufferReadback, mCPUBackbufferReadback r);
            (CPUSummedAreaTable, mCPUSummedAreaTable r)]
      /\ ~ In assert_fails calls
  | None =>
      last calls = Some assert_fails
      /\ array_counts calls = []
      /\ omap generated calls
         = [TextureMember BackbufferColorTOMS; TextureMember BackbufferDepthTOMS;
            FramebufferObject mBackbufferFBOMS;
            TextureMember BackbufferColorTOSS; TextureMember BackbufferDepthTOSS;
            FramebufferObject mBackbufferFBOSS]
  end.
Proof.
  unfold Resize, Resize_calls, init_multisampled_fbo, init_singlesampled_fbo,
    init_summed_area_table. cbv zeta.
  destruct (single_tier_ok tile (padded_dim tile w));
    [destruct (single_tier_ok tile (padded_dim tile h))|]; cbn [andb];
    destruct (status_ms =? GL_FRAMEBUFFER_COMPLETE),
      (status_ss =? GL_FRAMEBUFFER_COMPLETE);
    try (split; [reflexivity|]; split; reflexivity);
    (split; [intros []; reflexivity|]; split; [reflexivity|]; split; [reflexivity|]);
    cbn [In app]; intuition discriminate.
Qed.
